(** * A shallow embedding of [mymalloc.c]

    The allocator of [src/src/mymalloc.c] is modelled as pure functions on an
    explicit allocator state: the bin array, [heap_tail], the block headers
    that live in the heap, and the program break.  Integers of the C code are
    values of [Z] with the 32-bit conversions written out; a value converted
    to [int] that does not fit wraps around.

    The heap holds one header record per block address, and a store to a
    member of one record leaves every other record as it is.  This is the
    memory of the C program as long as the headers it reads and writes lie
    at least [MINIMUM_BLOCK_SIZE] bytes apart or at the same address, which
    holds in every valid heap ([phys_ok] below): [prev_free] and [next_free]
    of a block occupy the first 16 bytes of its payload.  It is not the
    memory of the C program once a block has a payload of fewer than 16
    bytes or the residual of a split is written into another block, where
    two records would share bytes.  The bytes a caller writes to a payload
    are not modelled: the allocator reads [prev_free] and [next_free] only
    of blocks it has linked itself.  [sbrk] and [brk] always succeed. *)

From stdpp Require Import base numbers list gmap.

Local Open Scope Z_scope.

(** ** Machine integers *)

(** Conversion to [unsigned int]: reduction modulo 2^32. *)
Definition to_uint (x : Z) : Z := x mod 2 ^ 32.

(** Conversion to [int]: the two's-complement representative. *)
Definition to_int (x : Z) : Z := (x + 2 ^ 31) mod 2 ^ 32 - 2 ^ 31.

Definition INT_MAX : Z := 2 ^ 31 - 1.
Definition UINT_MAX : Z := 2 ^ 32 - 1.

(** ** Constants of the source *)

Definition NULL : Z := 0.

Definition MINIMUM_ALLOCATION : Z := 16.
Definition SIZE_MULTIPLE : Z := 8.
Definition BIGGEST_BINNED_SIZE : Z := 512.
Definition NUM_BINS : Z :=
  2 + (BIGGEST_BINNED_SIZE - MINIMUM_ALLOCATION) / SIZE_MULTIPLE.
Definition OVERFLOW_BIN : Z := NUM_BINS - 1.

(** [offsetof(BlockHeader, prev_free)] under the LP64 data model: an
    [unsigned int], an [int] and two 8-byte pointers precede [prev_free]. *)
Definition BLOCK_HEADER_SIZE : Z := 4 + 4 + 8 + 8.
Definition MINIMUM_BLOCK_SIZE : Z := MINIMUM_ALLOCATION + BLOCK_HEADER_SIZE.

(** ** Block headers and the allocator state *)

Record BlockHeader : Type := mkBlock {
  size : Z;        (* unsigned int *)
  in_use : Z;      (* int *)
  prev_phys : Z;   (* struct BlockHeader* *)
  next_phys : Z;
  prev_free : Z;
  next_free : Z
}.

Definition zero_block : BlockHeader := mkBlock 0 0 0 0 0 0.

#[global] Instance BlockHeader_inhabited : Inhabited BlockHeader :=
  populate zero_block.

(** The members of [BlockHeader], used to name the target of a store. *)
Inductive field : Type :=
  | Fsize | Fin_use | Fprev_phys | Fnext_phys | Fprev_free | Fnext_free.

Definition set_field (f : field) (v : Z) (h : BlockHeader) : BlockHeader :=
  match f with
  | Fsize => mkBlock v (in_use h) (prev_phys h) (next_phys h) (prev_free h) (next_free h)
  | Fin_use => mkBlock (size h) v (prev_phys h) (next_phys h) (prev_free h) (next_free h)
  | Fprev_phys => mkBlock (size h) (in_use h) v (next_phys h) (prev_free h) (next_free h)
  | Fnext_phys => mkBlock (size h) (in_use h) (prev_phys h) v (prev_free h) (next_free h)
  | Fprev_free => mkBlock (size h) (in_use h) (prev_phys h) (next_phys h) v (next_free h)
  | Fnext_free => mkBlock (size h) (in_use h) (prev_phys h) (next_phys h) (prev_free h) v
  end.

(** The global variables [bins] and [heap_tail], the headers stored in the
    heap (keyed by block address) and the program break moved by
    [sbrk]/[brk]. *)
Record state : Type := mkState {
  bins : list Z;
  heap_tail : Z;
  heap : gmap Z BlockHeader;
  brk : Z
}.

(** [*p] for a header pointer [p]. *)
Definition rd (st : state) (p : Z) : BlockHeader := heap st !!! p.

(** [p->f = v]. *)
Definition store (st : state) (p : Z) (f : field) (v : Z) : state :=
  mkState (bins st) (heap_tail st)
          (<[p := set_field f v (rd st p)]> (heap st)) (brk st).

(** [bins[i]]. *)
Definition bin (st : state) (i : Z) : Z := bins st !!! Z.to_nat i.

(** [bins[i] = v]. *)
Definition set_bin (st : state) (i : Z) (v : Z) : state :=
  mkState (<[Z.to_nat i := v]> (bins st)) (heap_tail st) (heap st) (brk st).

(** [heap_tail = v]. *)
Definition set_heap_tail (st : state) (v : Z) : state :=
  mkState (bins st) v (heap st) (brk st).

(** [brk(addr)]. *)
Definition set_brk (st : state) (addr : Z) : state :=
  mkState (bins st) (heap_tail st) (heap st) addr.

(** [sbrk(delta)]: the break moves up by [delta]; the old break is returned. *)
Definition sbrk (st : state) (delta : Z) : state * Z :=
  (set_brk st (brk st + delta), brk st).

(** The state at program start: [bins] and [heap_tail] are zero-initialised
    and no header has been written; the break is at [b0]. *)
Definition init (b0 : Z) : state :=
  mkState (replicate (Z.to_nat NUM_BINS) NULL) NULL ∅ b0.

(** ** Math helpers *)

Definition ptr_add_bytes (ptr : Z) (byte_offs : Z) : Z := ptr + byte_offs.

Definition block_to_data (block : Z) : Z :=
  ptr_add_bytes block (to_int BLOCK_HEADER_SIZE).

Definition data_to_block (data : Z) : Z :=
  ptr_add_bytes data (to_int (- BLOCK_HEADER_SIZE)).

Definition data_size_to_block_size (data_size : Z) : Z :=
  to_uint (data_size + BLOCK_HEADER_SIZE).

Definition round_up_size (data_size : Z) : Z :=
  if data_size =? 0 then 0
  else if data_size <? MINIMUM_ALLOCATION then MINIMUM_ALLOCATION
  else Z.land (to_uint (data_size + (SIZE_MULTIPLE - 1)))
              (to_uint (Z.lnot (SIZE_MULTIPLE - 1))).

Definition size_to_bin (data_size : Z) : Z :=
  let bin := to_uint (round_up_size data_size - MINIMUM_ALLOCATION) / SIZE_MULTIPLE in
  if bin >? OVERFLOW_BIN then OVERFLOW_BIN else bin.

(** ** The physical list *)

Definition link_onto_end (st : state) (new_block : Z) : state :=
  if heap_tail st =? NULL then
    let st := store st new_block Fprev_phys NULL in
    let st := store st new_block Fnext_phys NULL in
    set_heap_tail st new_block
  else
    let old_tail := heap_tail st in
    let st := store st old_tail Fnext_phys new_block in
    let st := store st new_block Fnext_phys NULL in
    let st := store st new_block Fprev_phys old_tail in
    set_heap_tail st new_block.

Definition unlink_block (st : state) : state :=
  if heap_tail st =? NULL then st
  else if prev_phys (rd st (heap_tail st)) =? NULL then set_heap_tail st NULL
  else
    let new_tail := prev_phys (rd st (heap_tail st)) in
    let st := store st new_tail Fnext_phys NULL in
    set_heap_tail st new_tail.

(** ** The bins *)

Definition insert_into_bin (st : state) (block : Z) : state :=
  let bin_index := size_to_bin (size (rd st block)) in
  if bin st bin_index =? NULL then
    let st := store st block Fprev_free NULL in
    let st := store st block Fnext_free NULL in
    set_bin st bin_index block
  else
    let old_head := bin st bin_index in
    let st := store st old_head Fprev_free block in
    let st := store st block Fnext_free old_head in
    let st := store st block Fprev_free NULL in
    set_bin st bin_index block.

Definition remove_block (st : state) (block : Z) : state :=
  let bin_index := size_to_bin (size (rd st block)) in
  let pf := prev_free (rd st block) in
  let nf := next_free (rd st block) in
  if (pf =? NULL) && (nf =? NULL) then
    set_bin st bin_index NULL
  else if (pf =? NULL) && negb (nf =? NULL) then
    let st := set_bin st bin_index nf in
    store st nf Fprev_free NULL
  else if negb (pf =? NULL) && (nf =? NULL) then
    store st pf Fnext_free NULL
  else if negb (pf =? NULL) && negb (nf =? NULL) then
    let st := store st pf Fnext_free nf in
    store st nf Fprev_free pf
  else st.

(** ** Coalescing *)

(** The tail shared by the branches of [coalesce] that absorb the next
    neighbour: [heap_tail] or the back link of the new successor is patched. *)
Definition patch_successor (st : state) (coalesced_block : Z) : state :=
  if next_phys (rd st coalesced_block) =? NULL then
    set_heap_tail st coalesced_block
  else
    store st (next_phys (rd st coalesced_block)) Fprev_phys coalesced_block.

Definition coalesce (st : state) (block : Z) : state * Z :=
  let pp := prev_phys (rd st block) in
  let np := next_phys (rd st block) in
  if negb (pp =? NULL) && negb (np =? NULL) then
    if (in_use (rd st pp) =? 0) && (in_use (rd st np) =? 0) then
      let st := remove_block st np in
      let st := remove_block st (prev_phys (rd st block)) in
      let new_size :=
        to_int (size (rd st (prev_phys (rd st block)))
                + (size (rd st block) + BLOCK_HEADER_SIZE)
                + (size (rd st (next_phys (rd st block))) + BLOCK_HEADER_SIZE)) in
      let coalesced_block := prev_phys (rd st block) in
      let st := store st coalesced_block Fsize (to_uint new_size) in
      let st := store st coalesced_block Fin_use 0 in
      let st := store st coalesced_block Fnext_phys
                      (next_phys (rd st (next_phys (rd st block)))) in
      (patch_successor st coalesced_block, coalesced_block)
    else if (in_use (rd st pp) =? 0) && (in_use (rd st np) =? 1) then
      let st := remove_block st pp in
      let new_size :=
        to_int (size (rd st (prev_phys (rd st block)))
                + (size (rd st block) + BLOCK_HEADER_SIZE)) in
      let coalesced_block := prev_phys (rd st block) in
      let st := store st coalesced_block Fsize (to_uint new_size) in
      let st := store st coalesced_block Fin_use 0 in
      let st := store st coalesced_block Fnext_phys (next_phys (rd st block)) in
      let st := store st (next_phys (rd st coalesced_block)) Fprev_phys coalesced_block in
      (st, coalesced_block)
    else if (in_use (rd st pp) =? 1) && (in_use (rd st np) =? 0) then
      let st := remove_block st np in
      let new_size :=
        to_int (size (rd st (next_phys (rd st block)))
                + (size (rd st block) + BLOCK_HEADER_SIZE)) in
      let coalesced_block := block in
      let st := store st coalesced_block Fsize (to_uint new_size) in
      let st := store st coalesced_block Fin_use 0 in
      let st := store st coalesced_block Fnext_phys
                      (next_phys (rd st (next_phys (rd st block)))) in
      (patch_successor st coalesced_block, coalesced_block)
    else (st, block)
  else if negb (pp =? NULL) && (np =? NULL) then
    if in_use (rd st pp) =? 0 then
      let st := remove_block st pp in
      let new_size :=
        to_int (size (rd st (prev_phys (rd st block)))
                + (size (rd st block) + BLOCK_HEADER_SIZE)) in
      let coalesced_block := prev_phys (rd st block) in
      let st := store st coalesced_block Fsize (to_uint new_size) in
      let st := store st coalesced_block Fin_use 0 in
      let st := store st coalesced_block Fnext_phys NULL in
      (set_heap_tail st coalesced_block, coalesced_block)
    else (st, block)
  else if (pp =? NULL) && negb (np =? NULL) then
    if in_use (rd st np) =? 0 then
      let st := remove_block st np in
      let new_size :=
        to_int (size (rd st (next_phys (rd st block)))
                + (size (rd st block) + BLOCK_HEADER_SIZE)) in
      let coalesced_block := block in
      let st := store st coalesced_block Fsize (to_uint new_size) in
      let st := store st coalesced_block Fin_use 0 in
      let st := store st coalesced_block Fnext_phys
                      (next_phys (rd st (next_phys (rd st block)))) in
      (patch_successor st coalesced_block, coalesced_block)
    else (st, block)
  else (st, block).

(** ** Splitting *)

(** [allocation_size] is the [int] parameter of the source. *)
Definition split_block (st : state) (block : Z) (allocation_size : Z) : state * Z :=
  let old_block_size := to_int (size (rd st block)) in
  let st := remove_block st block in
  let allocated_portion := block in
  let empty_portion :=
    ptr_add_bytes block (to_int (allocation_size + BLOCK_HEADER_SIZE)) in
  let next_block := next_phys (rd st block) in
  let st := store st allocated_portion Fin_use 1 in
  let st := store st allocated_portion Fsize (to_uint allocation_size) in
  let st := store st empty_portion Fin_use 0 in
  let st := store st empty_portion Fsize
                  (to_uint (to_int (old_block_size - allocation_size)
                            - BLOCK_HEADER_SIZE)) in
  let st := store st allocated_portion Fnext_phys empty_portion in
  let st := store st empty_portion Fprev_phys allocated_portion in
  let st := store st empty_portion Fnext_phys next_block in
  let st :=
    if negb (next_block =? NULL)
    then store st next_block Fprev_phys empty_portion
    else set_heap_tail st empty_portion in
  let st := insert_into_bin st empty_portion in
  (st, allocated_portion).

(** ** Public functions *)

(** The [for] loop of [my_malloc] over the small bins.  [index] only grows
    and the loop stops at [OVERFLOW_BIN], so [n] iterations starting from
    [OVERFLOW_BIN - n] or above always reach the exit test.  The result is
    the state and [block_to_split] at the exit of the loop. *)
Fixpoint small_scan (n : nat) (st : state) (index : Z) (sz : Z) : state * Z :=
  match n with
  | O => (st, NULL)
  | S n' =>
      if index <? OVERFLOW_BIN then
        if negb (bin st index =? NULL) then
          let block_to_split := bin st index in
          if to_uint (size (rd st block_to_split) - sz) <? MINIMUM_BLOCK_SIZE
          then small_scan n' st (index + 1) sz
          else (remove_block st block_to_split, block_to_split)
        else small_scan n' st (index + 1) sz
      else (st, NULL)
  end.

(** The first-fit [while] loop over the overflow bin.  The loop follows
    [next_free] links with no bound of its own, so the model takes fuel and
    answers [None] when the fuel runs out before the loop exits. *)
Fixpoint first_fit (fuel : nat) (st : state) (current : Z) (sz : Z)
  : option (state * Z) :=
  match fuel with
  | O => None
  | S fuel' =>
      if current =? NULL then Some (st, NULL)
      else if size (rd st current) >=? sz then
        if to_uint (size (rd st current) - sz) >=? MINIMUM_BLOCK_SIZE then
          Some (split_block st current (to_int sz))
        else
          let new_allocation := current in
          let st := store st new_allocation Fin_use 1 in
          Some (remove_block st new_allocation, new_allocation)
      else first_fit fuel' st (next_free (rd st current)) sz
  end.

(** The two small-bin branches of [my_malloc]: the state and
    [new_allocation] when control reaches the first
    [if(new_allocation == NULL)]. *)
Definition small_bins (st : state) (sz : Z) : state * Z :=
  let bin_index := size_to_bin sz in
  let current := bin st bin_index in
  if (bin_index <? OVERFLOW_BIN) && negb (current =? NULL) then
    let new_allocation := current in
    let st := store st new_allocation Fin_use 1 in
    (remove_block st current, new_allocation)
  else if (bin_index <? OVERFLOW_BIN) && (current =? NULL) then
    let '(st, block_to_split) :=
      small_scan (Z.to_nat OVERFLOW_BIN) st
                 (size_to_bin (to_uint (sz + MINIMUM_BLOCK_SIZE))) sz in
    if negb (block_to_split =? NULL)
    then split_block st block_to_split (to_int sz)
    else (st, NULL)
  else (st, NULL).

(** The last [if(new_allocation == NULL)]: a new block at the old break. *)
Definition grow_heap (st : state) (sz : Z) : state * Z :=
  let '(st, new_allocation) := sbrk st (sz + BLOCK_HEADER_SIZE) in
  let st := store st new_allocation Fsize sz in
  let st := store st new_allocation Fin_use 1 in
  (link_onto_end st new_allocation, new_allocation).

Definition my_malloc (fuel : nat) (st : state) (sz : Z) : option (state * Z) :=
  if sz =? 0 then Some (st, NULL)
  else
    let sz := round_up_size sz in
    let '(st, new_allocation) := small_bins st sz in
    let searched :=
      if new_allocation =? NULL
      then first_fit fuel st (bin st OVERFLOW_BIN) sz
      else Some (st, new_allocation) in
    match searched with
    | None => None
    | Some (st, new_allocation) =>
        let '(st, new_allocation) :=
          if new_allocation =? NULL then grow_heap st sz
          else (st, new_allocation) in
        Some (st, block_to_data new_allocation)
    end.

Definition my_free (st : state) (ptr : Z) : state :=
  if ptr =? NULL then st
  else
    let block_to_free := data_to_block ptr in
    let '(st, block_to_free) := coalesce st block_to_free in
    if next_phys (rd st block_to_free) =? NULL then
      let st := unlink_block st in
      set_brk st block_to_free
    else
      let st := store st block_to_free Fin_use 0 in
      insert_into_bin st block_to_free.

(** * Specification: validity of a heap, runs of calls *)

(** A payload size as the allocator keeps it: a multiple of the quantum,
    at least the minimum, that fits an [unsigned int]. *)
Definition size_ok (x : Z) : Prop := 16 <= x < 2 ^ 32 /\ x mod 8 = 0.

(** [dseg st prev p l nxt]: following [next_free] from [p] visits exactly the
    blocks of [l] and ends at [nxt]; every block of [l] points back to its
    predecessor through [prev_free], the first one to [prev]. *)
Fixpoint dseg (st : state) (prev p : Z) (l : list Z) (nxt : Z) : Prop :=
  match l with
  | [] => p = nxt
  | b :: l' =>
      p = b /\ b <> NULL /\ prev_free (rd st b) = prev
      /\ dseg st b (next_free (rd st b)) l' nxt
  end.

(** The last block of [l], or [d] when [l] is empty. *)
Definition last_or (d : Z) (l : list Z) : Z := List.last l d.

(** One past the last payload byte of the block at [b]. *)
Definition block_end (st : state) (b : Z) : Z :=
  b + BLOCK_HEADER_SIZE + size (rd st b).

(** The physical list: [bl] is the set of blocks of the heap, which starts
    at [base] and ends at the break. *)
Record phys_ok (base : Z) (st : state) (bl : gset Z) : Prop := {
  po_base : 0 < base <= brk st;
  po_empty : bl = ∅ -> brk st = base;
  po_tail_null : heap_tail st = NULL -> bl = ∅;
  po_tail : heap_tail st <> NULL ->
            heap_tail st ∈ bl /\ next_phys (rd st (heap_tail st)) = NULL;
  po_block : forall b, b ∈ bl ->
    base <= b /\ size_ok (size (rd st b))
    /\ (in_use (rd st b) = 0 \/ in_use (rd st b) = 1)
    /\ block_end st b <= brk st;
  po_next : forall b, b ∈ bl ->
    (next_phys (rd st b) = NULL /\ heap_tail st = b /\ brk st = block_end st b)
    \/ (next_phys (rd st b) ∈ bl
        /\ prev_phys (rd st (next_phys (rd st b))) = b
        /\ next_phys (rd st b) = block_end st b);
  po_prev : forall b, b ∈ bl ->
    (prev_phys (rd st b) = NULL /\ b = base)
    \/ (prev_phys (rd st b) ∈ bl
        /\ next_phys (rd st (prev_phys (rd st b))) = b);
  po_order : forall x y, x ∈ bl -> y ∈ bl -> x < y -> block_end st x <= y;
  po_adj : forall b, b ∈ bl -> in_use (rd st b) = 0 ->
    next_phys (rd st b) <> NULL
    /\ in_use (rd st (next_phys (rd st b))) = 1
    /\ (prev_phys (rd st b) = NULL
        \/ in_use (rd st (prev_phys (rd st b))) = 1)
}.

(** The bins: [fl i] lists the blocks of [bins[i]] from head to tail. *)
Record lists_ok (st : state) (fl : Z -> list Z) : Prop := {
  lo_len : length (bins st) = Z.to_nat NUM_BINS;
  lo_dll : forall i, 0 <= i < NUM_BINS -> dseg st NULL (bin st i) (fl i) NULL;
  lo_nodup : forall i, NoDup (fl i);
  lo_bin : forall i b, b ∈ fl i ->
    0 <= i < NUM_BINS /\ size_to_bin (size (rd st b)) = i
}.

(** The free blocks are exactly the blocks on the free lists. *)
Record members_ok (st : state) (bl : gset Z) (fl : Z -> list Z) : Prop := {
  mo_in : forall i b, b ∈ fl i -> b ∈ bl /\ in_use (rd st b) = 0;
  mo_all : forall b, b ∈ bl -> in_use (rd st b) = 0 ->
    b ∈ fl (size_to_bin (size (rd st b)))
}.

(** A valid heap. *)
Record wf (base : Z) (st : state) (bl : gset Z) (fl : Z -> list Z) : Prop := {
  wf_phys : phys_ok base st bl;
  wf_lists : lists_ok st fl;
  wf_members : members_ok st bl fl
}.

(** A pointer the caller may pass to [my_free]: the payload of a block of
    the heap that is in use. *)
Definition allocated (st : state) (bl : gset Z) (p : Z) : Prop :=
  data_to_block p ∈ bl /\ in_use (rd st (data_to_block p)) = 1.

(** Ghost updates of the free lists. *)
Definition fl_set (fl : Z -> list Z) (k : Z) (l : list Z) : Z -> list Z :=
  fun j => if decide (j = k) then l else fl j.

(** [l] without [b]. *)
Definition list_del (b : Z) (l : list Z) : list Z := filter (fun x => x <> b) l.

(** [phys_ok] reads the fields [size], [in_use], [prev_phys] and
    [next_phys] of the blocks of [bl] only, besides [heap_tail] and the
    break. *)
Definition same_phys (bl : gset Z) (st st' : state) : Prop :=
  heap_tail st' = heap_tail st /\ brk st' = brk st
  /\ forall q, q ∈ bl ->
       size (rd st' q) = size (rd st q)
       /\ in_use (rd st' q) = in_use (rd st q)
       /\ prev_phys (rd st' q) = prev_phys (rd st q)
       /\ next_phys (rd st' q) = next_phys (rd st q).

(** The effect of the merging branches of [coalesce] on the physical list,
    one neighbour at a time: [x] takes over the bytes of its successor. *)
Definition absorb (st : state) (x : Z) : state :=
  let y := next_phys (rd st x) in
  let st1 :=
    store st x Fsize (size (rd st x) + BLOCK_HEADER_SIZE + size (rd st y)) in
  let st2 := store st1 x Fnext_phys (next_phys (rd st y)) in
  patch_successor st2 x.

(** [split_block] with the integer conversions resolved, for a block that
    has a successor and sizes that fit an [int]. *)
Definition split_state (st : state) (b a : Z) : state :=
  let r := b + 24 + a in
  let n := next_phys (rd st b) in
  let st1 := remove_block st b in
  let st1 := store st1 b Fin_use 1 in
  let st1 := store st1 b Fsize a in
  let st1 := store st1 r Fin_use 0 in
  let st1 := store st1 r Fsize (size (rd st b) - a - 24) in
  let st1 := store st1 b Fnext_phys r in
  let st1 := store st1 r Fprev_phys b in
  let st1 := store st1 r Fnext_phys n in
  store st1 n Fprev_phys r.

(** The body of the branches that merge with the next neighbour only. *)
Definition merge_next (st : state) (block : Z) : state * Z :=
  let st := remove_block st (next_phys (rd st block)) in
  let new_size :=
    to_int (size (rd st (next_phys (rd st block)))
            + (size (rd st block) + BLOCK_HEADER_SIZE)) in
  let coalesced_block := block in
  let st := store st coalesced_block Fsize (to_uint new_size) in
  let st := store st coalesced_block Fin_use 0 in
  let st := store st coalesced_block Fnext_phys
                  (next_phys (rd st (next_phys (rd st block)))) in
  (patch_successor st coalesced_block, coalesced_block).

(** The body of the branch that merges with the previous neighbour when the
    next one is in use. *)
Definition merge_prev (st : state) (block : Z) : state * Z :=
  let st := remove_block st (prev_phys (rd st block)) in
  let new_size :=
    to_int (size (rd st (prev_phys (rd st block)))
            + (size (rd st block) + BLOCK_HEADER_SIZE)) in
  let coalesced_block := prev_phys (rd st block) in
  let st := store st coalesced_block Fsize (to_uint new_size) in
  let st := store st coalesced_block Fin_use 0 in
  let st := store st coalesced_block Fnext_phys (next_phys (rd st block)) in
  let st := store st (next_phys (rd st coalesced_block)) Fprev_phys coalesced_block in
  (st, coalesced_block).

(** The body of the branch that merges with the previous neighbour when
    there is no next one. *)
Definition merge_prev_last (st : state) (block : Z) : state * Z :=
  let st := remove_block st (prev_phys (rd st block)) in
  let new_size :=
    to_int (size (rd st (prev_phys (rd st block)))
            + (size (rd st block) + BLOCK_HEADER_SIZE)) in
  let coalesced_block := prev_phys (rd st block) in
  let st := store st coalesced_block Fsize (to_uint new_size) in
  let st := store st coalesced_block Fin_use 0 in
  let st := store st coalesced_block Fnext_phys NULL in
  (set_heap_tail st coalesced_block, coalesced_block).

(** The body of the branch that merges with both neighbours. *)
Definition merge_both (st : state) (block : Z) : state * Z :=
  let st := remove_block st (next_phys (rd st block)) in
  let st := remove_block st (prev_phys (rd st block)) in
  let new_size :=
    to_int (size (rd st (prev_phys (rd st block)))
            + (size (rd st block) + BLOCK_HEADER_SIZE)
            + (size (rd st (next_phys (rd st block))) + BLOCK_HEADER_SIZE)) in
  let coalesced_block := prev_phys (rd st block) in
  let st := store st coalesced_block Fsize (to_uint new_size) in
  let st := store st coalesced_block Fin_use 0 in
  let st := store st coalesced_block Fnext_phys
                  (next_phys (rd st (next_phys (rd st block)))) in
  (patch_successor st coalesced_block, coalesced_block).

(** The two branches that merge with the previous neighbour end in the same
    state as storing the successor of [block] and patching it. *)
Definition merge_prev_gen (st : state) (block : Z) : state * Z :=
  let st := remove_block st (prev_phys (rd st block)) in
  let new_size :=
    to_int (size (rd st (prev_phys (rd st block)))
            + (size (rd st block) + BLOCK_HEADER_SIZE)) in
  let coalesced_block := prev_phys (rd st block) in
  let st := store st coalesced_block Fsize (to_uint new_size) in
  let st := store st coalesced_block Fin_use 0 in
  let st := store st coalesced_block Fnext_phys (next_phys (rd st block)) in
  (patch_successor st coalesced_block, coalesced_block).

(** The heap spans fewer than 2^31 bytes: every size and every sum of
    sizes of neighbours fits an [int]. *)
Definition fits (base : Z) (st : state) : Prop := brk st - base <= INT_MAX.

(** The free lists without the block [x]. *)
Definition fl_del (st : state) (fl : Z -> list Z) (x : Z) : Z -> list Z :=
  fl_set fl (size_to_bin (size (rd st x)))
         (list_del x (fl (size_to_bin (size (rd st x))))).

(** A state in which the block [m] is being released: with [m] marked in
    use the state is valid, and the neighbours of [m] are in use. *)
Definition detached (base : Z) (st : state) (bl : gset Z) (fl : Z -> list Z)
    (m : Z) : Prop :=
  wf base (store st m Fin_use 1) bl fl /\ m ∈ bl
  /\ (next_phys (rd st m) = NULL
      \/ in_use (rd st (next_phys (rd st m))) = 1)
  /\ (prev_phys (rd st m) = NULL
      \/ in_use (rd st (prev_phys (rd st m))) = 1).

(** The first block of [l] that is large enough for [sz]. *)
Definition first_large (st : state) (sz : Z) (l : list Z) : option Z :=
  List.find (fun b => size (rd st b) >=? sz) l.

(** What an allocation of [n] bytes that returns the block [b] establishes. *)
Definition malloc_post (base : Z) (st : state) (bl : gset Z) (n : Z)
    (st' : state) (b : Z) : Prop :=
  exists bl' fl',
    wf base st' bl' fl'
    /\ b ∈ bl' /\ in_use (rd st' b) = 1 /\ n <= size (rd st' b)
    /\ brk st <= brk st'
    /\ (forall c, (c ∈ bl' /\ in_use (rd st' c) = 1)
                  <-> ((c ∈ bl /\ in_use (rd st c) = 1) \/ c = b))
    /\ ~ (b ∈ bl /\ in_use (rd st b) = 1).

(** [my_malloc] after the small bins: the overflow bin and the growth. *)
Definition malloc_tail (fuel : nat) (s : Z) (r : state * Z)
  : option (state * Z) :=
  let '(st, new_allocation) := r in
  let searched :=
    if new_allocation =? NULL
    then first_fit fuel st (bin st OVERFLOW_BIN) s
    else Some (st, new_allocation) in
  match searched with
  | None => None
  | Some (st, new_allocation) =>
      let '(st, new_allocation) :=
        if new_allocation =? NULL then grow_heap st s
        else (st, new_allocation) in
      Some (st, block_to_data new_allocation)
  end.

(** The allocation returns the block [b] of the state [st']. *)
Definition returns (base : Z) (st : state) (bl : gset Z) (n : Z)
    (r : option (state * Z)) : Prop :=
  exists st' p,
    r = Some (st', p)
    /\ (fits base st' ->
        p <> NULL /\ malloc_post base st bl n st' (data_to_block p)).

(** The blocks of the heap as the allocator finds them: from [heap_tail]
    along [prev_phys]. *)
Inductive live (st : state) : Z -> Prop :=
  | live_tail : heap_tail st <> NULL -> live st (heap_tail st)
  | live_prev b :
      live st b -> prev_phys (rd st b) <> NULL ->
      live st (prev_phys (rd st b)).

(** The coalescing invariant: no free block has a free physical neighbour. *)
Definition no_adjacent_free (st : state) : Prop :=
  forall b, live st b -> in_use (rd st b) = 0 ->
    (next_phys (rd st b) = NULL
     \/ in_use (rd st (next_phys (rd st b))) = 1)
    /\ (prev_phys (rd st b) = NULL
        \/ in_use (rd st (prev_phys (rd st b))) = 1).

(** [run ok b0 st ps]: [st] is reached from the empty heap with break [b0]
    by calls of [my_malloc] and [my_free]; [ps] lists the pointers that
    [my_malloc] returned and that were not released since.  [my_free] is
    only called on [NULL] or on such a pointer.  [ok n st'] restricts the
    calls [my_malloc(n)] by their request and the state they end in. *)
Inductive run (ok : Z -> state -> Prop) (b0 : Z) : state -> list Z -> Prop :=
  | run_init : run ok b0 (init b0) []
  | run_malloc st ps fuel n st' p :
      run ok b0 st ps -> 0 <= n <= UINT_MAX ->
      my_malloc fuel st n = Some (st', p) -> ok n st' ->
      run ok b0 st' (if decide (p = NULL) then ps else p :: ps)
  | run_free st ps p :
      run ok b0 st ps -> p = NULL \/ p ∈ ps ->
      run ok b0 (my_free st p) (list_del p ps).

(** No restriction on the calls. *)
Definition any_call (n : Z) (st' : state) : Prop := True.

(** The request can be rounded up within an [unsigned int] and the heap
    stays below 2^31 bytes. *)
Definition small_call (b0 : Z) (n : Z) (st' : state) : Prop :=
  n <= 2 ^ 32 - 8 /\ fits b0 st'.

(** What holds along a run of small calls: the heap is valid and below
    2^31 bytes, and the caller holds the pointers of the blocks in use. *)
Definition run_inv (b0 : Z) (st : state) (ps : list Z) : Prop :=
  exists bl fl,
    wf b0 st bl fl /\ fits b0 st /\ forall p, p ∈ ps <-> allocated st bl p.

(** A call of one of the two public functions. *)
Inductive call := Malloc (n : Z) | Free (p : Z).

(** The calls [cs] made in order from [st], where [ps] lists the pointers
    the caller holds.  The answer is [None] when a call is not one the caller
    may make (a size that is no [unsigned int], a pointer it does not hold),
    when [chk] rejects an allocation, or when [fuel] does not suffice for a
    search. *)
Fixpoint exec (chk : Z -> state -> bool) (fuel : nat) (cs : list call)
    (st : state) (ps : list Z) : option (state * list Z) :=
  match cs with
  | [] => Some (st, ps)
  | Malloc n :: cs' =>
      if bool_decide (0 <= n <= UINT_MAX) then
        match my_malloc fuel st n with
        | Some (st', p) =>
            if chk n st'
            then exec chk fuel cs' st' (if decide (p = NULL) then ps else p :: ps)
            else None
        | None => None
        end
      else None
  | Free p :: cs' =>
      if bool_decide (p = NULL \/ p ∈ ps)
      then exec chk fuel cs' (my_free st p) (list_del p ps)
      else None
  end.

(** The tests of [any_call] and [small_call]. *)
Definition any_chk (n : Z) (st' : state) : bool := true.

Definition small_chk (b0 : Z) (n : Z) (st' : state) : bool :=
  (n <=? 2 ^ 32 - 8) && (brk st' - b0 <=? INT_MAX).

(** The blocks met from [b] along [prev_phys], at most [n] of them. *)
Fixpoint walk (n : nat) (st : state) (b : Z) : list Z :=
  match n with
  | O => []
  | S n' => if b =? NULL then [] else b :: walk n' st (prev_phys (rd st b))
  end.

(** Five allocations, the first of 2 GiB and the fourth of 3 GiB, two
    releases and an allocation of [2 ^ 31] bytes. *)
Definition five_gib_calls : list call :=
  [Malloc 2147483520; Malloc 16; Malloc 16; Malloc 3221225472; Malloc 16;
   Free 2147487664; Free 2147487744; Malloc 2147483648].

(** The rounding as the specification words it: 16 for [0 < s <= 16],
    otherwise [s] rounded up to the next multiple of 8, over the integers. *)
Definition spec_round_up (s : Z) : Z :=
  if (0 <? s) && (s <=? 16) then 16 else 8 * ((s + 7) / 8).

(** Every bin is empty. *)
Definition bins_empty (st : state) : Prop :=
  forall i, 0 <= i < NUM_BINS -> bin st i = NULL.

(** The call returned the payload of a block marked in use with room for
    [n] bytes. *)
Definition served (n : Z) (r : option (state * Z)) : Prop :=
  exists st' b,
    r = Some (st', block_to_data b)
    /\ 0 < b /\ in_use (rd st' b) = 1 /\ n <= size (rd st' b).

(** The helpers and the test driver that the allocator's own functions do
    not call. *)

(** [(unsigned int)(((char* )second) - ((char* )first))]: the difference of
    the addresses, converted to [unsigned int]. *)
Definition bytes_between_ptrs (first second : Z) : Z := to_uint (second - first).

(** [test1] of the test driver: ten allocations, then the ten releases in
    the order of the source.  The answer is [None] when a search of
    [my_malloc] runs out of fuel. *)
Definition test1 (fuel : nat) (st : state) : option state :=
  '(st, a) ← my_malloc fuel st 24;
  '(st, b) ← my_malloc fuel st 2000;
  '(st, c) ← my_malloc fuel st 56;
  '(st, d) ← my_malloc fuel st 64;
  '(st, e) ← my_malloc fuel st 200;
  '(st, f) ← my_malloc fuel st 16;
  '(st, g) ← my_malloc fuel st 64;
  '(st, h) ← my_malloc fuel st 40;
  '(st, i) ← my_malloc fuel st 800;
  '(st, j) ← my_malloc fuel st 512;
  let st := my_free st f in
  let st := my_free st a in
  let st := my_free st c in
  let st := my_free st j in
  let st := my_free st g in
  let st := my_free st e in
  let st := my_free st h in
  let st := my_free st i in
  let st := my_free st b in
  let st := my_free st d in
  Some st.

(** [main] of the test driver, started with the break at [b0]: the value of
    [heap_size_diff], which [main] prints when it is not 0. *)
Definition main (fuel : nat) (b0 : Z) : option Z :=
  let '(st, heap_at_start) := sbrk (init b0) 0 in
  st ← test1 fuel st;
  let '(st, heap_at_end) := sbrk st 0 in
  Some (to_uint (heap_at_end - heap_at_start)).

(** A bin the scan passes over: empty, or its head leaves no room for a
    minimum block after [sz] bytes. *)
Definition skipped (st : state) (sz : Z) (j : Z) : Prop :=
  bin st j = NULL
  \/ to_uint (size (rd st (bin st j)) - sz) < MINIMUM_BLOCK_SIZE.

(** ** Reading the state after a store *)

Lemma rd_store st p f v q :
  rd (store st p f v) q
  = if decide (q = p) then set_field f v (rd st p) else rd st q.
Proof.
  unfold rd, store; simpl. case_decide as E.
  - subst. by rewrite lookup_total_insert_eq.
  - by rewrite lookup_total_insert_ne.
Qed.

Lemma size_store st p f v q :
  size (rd (store st p f v) q)
  = match f with
    | Fsize => if decide (q = p) then v else size (rd st q)
    | _ => size (rd st q)
    end.
Proof. rewrite rd_store. destruct f; case_decide; subst; reflexivity. Qed.

Lemma in_use_store st p f v q :
  in_use (rd (store st p f v) q)
  = match f with
    | Fin_use => if decide (q = p) then v else in_use (rd st q)
    | _ => in_use (rd st q)
    end.
Proof. rewrite rd_store. destruct f; case_decide; subst; reflexivity. Qed.

Lemma prev_phys_store st p f v q :
  prev_phys (rd (store st p f v) q)
  = match f with
    | Fprev_phys => if decide (q = p) then v else prev_phys (rd st q)
    | _ => prev_phys (rd st q)
    end.
Proof. rewrite rd_store. destruct f; case_decide; subst; reflexivity. Qed.

Lemma next_phys_store st p f v q :
  next_phys (rd (store st p f v) q)
  = match f with
    | Fnext_phys => if decide (q = p) then v else next_phys (rd st q)
    | _ => next_phys (rd st q)
    end.
Proof. rewrite rd_store. destruct f; case_decide; subst; reflexivity. Qed.

Lemma prev_free_store st p f v q :
  prev_free (rd (store st p f v) q)
  = match f with
    | Fprev_free => if decide (q = p) then v else prev_free (rd st q)
    | _ => prev_free (rd st q)
    end.
Proof. rewrite rd_store. destruct f; case_decide; subst; reflexivity. Qed.

Lemma next_free_store st p f v q :
  next_free (rd (store st p f v) q)
  = match f with
    | Fnext_free => if decide (q = p) then v else next_free (rd st q)
    | _ => next_free (rd st q)
    end.
Proof. rewrite rd_store. destruct f; case_decide; subst; reflexivity. Qed.

Lemma heap_tail_store st p f v : heap_tail (store st p f v) = heap_tail st.
Proof. reflexivity. Qed.
Lemma brk_store st p f v : brk (store st p f v) = brk st.
Proof. reflexivity. Qed.
Lemma bin_store st p f v i : bin (store st p f v) i = bin st i.
Proof. reflexivity. Qed.
Lemma bins_store st p f v : bins (store st p f v) = bins st.
Proof. reflexivity. Qed.

Lemma rd_set_bin st i v q : rd (set_bin st i v) q = rd st q.
Proof. reflexivity. Qed.
Lemma heap_tail_set_bin st i v : heap_tail (set_bin st i v) = heap_tail st.
Proof. reflexivity. Qed.
Lemma brk_set_bin st i v : brk (set_bin st i v) = brk st.
Proof. reflexivity. Qed.
Lemma length_bins_set_bin st i v :
  length (bins (set_bin st i v)) = length (bins st).
Proof. apply length_insert. Qed.

Lemma bin_set_bin st i v j :
  0 <= i -> 0 <= j -> (Z.to_nat i < length (bins st))%nat ->
  bin (set_bin st i v) j = if decide (j = i) then v else bin st j.
Proof.
  intros Hi Hj Hlen. unfold bin, set_bin; simpl. case_decide as E.
  - subst. by rewrite list_lookup_total_insert_eq.
  - rewrite list_lookup_total_insert_ne; [done | lia].
Qed.

Lemma rd_set_heap_tail st v q : rd (set_heap_tail st v) q = rd st q.
Proof. reflexivity. Qed.
Lemma heap_tail_set_heap_tail st v : heap_tail (set_heap_tail st v) = v.
Proof. reflexivity. Qed.
Lemma brk_set_heap_tail st v : brk (set_heap_tail st v) = brk st.
Proof. reflexivity. Qed.
Lemma bin_set_heap_tail st v i : bin (set_heap_tail st v) i = bin st i.
Proof. reflexivity. Qed.
Lemma bins_set_heap_tail st v : bins (set_heap_tail st v) = bins st.
Proof. reflexivity. Qed.

Lemma rd_set_brk st v q : rd (set_brk st v) q = rd st q.
Proof. reflexivity. Qed.
Lemma heap_tail_set_brk st v : heap_tail (set_brk st v) = heap_tail st.
Proof. reflexivity. Qed.
Lemma brk_set_brk st v : brk (set_brk st v) = v.
Proof. reflexivity. Qed.
Lemma bin_set_brk st v i : bin (set_brk st v) i = bin st i.
Proof. reflexivity. Qed.
Lemma bins_set_brk st v : bins (set_brk st v) = bins st.
Proof. reflexivity. Qed.

Lemma bin_init b0 i : 0 <= i < NUM_BINS -> bin (init b0) i = NULL.
Proof.
  intros Hi. unfold bin, init. cbn [bins].
  apply lookup_total_replicate_2. lia.
Qed.

Lemma length_bins_init b0 : length (bins (init b0)) = Z.to_nat NUM_BINS.
Proof. unfold init. cbn [bins]. apply length_replicate. Qed.

(** Equations between states. *)
Lemma set_field_twice f v w h : set_field f w (set_field f v h) = set_field f w h.
Proof. by destruct f. Qed.

Lemma store_store st p f v w : store (store st p f v) p f w = store st p f w.
Proof.
  unfold store. cbn [bins heap_tail heap brk]. f_equal.
  unfold rd at 1. cbn [heap]. rewrite lookup_total_insert_eq.
  by rewrite insert_insert_eq, set_field_twice.
Qed.

Lemma set_bin_set_bin st i v w : set_bin (set_bin st i v) i w = set_bin st i w.
Proof.
  unfold set_bin. cbn [bins heap_tail heap brk]. f_equal.
  apply list_insert_insert_eq.
Qed.

Lemma set_bin_store st p f v i w :
  set_bin (store st p f v) i w = store (set_bin st i w) p f v.
Proof. reflexivity. Qed.

Lemma bin_ext st st' i : bins st' = bins st -> bin st' i = bin st i.
Proof. intros E. unfold bin. by rewrite E. Qed.

(** After these lemmas the primitive state operations are used through
    their equations only. *)
#[global] Opaque store set_bin set_heap_tail set_brk rd bin.

Ltac st_rw :=
  repeat (first
    [ rewrite size_store | rewrite in_use_store | rewrite prev_phys_store
    | rewrite next_phys_store | rewrite prev_free_store | rewrite next_free_store
    | rewrite heap_tail_store | rewrite brk_store | rewrite bin_store
    | rewrite bins_store
    | rewrite rd_set_bin | rewrite heap_tail_set_bin | rewrite brk_set_bin
    | rewrite rd_set_heap_tail | rewrite heap_tail_set_heap_tail
    | rewrite brk_set_heap_tail | rewrite bin_set_heap_tail
    | rewrite bins_set_heap_tail
    | rewrite rd_set_brk | rewrite heap_tail_set_brk | rewrite brk_set_brk
    | rewrite bin_set_brk | rewrite bins_set_brk ]);
  cbv beta iota.

Ltac st_rw_in H :=
  repeat (first
    [ rewrite size_store in H | rewrite in_use_store in H
    | rewrite prev_phys_store in H | rewrite next_phys_store in H
    | rewrite prev_free_store in H | rewrite next_free_store in H
    | rewrite heap_tail_store in H | rewrite brk_store in H
    | rewrite bin_store in H | rewrite bins_store in H
    | rewrite rd_set_bin in H | rewrite heap_tail_set_bin in H
    | rewrite brk_set_bin in H
    | rewrite rd_set_heap_tail in H | rewrite heap_tail_set_heap_tail in H
    | rewrite brk_set_heap_tail in H | rewrite bin_set_heap_tail in H
    | rewrite bins_set_heap_tail in H
    | rewrite rd_set_brk in H | rewrite heap_tail_set_brk in H
    | rewrite brk_set_brk in H | rewrite bin_set_brk in H
    | rewrite bins_set_brk in H ]);
  cbv beta iota in H.

(** ** Facts on the integer conversions and the size classes *)

Lemma to_uint_id x : 0 <= x < 2 ^ 32 -> to_uint x = x.
Proof. intros. unfold to_uint. by rewrite Z.mod_small. Qed.

Lemma to_int_id x : - 2 ^ 31 <= x < 2 ^ 31 -> to_int x = x.
Proof. intros. unfold to_int. rewrite Z.mod_small; lia. Qed.

Lemma to_uint_to_int x : to_uint (to_int x) = to_uint x.
Proof.
  unfold to_uint, to_int. rewrite Zminus_mod_idemp_l. f_equal. lia.
Qed.

Lemma to_uint_range x : 0 <= to_uint x < 2 ^ 32.
Proof. unfold to_uint. apply Z.mod_pos_bound. lia. Qed.

Lemma land_mask_8 x :
  0 <= x < 2 ^ 32 ->
  Z.land x (to_uint (Z.lnot (SIZE_MULTIPLE - 1))) = 8 * (x / 8).
Proof.
  intros Hx.
  change (to_uint (Z.lnot (SIZE_MULTIPLE - 1))) with (Z.land (Z.lnot (Z.ones 3)) (Z.ones 32)).
  rewrite Z.land_assoc, (Z.land_comm x), <- Z.land_assoc.
  rewrite (Z.land_ones x 32) by lia. rewrite (Z.mod_small x) by lia.
  rewrite Z.land_comm. change (Z.land x (Z.lnot (Z.ones 3))) with (Z.ldiff x (Z.ones 3)).
  rewrite Z.ldiff_ones_r by lia.
  rewrite Z.shiftr_div_pow2, Z.shiftl_mul_pow2 by lia.
  change (2 ^ 3) with 8. lia.
Qed.

Lemma round_up_size_eq s :
  0 <= s < 2 ^ 32 ->
  round_up_size s
  = if decide (s = 0) then 0
    else if decide (s < 16) then 16
    else 8 * (((s + 7) mod 2 ^ 32) / 8).
Proof.
  intros Hs. unfold round_up_size, MINIMUM_ALLOCATION.
  destruct (Z.eqb_spec s 0); [by rewrite decide_True|].
  rewrite decide_False by done.
  destruct (Z.ltb_spec s 16); [by rewrite decide_True|].
  rewrite decide_False by lia.
  rewrite land_mask_8 by apply to_uint_range. reflexivity.
Qed.

Ltac dlia := Z.div_mod_to_equations; lia.

Lemma round_up_size_fix x : size_ok x -> round_up_size x = x.
Proof.
  intros [Hx Hm]. rewrite round_up_size_eq by lia.
  rewrite decide_False, decide_False by lia.
  rewrite Z.mod_small by dlia. dlia.
Qed.

Lemma round_up_size_spec n :
  0 < n <= 2 ^ 32 - 8 ->
  size_ok (round_up_size n) /\ n <= round_up_size n < n + 16.
Proof.
  intros Hn. rewrite round_up_size_eq by lia.
  rewrite decide_False by lia. unfold size_ok. case_decide.
  - dlia.
  - rewrite Z.mod_small by lia. dlia.
Qed.

Lemma size_to_bin_eq x :
  size_ok x -> size_to_bin x = if decide (x <= 512) then (x - 16) / 8 else 63.
Proof.
  intros Hx. unfold size_to_bin. rewrite round_up_size_fix by done.
  destruct Hx as [Hx Hm].
  unfold MINIMUM_ALLOCATION, SIZE_MULTIPLE.
  change OVERFLOW_BIN with 63.
  rewrite to_uint_id by lia.
  destruct (Z.gtb_spec ((x - 16) / 8) 63); case_decide; dlia.
Qed.

Lemma size_to_bin_range x : 0 <= size_to_bin x <= 63.
Proof.
  unfold size_to_bin. change OVERFLOW_BIN with 63.
  unfold SIZE_MULTIPLE.
  pose proof (to_uint_range (round_up_size x - MINIMUM_ALLOCATION)).
  destruct (Z.gtb_spec (to_uint (round_up_size x - MINIMUM_ALLOCATION) / 8) 63); dlia.
Qed.

Lemma size_to_bin_small_inj x y :
  size_ok x -> size_ok y -> size_to_bin x = size_to_bin y ->
  size_to_bin x < 63 -> x = y.
Proof.
  intros Hx Hy. rewrite !size_to_bin_eq by done.
  destruct Hx, Hy. repeat case_decide; dlia.
Qed.

Lemma size_to_bin_overflow x :
  size_ok x -> size_to_bin x = 63 <-> 512 < x.
Proof.
  intros Hx. rewrite size_to_bin_eq by done. destruct Hx.
  case_decide; dlia.
Qed.

(** ** The free lists as list segments *)

Lemma last_or_snoc d l x : last_or d (l ++ [x]) = x.
Proof. unfold last_or. by rewrite last_last. Qed.

Lemma last_or_cons d x l : last_or d (x :: l) = last_or x l.
Proof.
  unfold last_or. revert d x. induction l as [|y l IH]; intros d x; [done|].
  change (List.last (x :: y :: l) d) with (List.last (y :: l) d).
  by rewrite !IH.
Qed.

Lemma dseg_app st prev p l1 l2 nxt :
  dseg st prev p (l1 ++ l2) nxt
  <-> exists mid, dseg st prev p l1 mid /\ dseg st (last_or prev l1) mid l2 nxt.
Proof.
  revert prev p. induction l1 as [|b l1 IH]; intros prev p; cbn [app dseg].
  - split.
    + intros H. exists p. done.
    + intros (mid & -> & H). done.
  - rewrite last_or_cons. split.
    + intros (-> & Hb & Hp & H). apply IH in H as (mid & H1 & H2).
      exists mid. done.
    + intros (mid & (-> & Hb & Hp & H1) & H2).
      repeat split; try done. apply IH. by exists mid.
Qed.

Lemma dseg_ext st st' prev p l nxt :
  (forall b, b ∈ l ->
     prev_free (rd st' b) = prev_free (rd st b)
     /\ next_free (rd st' b) = next_free (rd st b)) ->
  dseg st prev p l nxt -> dseg st' prev p l nxt.
Proof.
  revert prev p. induction l as [|b l IH]; intros prev p Hext; simpl; [done|].
  intros (-> & Hb & Hp & H).
  destruct (Hext b) as [E1 E2]; [left|].
  rewrite E1, E2. repeat split; try done.
  apply IH; [|done]. intros c Hc. apply Hext. by right.
Qed.

Lemma dseg_nonnull st prev p l nxt b :
  dseg st prev p l nxt -> b ∈ l -> b <> NULL.
Proof.
  revert prev p. induction l as [|c l IH]; intros prev p; simpl.
  - intros _ Hb. by apply elem_of_nil in Hb.
  - intros (-> & Hc & _ & H) Hb. apply elem_of_cons in Hb as [->|Hb]; [done|].
    eapply IH; eauto.
Qed.

Lemma dseg_head st prev p l nxt :
  dseg st prev p l nxt -> p = List.hd nxt l.
Proof. destruct l; simpl; [done|]. by intros (-> & _). Qed.

(** ** Validity of an allocator state *)

Lemma init_wf b0 : 0 < b0 -> wf b0 (init b0) ∅ (fun _ => []).
Proof.
  intros Hb. split.
  - split; simpl; try done; try set_solver; lia.
  - split.
    + apply length_bins_init.
    + intros i Hi. cbn [dseg]. by apply bin_init.
    + intros. constructor.
    + intros i b H. by apply elem_of_nil in H.
  - split.
    + intros i b H. by apply elem_of_nil in H.
    + set_solver.
Qed.

(** ** [remove_block] and [insert_into_bin] leave the physical view alone *)

Ltac bool_cases :=
  repeat match goal with
  | |- context [if ?c then _ else _] => destruct c eqn:?
  end.

Lemma remove_block_phys st b q :
  size (rd (remove_block st b) q) = size (rd st q)
  /\ in_use (rd (remove_block st b) q) = in_use (rd st q)
  /\ prev_phys (rd (remove_block st b) q) = prev_phys (rd st q)
  /\ next_phys (rd (remove_block st b) q) = next_phys (rd st q).
Proof. unfold remove_block. bool_cases; st_rw; done. Qed.

Lemma size_remove_block st b q :
  size (rd (remove_block st b) q) = size (rd st q).
Proof. apply remove_block_phys. Qed.
Lemma in_use_remove_block st b q :
  in_use (rd (remove_block st b) q) = in_use (rd st q).
Proof. apply remove_block_phys. Qed.
Lemma prev_phys_remove_block st b q :
  prev_phys (rd (remove_block st b) q) = prev_phys (rd st q).
Proof. apply remove_block_phys. Qed.
Lemma next_phys_remove_block st b q :
  next_phys (rd (remove_block st b) q) = next_phys (rd st q).
Proof. apply remove_block_phys. Qed.
Lemma heap_tail_remove_block st b : heap_tail (remove_block st b) = heap_tail st.
Proof. unfold remove_block. bool_cases; st_rw; done. Qed.
Lemma brk_remove_block st b : brk (remove_block st b) = brk st.
Proof. unfold remove_block. bool_cases; st_rw; done. Qed.
Lemma length_bins_remove_block st b :
  length (bins (remove_block st b)) = length (bins st).
Proof.
  unfold remove_block. bool_cases; st_rw; rewrite ?length_bins_set_bin; done.
Qed.

Lemma insert_into_bin_phys st b q :
  size (rd (insert_into_bin st b) q) = size (rd st q)
  /\ in_use (rd (insert_into_bin st b) q) = in_use (rd st q)
  /\ prev_phys (rd (insert_into_bin st b) q) = prev_phys (rd st q)
  /\ next_phys (rd (insert_into_bin st b) q) = next_phys (rd st q).
Proof. unfold insert_into_bin. bool_cases; st_rw; done. Qed.

Lemma size_insert_into_bin st b q :
  size (rd (insert_into_bin st b) q) = size (rd st q).
Proof. apply insert_into_bin_phys. Qed.
Lemma in_use_insert_into_bin st b q :
  in_use (rd (insert_into_bin st b) q) = in_use (rd st q).
Proof. apply insert_into_bin_phys. Qed.
Lemma prev_phys_insert_into_bin st b q :
  prev_phys (rd (insert_into_bin st b) q) = prev_phys (rd st q).
Proof. apply insert_into_bin_phys. Qed.
Lemma next_phys_insert_into_bin st b q :
  next_phys (rd (insert_into_bin st b) q) = next_phys (rd st q).
Proof. apply insert_into_bin_phys. Qed.
Lemma heap_tail_insert_into_bin st b :
  heap_tail (insert_into_bin st b) = heap_tail st.
Proof. unfold insert_into_bin. bool_cases; st_rw; done. Qed.
Lemma brk_insert_into_bin st b : brk (insert_into_bin st b) = brk st.
Proof. unfold insert_into_bin. bool_cases; st_rw; done. Qed.
Lemma length_bins_insert_into_bin st b :
  length (bins (insert_into_bin st b)) = length (bins st).
Proof.
  unfold insert_into_bin. bool_cases; st_rw; rewrite ?length_bins_set_bin; done.
Qed.

(** ** Unlinking a block from its free list *)

Lemma list_del_notin b l : b ∉ l -> list_del b l = l.
Proof.
  intros Hb. unfold list_del. induction l as [|x l IH]; [done|].
  apply not_elem_of_cons in Hb as [Hx Hl].
  rewrite filter_cons_True by done. by rewrite IH.
Qed.

Lemma list_del_split b l1 l2 :
  NoDup (l1 ++ b :: l2) -> list_del b (l1 ++ b :: l2) = l1 ++ l2.
Proof.
  intros Hnd. apply NoDup_app in Hnd as (H1 & H2 & H3).
  apply NoDup_cons in H3 as [H3 H4].
  unfold list_del. rewrite filter_app, filter_cons_False by (intros H; by apply H).
  fold (list_del b l1) (list_del b l2).
  rewrite !list_del_notin; [done|done|].
  intros Hb. apply (H2 b Hb). left.
Qed.

Lemma elem_of_list_del b l x : x ∈ list_del b l <-> x <> b /\ x ∈ l.
Proof. unfold list_del. by rewrite list_elem_of_filter. Qed.

Lemma fl_set_eq fl k l : fl_set fl k l k = l.
Proof. unfold fl_set. by rewrite decide_True. Qed.

Lemma fl_set_ne fl k l j : j <> k -> fl_set fl k l j = fl j.
Proof. intros. unfold fl_set. by rewrite decide_False. Qed.

Lemma last_or_elem d l : last_or d l = d \/ last_or d l ∈ l.
Proof.
  destruct l as [|x l _] using rev_ind; [by left|].
  right. rewrite last_or_snoc. set_solver.
Qed.

Lemma hd_elem (d : Z) l : List.hd d l = d \/ List.hd d l ∈ l.
Proof. destruct l; [by left|]. right. left. Qed.

Lemma remove_block_lists st fl k b :
  lists_ok st fl -> b ∈ fl k ->
  lists_ok (remove_block st b) (fl_set fl k (list_del b (fl k))).
Proof.
  intros [Hlen Hdll Hnd Hbin] Hb.
  destruct (Hbin k b Hb) as [Hk Hsz].
  assert (Hother : forall j x, j <> k -> x ∈ fl j -> x ∉ fl k).
  { intros j x Hj Hx Hx'. apply Hbin in Hx, Hx'. lia. }
  pose proof (Hdll k Hk) as Hd. pose proof (Hnd k) as Hndk.
  apply list_elem_of_split in Hb as (l1 & l2 & Hl).
  rewrite Hl in Hd, Hndk.
  assert (Hdel : list_del b (fl k) = l1 ++ l2) by (rewrite Hl; by apply list_del_split).
  rewrite Hdel. clear Hdel.
  pose proof Hd as Hd0.
  apply dseg_app in Hd as (mid & Hd1 & Hd2). cbn [dseg] in Hd2.
  destruct Hd2 as (-> & Hbnz & Hpf & Hd2).
  assert (Hin1 : forall x, x ∈ l1 -> x ∈ fl k) by (intros x Hx; rewrite Hl; set_solver).
  assert (Hin2 : forall x, x ∈ l2 -> x ∈ fl k) by (intros x Hx; rewrite Hl; set_solver).
  apply NoDup_app in Hndk as (Hnd1 & Hnd12 & Hnd2).
  apply NoDup_cons in Hnd2 as [Hb2 Hnd2].
  assert (Hb1 : b ∉ l1) by (intros H; apply (Hnd12 b H); left).
  assert (Hdisj : forall x, x ∈ l1 -> x ∉ l2).
  { intros x Hx Hx'. apply (Hnd12 x Hx). by right. }
  assert (Hlenk : (Z.to_nat k < length (bins st))%nat) by (rewrite Hlen; lia).
  split.
  - by rewrite length_bins_remove_block.
  - intros i Hi. unfold remove_block. rewrite Hsz.
    destruct (decide (i = k)) as [->|Hik].
    + rewrite fl_set_eq.
      destruct l1 as [|p l1' _] using rev_ind; destruct l2 as [|n l2'].
      * (* the only block of the list *)
        cbn [dseg] in Hd2. unfold last_or in Hpf. cbn in Hpf.
        rewrite Hpf, Hd2. cbn [Z.eqb andb NULL].
        change (Z.eqb 0 0) with true. cbv iota. cbn [andb].
        rewrite bin_set_bin by lia. by rewrite decide_True.
      * (* the head, with a successor *)
        cbn [dseg] in Hd2. destruct Hd2 as (Hnf & Hn & Hpn & Hd2).
        unfold last_or in Hpf. cbn in Hpf. rewrite Hpf, Hnf.
        change (Z.eqb NULL NULL) with true.
        destruct (Z.eqb_spec n NULL) as [|_]; [done|]. cbn [andb negb].
        cbn [app dseg]. st_rw. rewrite bin_set_bin by lia.
        rewrite decide_True by done. rewrite decide_True by done.
        repeat split; try done.
        eapply dseg_ext; [|exact Hd2].
        intros x Hx. st_rw. apply NoDup_cons in Hnd2 as [Hnx _].
        rewrite decide_False; [done|]. intros ->. done.
      * (* the last block, with a predecessor *)
        rewrite last_or_snoc in Hpf. cbn [dseg] in Hd2.
        assert (Hp : p <> NULL).
        { eapply dseg_nonnull; [exact Hd1|]. set_solver. }
        rewrite Hpf, Hd2. destruct (Z.eqb_spec p NULL) as [|_]; [done|].
        change (Z.eqb NULL NULL) with true. cbn [andb negb].
        rewrite app_nil_r. st_rw.
        apply dseg_app in Hd1 as (mid & Hd1 & Hd1'). cbn [dseg] in Hd1'.
        destruct Hd1' as (-> & _ & Hpp & Hpn).
        apply dseg_app. exists p. split.
        -- eapply dseg_ext; [|exact Hd1].
           intros x Hx. st_rw. rewrite decide_False; [done|].
           intros ->. apply NoDup_app in Hnd1 as (_ & Hnd1 & _).
           apply (Hnd1 p Hx). left.
        -- cbn [dseg]. st_rw. by rewrite decide_True.
      * (* a middle block *)
        rewrite last_or_snoc in Hpf. cbn [dseg] in Hd2.
        destruct Hd2 as (Hnf & Hn & Hpn & Hd2).
        assert (Hp : p <> NULL).
        { eapply dseg_nonnull; [exact Hd1|]. set_solver. }
        rewrite Hpf, Hnf. destruct (Z.eqb_spec p NULL) as [|_]; [done|].
        destruct (Z.eqb_spec n NULL) as [|_]; [done|]. cbn [andb negb].
        st_rw.
        apply dseg_app in Hd1 as (mid & Hd1 & Hd1'). cbn [dseg] in Hd1'.
        destruct Hd1' as (-> & _ & Hpp & Hpn').
        assert (Hpn2 : p <> n).
        { intros ->. apply (Hdisj n); set_solver. }
        rewrite <- app_assoc. apply dseg_app. exists p. split.
        -- eapply dseg_ext; [|exact Hd1].
           intros x Hx. st_rw.
           rewrite decide_False, decide_False; [done| |].
           ++ intros ->. apply NoDup_app in Hnd1 as (_ & Hnd1 & _).
              apply (Hnd1 p Hx). left.
           ++ intros ->. apply (Hdisj n); set_solver.
        -- cbn [app dseg]. st_rw.
           rewrite decide_False by done. rewrite decide_True by done.
           rewrite decide_True by done. rewrite decide_False by done.
           repeat split; try done.
           eapply dseg_ext; [|exact Hd2].
           intros x Hx. st_rw. apply NoDup_cons in Hnd2 as [Hnx _].
           rewrite decide_False, decide_False; [done| |].
           ++ intros ->. apply (Hdisj p); set_solver.
           ++ intros ->. done.
    + rewrite fl_set_ne by done.
      assert (Hpin : prev_free (rd st b) <> NULL -> prev_free (rd st b) ∈ fl k).
      { rewrite Hpf. destruct (last_or_elem NULL l1) as [->|H]; [done|].
        intros _. by apply Hin1. }
      assert (Hnin : next_free (rd st b) <> NULL -> next_free (rd st b) ∈ fl k).
      { rewrite (dseg_head _ _ _ _ _ Hd2).
        destruct (hd_elem NULL l2) as [->|H]; [done|].
        intros _. by apply Hin2. }
      destruct (Z.eqb_spec (prev_free (rd st b)) NULL) as [Ep|Ep];
        destruct (Z.eqb_spec (next_free (rd st b)) NULL) as [En|En];
        cbn [andb negb]; st_rw; rewrite ?bin_set_bin by lia;
        rewrite ?decide_False by done;
        (eapply dseg_ext; [|exact (Hdll i Hi)]); intros x Hx; st_rw;
        pose proof (Hother i x Hik Hx) as Hxk;
        rewrite ?decide_False; try done; intros ->; auto.
  - intros i. unfold fl_set. case_decide; [|done].
    apply NoDup_app. repeat split; try done.
  - intros i x Hx. rewrite size_remove_block. apply Hbin.
    unfold fl_set in Hx. case_decide; [|done]. subst i. rewrite Hl.
    set_solver.
Qed.

(** A state change that touches neither the bins nor the links and sizes of
    listed blocks keeps the free lists. *)
Lemma lists_ok_ext st st' fl :
  bins st' = bins st ->
  (forall i x, x ∈ fl i ->
     prev_free (rd st' x) = prev_free (rd st x)
     /\ next_free (rd st' x) = next_free (rd st x)
     /\ size (rd st' x) = size (rd st x)) ->
  lists_ok st fl -> lists_ok st' fl.
Proof.
  intros Eb Hext [Hlen Hdll Hnd Hbin]. split.
  - by rewrite Eb.
  - intros i Hi. rewrite (bin_ext _ _ _ Eb).
    eapply dseg_ext; [|exact (Hdll i Hi)].
    intros x Hx. destruct (Hext i x Hx) as (? & ? & ?). done.
  - done.
  - intros i x Hx. destruct (Hext i x Hx) as (_ & _ & ->). by apply Hbin.
Qed.

Lemma lists_ok_store_phys st fl p f v :
  f = Fin_use \/ f = Fprev_phys \/ f = Fnext_phys ->
  lists_ok st fl -> lists_ok (store st p f v) fl.
Proof.
  intros Hf. apply lists_ok_ext; [done|].
  intros i x _. destruct Hf as [->|[->| ->]]; st_rw; done.
Qed.

Lemma lists_ok_store_notin st fl p f v :
  (forall i, p ∉ fl i) ->
  lists_ok st fl -> lists_ok (store st p f v) fl.
Proof.
  intros Hp. apply lists_ok_ext; [done|].
  intros i x Hx. assert (x <> p) by (intros ->; by apply (Hp i)).
  destruct f; st_rw; rewrite ?decide_False by done; done.
Qed.

Lemma lists_ok_set_heap_tail st fl v :
  lists_ok st fl -> lists_ok (set_heap_tail st v) fl.
Proof. apply lists_ok_ext; [done|]. intros; st_rw; done. Qed.

Lemma lists_ok_set_brk st fl v :
  lists_ok st fl -> lists_ok (set_brk st v) fl.
Proof. apply lists_ok_ext; [done|]. intros; st_rw; done. Qed.

(** ** Pushing a block on its free list *)

Lemma insert_into_bin_lists st fl b :
  lists_ok st fl -> b <> NULL -> (forall i, b ∉ fl i) ->
  lists_ok (insert_into_bin st b)
           (fl_set fl (size_to_bin (size (rd st b)))
                   (b :: fl (size_to_bin (size (rd st b))))).
Proof.
  intros [Hlen Hdll Hnd Hbin] Hb Hnotin.
  set (k := size_to_bin (size (rd st b))).
  assert (Hk : 0 <= k < NUM_BINS).
  { pose proof (size_to_bin_range (size (rd st b))). change NUM_BINS with 64.
    unfold k. lia. }
  assert (Hlenk : (Z.to_nat k < length (bins st))%nat) by (rewrite Hlen; lia).
  assert (Hother : forall j x, j <> k -> x ∈ fl j -> x ∉ fl k).
  { intros j x Hj Hx Hx'. apply Hbin in Hx, Hx'. lia. }
  pose proof (Hdll k Hk) as Hd.
  split.
  - by rewrite length_bins_insert_into_bin.
  - intros i Hi. unfold insert_into_bin. fold k.
    destruct (Z.eqb_spec (bin st k) NULL) as [E|E].
    + assert (Hnil : fl k = []).
      { destruct (fl k) as [|x l]; [done|]. cbn [dseg] in Hd.
        destruct Hd as (Hx & Hx' & _). congruence. }
      st_rw. rewrite bin_set_bin by (st_rw; lia).
      destruct (decide (i = k)) as [->|Hik].
      * rewrite fl_set_eq, Hnil. cbn [dseg]. st_rw.
        rewrite !decide_True by done. done.
      * rewrite fl_set_ne by done.
        eapply dseg_ext; [|exact (Hdll i Hi)].
        intros x Hx. st_rw. rewrite !decide_False; [done| |];
          intros ->; by apply (Hnotin i).
    + destruct (fl k) as [|h l] eqn:Hfk; [done|].
      cbn [dseg] in Hd. destruct Hd as (Hh & Hhnz & Hhp & Hd).
      rewrite Hh. st_rw. rewrite bin_set_bin by (st_rw; lia).
      assert (Hbh : b <> h).
      { intros ->. apply (Hnotin k). rewrite Hfk. left. }
      destruct (decide (i = k)) as [->|Hik].
      * rewrite fl_set_eq. cbn [dseg]. st_rw.
        rewrite !decide_True by done. rewrite !decide_False by done.
        rewrite !decide_True by done. rewrite !decide_False by done.
        repeat split; try done.
        eapply dseg_ext; [|exact Hd].
        intros x Hx. st_rw.
        pose proof (Hnd k) as Hndk. rewrite Hfk in Hndk.
        apply NoDup_cons in Hndk as [Hhl _].
        rewrite !decide_False; [done| | | ]; intros ->; try done.
        all: apply (Hnotin k); rewrite Hfk; by right.
      * rewrite fl_set_ne by done.
        eapply dseg_ext; [|exact (Hdll i Hi)].
        intros x Hx. st_rw.
        rewrite !decide_False; [done| | | ]; intros ->.
        1,3: by apply (Hnotin i).
        apply (Hother i h Hik Hx). left.
  - intros i. unfold fl_set. case_decide; [|done].
    apply NoDup_cons. split; [apply Hnotin | apply Hnd].
  - intros i x Hx. rewrite size_insert_into_bin.
    unfold fl_set in Hx. case_decide as Ei; [|by apply Hbin].
    subst i. apply elem_of_cons in Hx as [->|Hx]; [done|by apply Hbin].
Qed.

(** ** Growing the heap *)

Ltac st_step :=
  first
    [ rewrite size_remove_block | rewrite in_use_remove_block
    | rewrite prev_phys_remove_block | rewrite next_phys_remove_block
    | rewrite heap_tail_remove_block | rewrite brk_remove_block
    | rewrite size_insert_into_bin | rewrite in_use_insert_into_bin
    | rewrite prev_phys_insert_into_bin | rewrite next_phys_insert_into_bin
    | rewrite heap_tail_insert_into_bin | rewrite brk_insert_into_bin ].

Ltac ph_rw := repeat (first [progress st_rw | st_step]).

Ltac ulia :=
  unfold block_end, MINIMUM_BLOCK_SIZE, OVERFLOW_BIN, NUM_BINS,
    BLOCK_HEADER_SIZE, MINIMUM_ALLOCATION, BIGGEST_BINNED_SIZE, SIZE_MULTIPLE,
    INT_MAX, UINT_MAX, NULL, size_ok in *;
  simpl Z.add in *; Z.div_mod_to_equations; lia.

(** Settle the tests [decide (x = y)] left by reading a stored field. *)
Ltac dec_rw :=
  repeat match goal with
  | |- context [decide (?x = ?y)] =>
      first [ rewrite (decide_True (P := x = y)) by (first [done | ulia])
            | rewrite (decide_False (P := x = y)) by (first [done | ulia]) ]
  end.

Ltac dec_split :=
  dec_rw;
  repeat (match goal with
          | |- context [decide (?x = ?y)] =>
              destruct (decide (x = y)); [try subst|]
          end; dec_rw).

(** The facts [phys_ok] gives on one block. *)
Ltac block_facts H b Hb :=
  let F1 := fresh "Fblk" in
  let F2 := fresh "Fnext" in
  let F3 := fresh "Fprev" in
  let F4 := fresh "Fadj" in
  pose proof (po_block _ _ _ H b Hb) as F1;
  pose proof (po_next _ _ _ H b Hb) as F2;
  pose proof (po_prev _ _ _ H b Hb) as F3;
  pose proof (po_adj _ _ _ H b Hb) as F4.

Lemma grow_heap_phys base st bl sz :
  phys_ok base st bl -> size_ok sz ->
  phys_ok base (fst (grow_heap st sz)) (bl ∪ {[ brk st ]})
  /\ (snd (grow_heap st sz)) = brk st.
Proof.
  intros H Hsz. split; [|done].
  unfold grow_heap, sbrk, link_onto_end. cbn [fst snd].
  pose proof (po_base _ _ _ H) as Hbase.
  assert (Hfresh : forall b, b ∈ bl -> b < brk st).
  { intros b Hb. destruct (po_block _ _ _ H b Hb) as (_ & [? _] & _ & ?).
    unfold block_end, BLOCK_HEADER_SIZE in *. lia. }
  assert (Hnb : brk st <> NULL) by (unfold NULL; lia).
  st_rw. destruct (Z.eqb_spec (heap_tail st) NULL) as [Et|Et].
  - (* the heap was empty *)
    pose proof (po_tail_null _ _ _ H Et) as ->.
    pose proof (po_empty _ _ _ H eq_refl) as Eb.
    split; ph_rw; try done.
    + ulia.
    + set_solver.
    + intros _. split; [set_solver|]. by rewrite decide_True.
    + intros b Hb. assert (b = brk st) as -> by set_solver.
      unfold block_end. ph_rw. rewrite !decide_True by done. 
      ulia.
    + intros b Hb. assert (b = brk st) as -> by set_solver.
      unfold block_end. ph_rw. rewrite !decide_True by done. left. ulia.
    + intros b Hb. assert (b = brk st) as -> by set_solver.
      ph_rw. rewrite !decide_True by done. left. done.
    + intros x y Hx Hy. assert (x = brk st) as -> by set_solver.
      assert (y = brk st) as -> by set_solver. lia.
    + intros b Hb. assert (b = brk st) as -> by set_solver.
      ph_rw. rewrite !decide_True by done. done.
  - destruct (po_tail _ _ _ H Et) as [Htl Htn].
    pose proof (po_block _ _ _ H _ Htl) as Htb.
    pose proof (po_next _ _ _ H _ Htl) as [(_ & _ & Hte)|(? & _ & ?)];
      [|ulia].
    pose proof (Hfresh _ Htl).
    split; ph_rw; try done.
    + ulia.
    + set_solver.
    + intros _. split; [set_solver|]. by dec_rw.
    + intros b Hb. unfold block_end. ph_rw.
      apply elem_of_union in Hb as [Hb|Hb].
      * block_facts H b Hb. pose proof (Hfresh _ Hb). dec_rw; ulia.
      * apply elem_of_singleton in Hb as ->. dec_rw. ulia.
    + intros b Hb. unfold block_end. ph_rw.
      apply elem_of_union in Hb as [Hb|Hb].
      * pose proof (Hfresh _ Hb).
        destruct (po_next _ _ _ H b Hb) as [(? & ? & ?)|(Hn & ? & ?)].
        -- subst b. dec_rw. right. split; [set_solver|]. ulia.
        -- pose proof (Hfresh _ Hn).
           assert (b <> heap_tail st) by (intros ->; ulia).
           dec_rw. right. split; [set_solver|]. done.
      * apply elem_of_singleton in Hb as ->. dec_rw. left. ulia.
    + intros b Hb. ph_rw.
      apply elem_of_union in Hb as [Hb|Hb].
      * pose proof (Hfresh _ Hb). dec_rw.
        destruct (po_prev _ _ _ H b Hb) as [?|(Hp & Hpn)]; [by left|right].
        split; [set_solver|]. pose proof (Hfresh _ Hp).
        assert (prev_phys (rd st b) <> heap_tail st).
        { intros E. rewrite E in Hpn. pose proof (po_block _ _ _ H b Hb). ulia. }
        by dec_rw.
      * apply elem_of_singleton in Hb as ->. dec_rw. right.
        split; [set_solver|]. done.
    + intros x y Hx Hy Hxy. unfold block_end. ph_rw.
      apply elem_of_union in Hx as [Hx|Hx]; apply elem_of_union in Hy as [Hy|Hy];
        rewrite ?elem_of_singleton in *; subst.
      * pose proof (Hfresh _ Hx). dec_rw. by apply (po_order _ _ _ H).
      * pose proof (Hfresh _ Hx). dec_rw.
        destruct (po_block _ _ _ H x Hx) as (_ & _ & _ & ?). done.
      * pose proof (Hfresh _ Hy). lia.
      * lia.
    + intros b Hb. ph_rw.
      apply elem_of_union in Hb as [Hb|Hb].
      * pose proof (Hfresh _ Hb). dec_rw. intros Hu.
        destruct (po_adj _ _ _ H b Hb Hu) as (Hn & Hin & Hpr).
        destruct (po_next _ _ _ H b Hb) as [(? & ? & ?)|(Hn' & ? & ?)]; [done|].
        pose proof (Hfresh _ Hn').
        assert (b <> heap_tail st) by (intros ->; ulia).
        dec_rw. repeat split; try done.
        destruct (po_prev _ _ _ H b Hb) as [(? & ?)|(Hp & ?)]; [by left|].
        pose proof (Hfresh _ Hp). dec_rw. done.
      * apply elem_of_singleton in Hb as ->. dec_rw. done.
Qed.

(** ** The physical view of a state *)

Lemma phys_ok_ext base st st' bl :
  same_phys bl st st' -> phys_ok base st bl -> phys_ok base st' bl.
Proof.
  intros (Et & Eb & Hq) H.
  assert (Hs : forall q, q ∈ bl -> size (rd st' q) = size (rd st q)) by (intros; by apply Hq).
  assert (Hi : forall q, q ∈ bl -> in_use (rd st' q) = in_use (rd st q)) by (intros; by apply Hq).
  assert (Hp : forall q, q ∈ bl -> prev_phys (rd st' q) = prev_phys (rd st q)) by (intros; by apply Hq).
  assert (Hn : forall q, q ∈ bl -> next_phys (rd st' q) = next_phys (rd st q)) by (intros; by apply Hq).
  assert (He : forall q, q ∈ bl -> block_end st' q = block_end st q).
  { intros q Hq'. unfold block_end. by rewrite Hs. }
  clear Hq. split; rewrite ?Et, ?Eb.
  - apply H.
  - apply H.
  - apply H.
  - intros Htl. destruct (po_tail _ _ _ H Htl) as [? ?]. by rewrite Hn.
  - intros b Hb. rewrite Hs, Hi, He by done. by apply H.
  - intros b Hb. rewrite Hn, He by done.
    destruct (po_next _ _ _ H b Hb) as [?|(Hnb & ? & ?)]; [by left|right].
    by rewrite Hp.
  - intros b Hb. rewrite Hp by done.
    destruct (po_prev _ _ _ H b Hb) as [?|(Hpb & ?)]; [by left|right].
    by rewrite Hn.
  - intros x y Hx Hy. rewrite He by done. by apply H.
  - intros b Hb. rewrite Hi, Hn, Hp by done. intros Hu.
    destruct (po_adj _ _ _ H b Hb Hu) as (Hnn & Hnu & Hpu).
    destruct (po_next _ _ _ H b Hb) as [(? & _)|(Hnb & _)]; [done|].
    rewrite Hi by done. repeat split; try done.
    destruct (po_prev _ _ _ H b Hb) as [(? & _)|(Hpb & _)]; [by left|].
    rewrite Hi by done. done.
Qed.

(** ** Consequences of [phys_ok] *)

Lemma block_pos base st bl b : phys_ok base st bl -> b ∈ bl -> 0 < b.
Proof.
  intros H Hb. pose proof (po_base _ _ _ H).
  destruct (po_block _ _ _ H b Hb) as (? & _). lia.
Qed.

Lemma block_size base st bl b :
  phys_ok base st bl -> b ∈ bl ->
  16 <= size (rd st b) /\ size (rd st b) mod 8 = 0
  /\ b + 24 + size (rd st b) <= brk st /\ base <= b.
Proof.
  intros H Hb. destruct (po_block _ _ _ H b Hb) as (? & ? & _ & ?). ulia.
Qed.

Lemma next_block base st bl b :
  phys_ok base st bl -> b ∈ bl -> next_phys (rd st b) <> NULL ->
  next_phys (rd st b) ∈ bl
  /\ prev_phys (rd st (next_phys (rd st b))) = b
  /\ next_phys (rd st b) = b + 24 + size (rd st b).
Proof.
  intros H Hb Hn. destruct (po_next _ _ _ H b Hb) as [(? & _)|?]; [done|].
  unfold block_end, BLOCK_HEADER_SIZE in *. simpl Z.add in *. done.
Qed.

Lemma prev_block base st bl b :
  phys_ok base st bl -> b ∈ bl -> prev_phys (rd st b) <> NULL ->
  prev_phys (rd st b) ∈ bl
  /\ next_phys (rd st (prev_phys (rd st b))) = b
  /\ b = prev_phys (rd st b) + 24 + size (rd st (prev_phys (rd st b))).
Proof.
  intros H Hb Hp. destruct (po_prev _ _ _ H b Hb) as [(? & _)|(Hpb & Hn)]; [done|].
  pose proof (block_pos _ _ _ _ H Hb).
  destruct (next_block _ _ _ _ H Hpb) as (_ & _ & ?); [rewrite Hn; ulia|].
  split; [done|]. split; [done|]. congruence.
Qed.

Lemma last_block base st bl b :
  phys_ok base st bl -> b ∈ bl -> next_phys (rd st b) = NULL ->
  heap_tail st = b /\ brk st = b + 24 + size (rd st b).
Proof.
  intros H Hb Hn. pose proof (block_size _ _ _ _ H Hb).
  pose proof (block_pos _ _ _ _ H Hb).
  destruct (po_next _ _ _ H b Hb) as [(_ & ? & ?)|(_ & _ & ?)]; [|ulia].
  unfold block_end, BLOCK_HEADER_SIZE in *. simpl Z.add in *. done.
Qed.

Lemma first_block base st bl b :
  phys_ok base st bl -> b ∈ bl -> prev_phys (rd st b) = NULL -> b = base.
Proof.
  intros H Hb Hp. pose proof (block_pos _ _ _ _ H Hb).
  destruct (po_prev _ _ _ H b Hb) as [(_ & ?)|(Hpb & _)]; [done|].
  pose proof (block_pos _ _ _ _ H Hpb). ulia.
Qed.

(** ** Marking a block *)

Lemma mark_used_phys base st bl b :
  phys_ok base st bl -> b ∈ bl -> phys_ok base (store st b Fin_use 1) bl.
Proof.
  intros H Hb. split.
  - ph_rw. apply H.
  - ph_rw. apply H.
  - ph_rw. apply H.
  - ph_rw. intros Ht. ph_rw. by apply H.
  - intros c Hc. unfold block_end. ph_rw.
    destruct (po_block _ _ _ H c Hc) as (? & ? & ? & ?).
    dec_split; (split; [|split; [|split]]); try done; auto.
  - intros c Hc. unfold block_end. ph_rw. by apply (po_next _ _ _ H).
  - intros c Hc. ph_rw. by apply (po_prev _ _ _ H).
  - intros x y. unfold block_end. ph_rw. by apply (po_order _ _ _ H).
  - intros c Hc. ph_rw.
    destruct (decide (c = b)) as [->|Hcb]; dec_rw; [done|]. intros Hu.
    destruct (po_adj _ _ _ H c Hc Hu) as (? & ? & Hp).
    dec_split; repeat split; try done; destruct Hp; auto.
Qed.

(** A block in use whose neighbours are in use, and which is not the last
    block, may be marked free. *)
Lemma release_phys base st bl b :
  phys_ok base st bl -> b ∈ bl ->
  next_phys (rd st b) <> NULL ->
  in_use (rd st (next_phys (rd st b))) = 1 ->
  (prev_phys (rd st b) = NULL \/ in_use (rd st (prev_phys (rd st b))) = 1) ->
  phys_ok base (store st b Fin_use 0) bl.
Proof.
  intros H Hb Hn Hnu Hpu. pose proof (po_base _ _ _ H) as Hbase. split.
  - ph_rw. apply H.
  - ph_rw. apply H.
  - ph_rw. apply H.
  - ph_rw. intros Ht. ph_rw. by apply H.
  - intros c Hc. unfold block_end. ph_rw.
    destruct (po_block _ _ _ H c Hc) as (? & ? & ? & ?).
    dec_split; (split; [|split; [|split]]); try done; auto.
  - intros c Hc. unfold block_end. ph_rw. by apply (po_next _ _ _ H).
  - intros c Hc. ph_rw. by apply (po_prev _ _ _ H).
  - intros x y. unfold block_end. ph_rw. by apply (po_order _ _ _ H).
  - intros c Hc. ph_rw. destruct (decide (c = b)) as [->|Hcb].
    + intros _.
      pose proof (po_block _ _ _ H b Hb) as (? & ? & ? & ?).
      assert (next_phys (rd st b) <> b).
      { destruct (po_next _ _ _ H b Hb) as [(? & ?)|(? & ? & ?)]; ulia. }
      assert (prev_phys (rd st b) <> b).
      { destruct (po_prev _ _ _ H b Hb) as [(? & ?)|(? & ?)]; [ulia|congruence]. }
      dec_rw. done.
    + dec_rw. intros Hu.
      destruct (po_adj _ _ _ H c Hc Hu) as (Hcn & Hcnu & Hcpu).
      pose proof (block_pos _ _ _ _ H Hb).
      pose proof (block_pos _ _ _ _ H Hc).
      assert (next_phys (rd st c) <> b).
      { intros E. destruct (next_block _ _ _ _ H Hc Hcn) as (_ & Ep & _).
        rewrite E in *. destruct Hpu; [ulia|congruence]. }
      assert (prev_phys (rd st c) <> b).
      { intros E. destruct (prev_block _ _ _ _ H Hc) as (_ & En & _);
          [rewrite E; ulia|].
        rewrite E in En. rewrite En in Hnu. congruence. }
      dec_rw. done.
Qed.

(** ** Absorbing the next block *)

Ltac in_diff :=
  apply elem_of_difference; split;
  [ first [done | set_solver]
  | apply not_elem_of_singleton; first [done | congruence | ulia] ].

Lemma absorb_phys base st bl x :
  phys_ok base st bl -> x ∈ bl -> in_use (rd st x) = 1 ->
  next_phys (rd st x) <> NULL ->
  size (rd st x) + BLOCK_HEADER_SIZE + size (rd st (next_phys (rd st x))) < 2 ^ 32 ->
  phys_ok base (absorb st x) (bl ∖ {[ next_phys (rd st x) ]}).
Proof.
  intros H Hx Hux Hy Hfit.
  set (y := next_phys (rd st x)) in *.
  destruct (next_block _ _ _ _ H Hx Hy) as (Hyb & Hpy & Ey). fold y in Hyb, Hpy, Ey.
  pose proof (po_base _ _ _ H) as Hbase.
  pose proof (block_size _ _ _ _ H Hx) as Sx.
  pose proof (block_size _ _ _ _ H Hyb) as Sy.
  assert (Hxy : x <> y) by lia.
  unfold absorb, patch_successor. fold y. ph_rw. rewrite decide_True by done.
  set (z := next_phys (rd st y)).
  destruct (Z.eqb_spec z NULL) as [Ez|Ez].
  - (* [y] was the last block *)
    destruct (last_block _ _ _ _ H Hyb Ez) as [Ety Eby].
    assert (Hother : forall c, c ∈ bl -> c <> y -> next_phys (rd st c) <> NULL).
    { intros c Hc Hcy E. destruct (last_block _ _ _ _ H Hc E). congruence. }
    split.
    + ph_rw. done.
    + intros E. set_solver.
    + ph_rw. intros E. pose proof (block_pos _ _ _ _ H Hx). ulia.
    + ph_rw. intros _. split; [set_solver|]. ph_rw. by dec_rw.
    + intros c Hc. apply elem_of_difference in Hc as [Hc Hcy].
      rewrite not_elem_of_singleton in Hcy.
      unfold block_end. ph_rw.
      destruct (po_block _ _ _ H c Hc) as (? & ? & ? & ?).
      dec_split.
      * split; [done|]. split; [ulia|]. split; [done|]. ulia.
      * done.
    + intros c Hc. apply elem_of_difference in Hc as [Hc Hcy].
      rewrite not_elem_of_singleton in Hcy.
      unfold block_end. ph_rw. dec_split.
      * left. repeat split; ulia.
      * right. pose proof (Hother c Hc Hcy) as Hn.
        destruct (next_block _ _ _ _ H Hc Hn) as (Hnb & Hnp & En).
        assert (next_phys (rd st c) <> y) by congruence.
        dec_rw. split; [set_solver|]. split; [done|]. ulia.
    + intros c Hc. apply elem_of_difference in Hc as [Hc Hcy].
      rewrite not_elem_of_singleton in Hcy. ph_rw.
      destruct (po_prev _ _ _ H c Hc) as [?|(Hpb & Hpn)]; [by left|right].
      assert (prev_phys (rd st c) <> y).
      { intros E. rewrite E in Hpn. pose proof (block_pos _ _ _ _ H Hc).
        unfold z in *. ulia. }
      assert (prev_phys (rd st c) <> x).
      { intros E. rewrite E in Hpn. fold y in Hpn. congruence. }
      split; [set_solver|]. by dec_rw.
    + intros a c Ha Hc Hac.
      apply elem_of_difference in Ha as [Ha Hay].
      apply elem_of_difference in Hc as [Hc Hcy].
      rewrite not_elem_of_singleton in Hay, Hcy.
      unfold block_end. ph_rw.
      destruct (decide (a = x)) as [->|Hax]; dec_rw.
      * pose proof (po_order _ _ _ H x c Hx Hc).
        pose proof (po_order _ _ _ H y c Hyb Hc). ulia.
      * by apply (po_order _ _ _ H).
    + intros c Hc. apply elem_of_difference in Hc as [Hc Hcy].
      rewrite not_elem_of_singleton in Hcy. ph_rw.
      destruct (decide (c = x)) as [->|Hcx]; [congruence|].
      dec_rw. by apply (po_adj _ _ _ H).
  - (* [y] had a successor [z] *)
    destruct (next_block _ _ _ _ H Hyb Ez) as (Hzb & Hpz & Ezy).
    fold z in Hzb, Hpz, Ezy.
    pose proof (block_size _ _ _ _ H Hzb) as Sz.
    split.
    + ph_rw. done.
    + intros E. exfalso. apply (not_elem_of_empty (C:=gset Z) x).
      rewrite <- E. set_solver.
    + ph_rw. intros E. rewrite (po_tail_null _ _ _ H E) in Hx. set_solver.
    + ph_rw. intros Et. destruct (po_tail _ _ _ H Et) as [Htb Htn].
      assert (heap_tail st <> y) by (intros E; rewrite E in Htn; done).
      assert (heap_tail st <> x) by (intros E; rewrite E in Htn; done).
      split; [in_diff|]. ph_rw. by dec_rw.
    + intros c Hc. apply elem_of_difference in Hc as [Hc Hcy].
      rewrite not_elem_of_singleton in Hcy.
      unfold block_end. ph_rw.
      destruct (po_block _ _ _ H c Hc) as (? & ? & ? & ?).
      destruct (decide (c = x)) as [->|Hcx]; dec_rw; [|done].
      split; [done|]. split; [ulia|]. split; [done|]. ulia.
    + intros c Hc. apply elem_of_difference in Hc as [Hc Hcy].
      rewrite not_elem_of_singleton in Hcy.
      unfold block_end. ph_rw.
      destruct (decide (c = x)) as [->|Hcx]; dec_rw.
      * right. split; [in_diff|]. split; [done|]. ulia.
      * destruct (po_next _ _ _ H c Hc) as [?|(Hnb & Hnp & En)]; [by left|right].
        assert (next_phys (rd st c) <> y) by congruence.
        assert (next_phys (rd st c) <> z) by congruence.
        dec_rw. split; [in_diff|]. done.
    + intros c Hc. apply elem_of_difference in Hc as [Hc Hcy].
      rewrite not_elem_of_singleton in Hcy. ph_rw.
      destruct (decide (c = z)) as [->|Hcz]; dec_rw.
      * right. split; [in_diff|]. done.
      * destruct (po_prev _ _ _ H c Hc) as [?|(Hpb & Hpn)]; [by left|right].
        assert (prev_phys (rd st c) <> y).
        { intros E. rewrite E in Hpn. fold z in Hpn. congruence. }
        assert (prev_phys (rd st c) <> x).
        { intros E. rewrite E in Hpn. fold y in Hpn. congruence. }
        split; [in_diff|]. by dec_rw.
    + intros a c Ha Hc Hac.
      apply elem_of_difference in Ha as [Ha Hay].
      apply elem_of_difference in Hc as [Hc Hcy].
      rewrite not_elem_of_singleton in Hay, Hcy.
      unfold block_end. ph_rw.
      destruct (decide (a = x)) as [->|Hax]; dec_rw.
      * pose proof (po_order _ _ _ H x c Hx Hc).
        pose proof (po_order _ _ _ H y c Hyb Hc). ulia.
      * by apply (po_order _ _ _ H).
    + intros c Hc. apply elem_of_difference in Hc as [Hc Hcy].
      rewrite not_elem_of_singleton in Hcy. ph_rw.
      destruct (decide (c = x)) as [->|Hcx]; [congruence|].
      dec_rw. intros Hu. destruct (po_adj _ _ _ H c Hc Hu) as (Hn & Hnu & Hpu).
      split; [done|]. split; [done|].
      destruct (decide (c = z)) as [->|Hcz]; dec_rw; [by right|done].
Qed.

(** ** Dropping the last block *)

Lemma pop_phys base st bl m :
  phys_ok base st bl -> m ∈ bl -> next_phys (rd st m) = NULL ->
  (prev_phys (rd st m) = NULL \/ in_use (rd st (prev_phys (rd st m))) = 1) ->
  phys_ok base (set_brk (unlink_block st) m) (bl ∖ {[ m ]}).
Proof.
  intros H Hm Hn Hpu.
  destruct (last_block _ _ _ _ H Hm Hn) as [Et Eb].
  pose proof (block_pos _ _ _ _ H Hm) as Hmpos.
  pose proof (block_size _ _ _ _ H Hm) as Sm.
  pose proof (po_base _ _ _ H) as Hbase.
  unfold unlink_block. rewrite Et.
  destruct (Z.eqb_spec m NULL) as [|_]; [ulia|].
  destruct (Z.eqb_spec (prev_phys (rd st m)) NULL) as [Ep|Ep].
  - (* the only block *)
    pose proof (first_block _ _ _ _ H Hm Ep) as ->.
    assert (Hempty : bl ∖ {[base]} = ∅).
    { apply set_eq. intros c. split; [|set_solver].
      intros Hc. apply elem_of_difference in Hc as [Hc Hcb].
      rewrite not_elem_of_singleton in Hcb.
      pose proof (block_size _ _ _ _ H Hc).
      pose proof (po_order _ _ _ H base c Hm Hc). ulia. }
    rewrite Hempty. split; ph_rw; try done; try set_solver; try lia.
  - destruct (prev_block _ _ _ _ H Hm Ep) as (Hpb & Hpn & Epm).
    set (p := prev_phys (rd st m)) in *.
    pose proof (block_size _ _ _ _ H Hpb) as Sp.
    assert (Hother : forall c, c ∈ bl -> c <> m -> next_phys (rd st c) <> NULL).
    { intros c Hc Hcm E. destruct (last_block _ _ _ _ H Hc E). congruence. }
    split.
    + ph_rw. lia.
    + intros E. exfalso. apply (not_elem_of_empty (C:=gset Z) p).
      rewrite <- E. in_diff.
    + ph_rw. done.
    + ph_rw. intros _. split; [in_diff|]. by dec_rw.
    + intros c Hc. apply elem_of_difference in Hc as [Hc Hcm].
      rewrite not_elem_of_singleton in Hcm.
      unfold block_end. ph_rw.
      destruct (po_block _ _ _ H c Hc) as (? & ? & ? & ?).
      pose proof (po_order _ _ _ H c m Hc Hm).
      pose proof (po_order _ _ _ H m c Hm Hc).
      pose proof (block_size _ _ _ _ H Hc).
      repeat split; try done; ulia.
    + intros c Hc. apply elem_of_difference in Hc as [Hc Hcm].
      rewrite not_elem_of_singleton in Hcm.
      unfold block_end. ph_rw.
      destruct (decide (c = p)) as [->|Hcp]; dec_rw.
      * left. repeat split; try done; ulia.
      * right. pose proof (Hother c Hc Hcm) as Hcn.
        destruct (next_block _ _ _ _ H Hc Hcn) as (Hnb & Hnp & En).
        assert (next_phys (rd st c) <> m).
        { intros E. rewrite E in Hnp. fold p in Hnp. congruence. }
        split; [in_diff|]. split; [done|]. ulia.
    + intros c Hc. apply elem_of_difference in Hc as [Hc Hcm].
      rewrite not_elem_of_singleton in Hcm. ph_rw.
      destruct (po_prev _ _ _ H c Hc) as [?|(Hcpb & Hcpn)]; [by left|right].
      assert (prev_phys (rd st c) <> m).
      { intros E. rewrite E in Hcpn. pose proof (block_pos _ _ _ _ H Hc). ulia. }
      assert (prev_phys (rd st c) <> p).
      { intros E. rewrite E in Hcpn. congruence. }
      split; [in_diff|]. by dec_rw.
    + intros a c Ha Hc Hac.
      apply elem_of_difference in Ha as [Ha Ham].
      apply elem_of_difference in Hc as [Hc Hcm].
      unfold block_end. ph_rw. by apply (po_order _ _ _ H).
    + intros c Hc. apply elem_of_difference in Hc as [Hc Hcm].
      rewrite not_elem_of_singleton in Hcm. ph_rw.
      intros Hu. destruct (po_adj _ _ _ H c Hc Hu) as (Hcn & Hcnu & Hcpu).
      assert (c <> p).
      { intros ->. destruct Hpu; [done|congruence]. }
      dec_rw. done.
Qed.

(** ** Splitting a free block *)

Ltac in_union_l := apply elem_of_union; left; first [done | set_solver].
Ltac in_union_r := apply elem_of_union; right; by apply elem_of_singleton.

Lemma split_block_phys base st bl b a :
  phys_ok base st bl -> b ∈ bl -> in_use (rd st b) = 0 ->
  size_ok a -> a + MINIMUM_BLOCK_SIZE <= size (rd st b) ->
  size (rd st b) <= INT_MAX ->
  phys_ok base (fst (split_block st b a)) (bl ∪ {[ b + 24 + a ]})
  /\ (snd (split_block st b a)) = b
  /\ b + 24 + a ∉ bl.
Proof.
  intros H Hb Hu Ha Hroom Hmax.
  split; [|split; [done|]].
  2:{ intros Hr. pose proof (po_order _ _ _ H b _ Hb Hr). ulia. }
  destruct (po_adj _ _ _ H b Hb Hu) as (Hn & Hnu & Hpu).
  destruct (next_block _ _ _ _ H Hb Hn) as (Hnb & Hnp & En).
  pose proof (po_base _ _ _ H) as Hbase.
  pose proof (block_size _ _ _ _ H Hb) as Sb.
  pose proof (block_size _ _ _ _ H Hnb) as Sn.
  pose proof (block_pos _ _ _ _ H Hb) as Hbpos.
  unfold split_block, ptr_add_bytes. cbn [fst].
  rewrite (to_int_id (size (rd st b))) by ulia.
  rewrite (to_int_id (a + BLOCK_HEADER_SIZE)) by ulia.
  rewrite (to_int_id (size (rd st b) - a)) by ulia.
  rewrite (to_uint_id a) by ulia.
  rewrite (to_uint_id (size (rd st b) - a - BLOCK_HEADER_SIZE)) by ulia.
  ph_rw.
  replace (b + (a + BLOCK_HEADER_SIZE)) with (b + 24 + a) by ulia.
  set (r := b + 24 + a). set (n := next_phys (rd st b)) in *.
  assert (Hrb : r <> b) by ulia.
  assert (Hrn : r <> n) by ulia.
  assert (Hnb' : n <> b) by ulia.
  assert (Hr : r ∉ bl).
  { intros Hr. pose proof (po_order _ _ _ H b r Hb Hr). ulia. }
  assert (Hrc : forall c, c ∈ bl -> c <> r) by (intros c Hc ->; done).
  destruct (Z.eqb_spec n NULL) as [|_]; [done|]. cbn [negb].
  split.
  - ph_rw. done.
  - intros E. exfalso. apply (not_elem_of_empty (C:=gset Z) b).
    rewrite <- E. in_union_l.
  - ph_rw. intros E. rewrite (po_tail_null _ _ _ H E) in Hb. set_solver.
  - ph_rw. intros Et. destruct (po_tail _ _ _ H Et) as [Htb Htn].
    pose proof (Hrc _ Htb).
    assert (heap_tail st <> b) by (intros E; rewrite E in Htn; done).
    split; [in_union_l|]. ph_rw. by dec_rw.
  - intros c Hc. unfold block_end. ph_rw.
    apply elem_of_union in Hc as [Hc|Hc].
    + pose proof (Hrc _ Hc).
      destruct (po_block _ _ _ H c Hc) as (? & ? & ? & ?).
      destruct (decide (c = b)) as [->|Hcb]; dec_rw.
      * split; [done|]. split; [done|]. split; [by right|]. ulia.
      * done.
    + apply elem_of_singleton in Hc as ->. dec_rw.
      split; [ulia|]. split; [ulia|]. split; [by left|]. ulia.
  - intros c Hc. unfold block_end. ph_rw.
    apply elem_of_union in Hc as [Hc|Hc].
    + pose proof (Hrc _ Hc).
      destruct (decide (c = b)) as [->|Hcb]; dec_rw.
      * right. split; [in_union_r|]. split; [done|]. ulia.
      * destruct (po_next _ _ _ H c Hc) as [?|(Hcnb & Hcnp & Ecn)]; [by left|right].
        pose proof (Hrc _ Hcnb).
        assert (next_phys (rd st c) <> n).
        { intros E. rewrite E in Hcnp. apply Hcb. by rewrite <- Hcnp, Hnp. }
        dec_rw. split; [in_union_l|]. done.
    + apply elem_of_singleton in Hc as ->. dec_rw.
      right. split; [in_union_l|]. split; [done|]. ulia.
  - intros c Hc. ph_rw.
    apply elem_of_union in Hc as [Hc|Hc].
    + pose proof (Hrc _ Hc).
      destruct (decide (c = n)) as [->|Hcn]; dec_rw.
      * right. split; [in_union_r|]. done.
      * destruct (po_prev _ _ _ H c Hc) as [?|(Hcpb & Hcpn)]; [by left|right].
        pose proof (Hrc _ Hcpb).
        assert (prev_phys (rd st c) <> b).
        { intros E. rewrite E in Hcpn. apply Hcn. by rewrite <- Hcpn. }
        dec_rw. split; [in_union_l|]. done.
    + apply elem_of_singleton in Hc as ->. dec_rw.
      right. split; [in_union_l|]. done.
  - intros x y Hx Hy Hxy. unfold block_end. ph_rw.
    apply elem_of_union in Hx as [Hx|Hx]; apply elem_of_union in Hy as [Hy|Hy];
      rewrite ?elem_of_singleton in *; try subst x; try subst y.
    + pose proof (Hrc _ Hx). pose proof (po_order _ _ _ H x y Hx Hy Hxy).
      pose proof (block_size _ _ _ _ H Hx).
      destruct (decide (x = b)) as [->|Hxb]; dec_rw; ulia.
    + pose proof (Hrc _ Hx). pose proof (block_size _ _ _ _ H Hx).
      destruct (decide (x = b)) as [->|Hxb]; dec_rw; [ulia|].
      destruct (decide (x < b)).
      * pose proof (po_order _ _ _ H x b Hx Hb). ulia.
      * pose proof (po_order _ _ _ H b x Hb Hx). ulia.
    + pose proof (Hrc _ Hy). dec_rw.
      destruct (decide (y = b)) as [->|Hyb]; [ulia|].
      pose proof (po_order _ _ _ H b y Hb Hy). ulia.
    + lia.
  - intros c Hc. ph_rw.
    apply elem_of_union in Hc as [Hc|Hc].
    + pose proof (Hrc _ Hc).
      destruct (decide (c = b)) as [->|Hcb]; dec_rw; [done|].
      intros Hcu. destruct (po_adj _ _ _ H c Hc Hcu) as (Hcn & Hcnu & Hcpu).
      destruct (next_block _ _ _ _ H Hc Hcn) as (Hcnb & _).
      pose proof (Hrc _ Hcnb).
      assert (c <> n) by congruence.
      dec_rw. split; [done|]. split.
      * dec_split; [reflexivity|assumption].
      * destruct Hcpu as [?|Hcpu]; [by left|right].
        assert (prev_phys (rd st c) <> r).
        { intros E. destruct (prev_block _ _ _ _ H Hc) as (Hcpb & _); [ulia|].
          by apply (Hrc _ Hcpb). }
        destruct (decide (prev_phys (rd st c) = b)); dec_rw; done.
    + apply elem_of_singleton in Hc as ->. dec_rw. intros _.
      split; [done|]. split; [done|]. by right.
Qed.

(** ** Whole-state lemmas *)

Lemma remove_block_same_phys bl st b : same_phys bl st (remove_block st b).
Proof. split; [|split]; intros; ph_rw; done. Qed.

Lemma insert_into_bin_same_phys bl st b : same_phys bl st (insert_into_bin st b).
Proof. split; [|split]; intros; ph_rw; done. Qed.

(** No free list holds a block in use, or an address that is not a block. *)
Lemma used_not_listed st bl fl b i :
  members_ok st bl fl -> in_use (rd st b) = 1 -> b ∉ fl i.
Proof. intros [Hin _] Hu Hb. destruct (Hin i b Hb). congruence. Qed.

Lemma outside_not_listed st bl fl b i :
  members_ok st bl fl -> b ∉ bl -> b ∉ fl i.
Proof. intros [Hin _] Hu Hb. destruct (Hin i b Hb). done. Qed.

(** Taking a listed block: it is marked in use and unlinked. *)
Lemma take_wf base st bl fl k b :
  wf base st bl fl -> b ∈ fl k ->
  wf base (remove_block (store st b Fin_use 1) b) bl
     (fl_set fl k (list_del b (fl k))).
Proof.
  intros [Hp Hl Hm] Hb.
  destruct (mo_in _ _ _ Hm k b Hb) as [Hbb Hbu].
  split.
  - eapply phys_ok_ext; [apply remove_block_same_phys|].
    by apply mark_used_phys.
  - apply remove_block_lists; [|done]. apply lists_ok_store_phys; auto.
  - split.
    + intros i c Hc. ph_rw.
      assert (c <> b /\ c ∈ fl i) as [Hcb Hci].
      { unfold fl_set in Hc. case_decide; [subst i|].
        - by apply elem_of_list_del in Hc.
        - split; [|done]. intros ->.
          destruct (lo_bin _ _ Hl _ _ Hb) as [_ E1].
          destruct (lo_bin _ _ Hl _ _ Hc) as [_ E2]. congruence. }
      dec_rw. by apply (mo_in _ _ _ Hm i).
    + intros c Hc. ph_rw. destruct (decide (c = b)) as [->|Hcb]; dec_rw; [done|].
      intros Hu. pose proof (mo_all _ _ _ Hm c Hc Hu) as Hcl.
      unfold fl_set. case_decide as E; [|done].
      rewrite <- E. apply elem_of_list_del. done.
Qed.

(** Growing the heap by a block of payload size [sz]. *)
Lemma grow_heap_wf base st bl fl sz :
  wf base st bl fl -> size_ok sz ->
  wf base (fst (grow_heap st sz)) (bl ∪ {[ brk st ]}) fl
  /\ (snd (grow_heap st sz)) = brk st /\ (brk st ∉ bl)
  /\ brk (fst (grow_heap st sz)) = brk st + sz + 24
  /\ (forall c, c ∈ bl ->
        in_use (rd (fst (grow_heap st sz)) c) = in_use (rd st c)
        /\ size (rd (fst (grow_heap st sz)) c) = size (rd st c))
  /\ in_use (rd (fst (grow_heap st sz)) (brk st)) = 1
  /\ size (rd (fst (grow_heap st sz)) (brk st)) = sz.
Proof.
  intros [Hp Hl Hm] Hsz.
  destruct (grow_heap_phys _ _ _ _ Hp Hsz) as [Hp' Hr].
  assert (Hfresh : forall c, c ∈ bl -> c <> brk st).
  { intros c Hc. pose proof (block_size _ _ _ _ Hp Hc). lia. }
  assert (Hnew : brk st ∉ bl) by (intros E; by apply (Hfresh _ E)).
  assert (Hnl : forall i, brk st ∉ fl i).
  { intros i. by eapply outside_not_listed. }
  assert (Hfields : forall c,
    in_use (rd (fst (grow_heap st sz)) c)
      = (if decide (c = brk st) then 1 else in_use (rd st c))
    /\ size (rd (fst (grow_heap st sz)) c)
      = (if decide (c = brk st) then sz else size (rd st c))).
  { intros c. unfold grow_heap, sbrk, link_onto_end. cbn [fst].
    destruct (Z.eqb_spec (heap_tail (store (store (set_brk st (brk st + (sz + BLOCK_HEADER_SIZE))) (brk st) Fsize sz) (brk st) Fin_use 1)) NULL);
      ph_rw; done. }
  split; [split|].
  - done.
  - unfold grow_heap, sbrk, link_onto_end. cbn [fst]. ph_rw.
    destruct (Z.eqb_spec (heap_tail st) NULL) as [Et|Et].
    + apply lists_ok_set_heap_tail. do 4 (apply lists_ok_store_notin; [done|]).
      by apply lists_ok_set_brk.
    + apply lists_ok_set_heap_tail. do 2 (apply lists_ok_store_notin; [done|]).
      apply lists_ok_store_phys; [auto|].
      do 2 (apply lists_ok_store_notin; [done|]).
      by apply lists_ok_set_brk.
  - split.
    + intros i c Hc. destruct (mo_in _ _ _ Hm i c Hc) as [Hcb Hcu].
      split; [in_union_l|]. destruct (Hfields c) as [-> _].
      rewrite decide_False by auto. done.
    + intros c Hc. destruct (Hfields c) as [-> ->].
      apply elem_of_union in Hc as [Hc|Hc].
      * rewrite !decide_False by auto. by apply (mo_all _ _ _ Hm).
      * apply elem_of_singleton in Hc as ->. by rewrite decide_True.
  - split; [done|]. split; [done|]. split.
    { unfold grow_heap, sbrk, link_onto_end. cbn [fst].
      destruct (Z.eqb_spec (heap_tail (store (store (set_brk st (brk st + (sz + BLOCK_HEADER_SIZE))) (brk st) Fsize sz) (brk st) Fin_use 1)) NULL);
        ph_rw; ulia. }
    split.
    { intros c Hc. destruct (Hfields c) as [-> ->].
      rewrite !decide_False by auto. done. }
    destruct (Hfields (brk st)) as [-> ->]. by rewrite !decide_True.
Qed.

Lemma split_block_eq st b a :
  size_ok a -> a + MINIMUM_BLOCK_SIZE <= size (rd st b) ->
  size (rd st b) <= INT_MAX -> next_phys (rd st b) <> NULL ->
  split_block st b a = (insert_into_bin (split_state st b a) (b + 24 + a), b).
Proof.
  intros Ha Hroom Hmax Hn.
  unfold split_block, split_state, ptr_add_bytes.
  rewrite (to_int_id (size (rd st b))) by ulia.
  rewrite (to_int_id (a + BLOCK_HEADER_SIZE)) by ulia.
  rewrite (to_int_id (size (rd st b) - a)) by ulia.
  rewrite (to_uint_id a) by ulia.
  rewrite (to_uint_id (size (rd st b) - a - BLOCK_HEADER_SIZE)) by ulia.
  ph_rw.
  replace (b + (a + BLOCK_HEADER_SIZE)) with (b + 24 + a) by ulia.
  destruct (Z.eqb_spec (next_phys (rd st b)) NULL) as [|_]; [done|].
  cbn [negb]. done.
Qed.

Lemma split_block_wf base st bl fl k b a :
  wf base st bl fl -> b ∈ fl k ->
  size_ok a -> a + MINIMUM_BLOCK_SIZE <= size (rd st b) ->
  size (rd st b) <= INT_MAX ->
  let r := b + 24 + a in
  let st' := fst (split_block st b a) in
  let fl1 := fl_set fl k (list_del b (fl k)) in
  let k' := size_to_bin (size (rd st b) - a - 24) in
  wf base st' (bl ∪ {[ r ]}) (fl_set fl1 k' (r :: fl1 k'))
  /\ snd (split_block st b a) = b
  /\ (r ∉ bl)
  /\ brk st' = brk st
  /\ (forall c,
        in_use (rd st' c)
        = (if decide (c = b) then 1 else if decide (c = r) then 0
           else in_use (rd st c))
        /\ size (rd st' c)
        = (if decide (c = b) then a
           else if decide (c = r) then size (rd st b) - a - 24
           else size (rd st c))).
Proof.
  intros Hwf Hb Ha Hroom Hmax r st' fl1 k'.
  destruct Hwf as [Hp Hl Hm].
  destruct (mo_in _ _ _ Hm k b Hb) as [Hbb Hbu].
  destruct (split_block_phys _ _ _ _ _ Hp Hbb Hbu Ha Hroom Hmax) as (Hp' & Hs & Hr).
  fold r in Hp', Hr. fold st' in Hp'.
  destruct (po_adj _ _ _ Hp b Hbb Hbu) as (Hn & Hnu & Hpu).
  destruct (next_block _ _ _ _ Hp Hbb Hn) as (Hnb & Hnp & En).
  pose proof (block_size _ _ _ _ Hp Hbb) as Sb.
  pose proof (block_pos _ _ _ _ Hp Hbb) as Hbpos.
  assert (Est : st' = insert_into_bin (split_state st b a) r).
  { unfold st'. by rewrite split_block_eq. }
  assert (Hrb : r <> b) by (unfold r; ulia).
  assert (Hnr : next_phys (rd st b) <> r) by (unfold r; ulia).
  assert (Hbn : b <> next_phys (rd st b)) by ulia.
  assert (Hfields : forall c,
        in_use (rd st' c)
        = (if decide (c = b) then 1 else if decide (c = r) then 0
           else in_use (rd st c))
        /\ size (rd st' c)
        = (if decide (c = b) then a
           else if decide (c = r) then size (rd st b) - a - 24
           else size (rd st c))).
  { intros c. rewrite Est. unfold split_state. fold r. ph_rw.
    split; dec_split; try done; try congruence. }
  assert (Hl1 : lists_ok (remove_block st b) fl1) by (by apply remove_block_lists).
  assert (Hb1 : forall i, b ∉ fl1 i).
  { intros i Hi. unfold fl1, fl_set in Hi. case_decide as E.
    - apply elem_of_list_del in Hi. by destruct Hi.
    - destruct (lo_bin _ _ Hl _ _ Hb) as [_ E1].
      destruct (lo_bin _ _ Hl _ _ Hi) as [_ E2]. congruence. }
  assert (Hsub : forall i c, c ∈ fl1 i -> c ∈ fl i /\ c <> b).
  { intros i c Hc. split; [|intros ->; by apply (Hb1 i)].
    unfold fl1, fl_set in Hc. case_decide as E; [subst i|done].
    apply elem_of_list_del in Hc. by destruct Hc. }
  assert (Hr1 : forall i, r ∉ fl1 i).
  { intros i Hi. apply Hsub in Hi as [Hi _].
    destruct (mo_in _ _ _ Hm i r Hi). done. }
  assert (Hl2 : lists_ok (split_state st b a) fl1).
  { unfold split_state. fold r.
    apply lists_ok_store_phys; [auto|].
    apply lists_ok_store_phys; [auto|].
    apply lists_ok_store_phys; [auto|].
    apply lists_ok_store_phys; [auto|].
    apply lists_ok_store_notin; [done|].
    apply lists_ok_store_phys; [auto|].
    apply lists_ok_store_notin; [done|].
    apply lists_ok_store_phys; [auto|]. done. }
  assert (Esz : size (rd (split_state st b a) r) = size (rd st b) - a - 24).
  { unfold split_state. fold r. ph_rw. by dec_rw. }
  split; [|split; [done|split; [done|split; [|done]]]].
  2:{ rewrite Est. unfold split_state. ph_rw. done. }
  split.
  - exact Hp'.
  - rewrite Est. unfold k'. rewrite <- Esz.
    apply insert_into_bin_lists; [done| unfold r; ulia | done].
  - split.
    + intros i c Hc. destruct (Hfields c) as [-> _].
      unfold fl_set in Hc at 1. case_decide as E.
      * apply elem_of_cons in Hc as [->|Hc].
        -- split; [in_union_r|]. by dec_rw.
        -- apply Hsub in Hc as [Hc Hcb].
           destruct (mo_in _ _ _ Hm _ c Hc) as [Hcbl Hcu].
           assert (c <> r) by (intros ->; done).
           split; [in_union_l|]. by dec_rw.
      * apply Hsub in Hc as [Hc Hcb].
        destruct (mo_in _ _ _ Hm _ c Hc) as [Hcbl Hcu].
        assert (c <> r) by (intros ->; done).
        split; [in_union_l|]. by dec_rw.
    + intros c Hc. destruct (Hfields c) as [-> ->].
      apply elem_of_union in Hc as [Hc|Hc].
      * assert (c <> r) by (intros ->; done).
        destruct (decide (c = b)) as [->|Hcb]; dec_rw; [done|].
        intros Hu. pose proof (mo_all _ _ _ Hm c Hc Hu) as Hcl.
        assert (c ∈ fl1 (size_to_bin (size (rd st c)))).
        { unfold fl1, fl_set. case_decide as E; [|done].
          rewrite <- E. by apply elem_of_list_del. }
        unfold fl_set at 1. case_decide as E; [|done].
        rewrite <- E. by right.
      * apply elem_of_singleton in Hc as ->. dec_rw. intros _.
        fold k'. rewrite fl_set_eq. left.
Qed.

(** ** The branches of [coalesce] *)

Lemma coalesce_eq st block :
  coalesce st block =
  let pp := prev_phys (rd st block) in
  let np := next_phys (rd st block) in
  if negb (pp =? NULL) && negb (np =? NULL) then
    if (in_use (rd st pp) =? 0) && (in_use (rd st np) =? 0) then merge_both st block
    else if (in_use (rd st pp) =? 0) && (in_use (rd st np) =? 1) then merge_prev st block
    else if (in_use (rd st pp) =? 1) && (in_use (rd st np) =? 0) then merge_next st block
    else (st, block)
  else if negb (pp =? NULL) && (np =? NULL) then
    if in_use (rd st pp) =? 0 then merge_prev_last st block else (st, block)
  else if (pp =? NULL) && negb (np =? NULL) then
    if in_use (rd st np) =? 0 then merge_next st block else (st, block)
  else (st, block).
Proof. reflexivity. Qed.

Lemma merge_prev_gen_eq st block :
  prev_phys (rd st block) <> block ->
  next_phys (rd st block) <> NULL ->
  merge_prev st block = merge_prev_gen st block.
Proof.
  intros Hpb Hn. unfold merge_prev, merge_prev_gen, patch_successor.
  ph_rw. rewrite !decide_True by done.
  destruct (Z.eqb_spec (next_phys (rd st block)) NULL); done.
Qed.

Lemma merge_prev_last_gen_eq st block :
  prev_phys (rd st block) <> block ->
  next_phys (rd st block) = NULL ->
  merge_prev_last st block = merge_prev_gen st block.
Proof.
  intros Hpb Hn. unfold merge_prev_last, merge_prev_gen, patch_successor.
  ph_rw. rewrite !decide_True by done. rewrite Hn. done.
Qed.

(** ** The merging branches keep the physical list *)

Lemma fits_size base st bl b :
  phys_ok base st bl -> fits base st -> b ∈ bl -> size (rd st b) <= INT_MAX - 24.
Proof.
  intros H Hf Hb. pose proof (block_size _ _ _ _ H Hb). unfold fits in Hf. ulia.
Qed.

Lemma fits_size2 base st bl b :
  phys_ok base st bl -> fits base st -> b ∈ bl ->
  next_phys (rd st b) <> NULL ->
  size (rd st b) + 24 + size (rd st (next_phys (rd st b))) <= INT_MAX - 24.
Proof.
  intros H Hf Hb Hn. pose proof (block_size _ _ _ _ H Hb).
  destruct (next_block _ _ _ _ H Hb Hn) as (Hnb & _ & En).
  pose proof (block_size _ _ _ _ H Hnb). unfold fits in Hf. ulia.
Qed.

Lemma to_uint_to_int_id x : 0 <= x < 2 ^ 32 -> to_uint (to_int x) = x.
Proof. intros. rewrite to_uint_to_int. by apply to_uint_id. Qed.

Lemma merge_next_phys base st bl b :
  phys_ok base st bl -> fits base st -> b ∈ bl -> in_use (rd st b) = 1 ->
  next_phys (rd st b) <> NULL ->
  phys_ok base (store (fst (merge_next st b)) b Fin_use 1)
          (bl ∖ {[ next_phys (rd st b) ]}).
Proof.
  intros H Hf Hb Hu Hn.
  pose proof (fits_size2 _ _ _ _ H Hf Hb Hn) as Hfit.
  pose proof (block_size _ _ _ _ H Hb) as Sb.
  destruct (next_block _ _ _ _ H Hb Hn) as (Hnb & Hnp & En).
  pose proof (block_size _ _ _ _ H Hnb) as Sn.
  eapply phys_ok_ext; [|apply (absorb_phys _ _ _ b H Hb Hu Hn); ulia].
  unfold merge_next, absorb, patch_successor. cbn [fst]. ph_rw.
  rewrite !decide_True by done.
  rewrite to_uint_to_int_id by ulia.
  destruct (Z.eqb_spec (next_phys (rd st (next_phys (rd st b)))) NULL) as [Ez|Ez].
  - split; [|split]; ph_rw; try done.
    intros q Hq. ph_rw. dec_split; repeat split; try done; ulia.
  - split; [|split]; ph_rw; try done.
    intros q Hq. ph_rw.
    dec_split; repeat split; try done; ulia.
Qed.

Lemma merge_prev_gen_phys base st bl b :
  phys_ok base st bl -> fits base st -> b ∈ bl ->
  prev_phys (rd st b) <> NULL ->
  phys_ok base
    (store (fst (merge_prev_gen st b)) (prev_phys (rd st b)) Fin_use 1)
    (bl ∖ {[ b ]}).
Proof.
  intros H Hf Hb Hp.
  destruct (prev_block _ _ _ _ H Hb Hp) as (Hpb & Hpn & Ep).
  pose proof (block_pos _ _ _ _ H Hb) as Hbpos.
  unfold merge_prev_gen, patch_successor. cbn [fst]. ph_rw.
  remember (prev_phys (rd st b)) as p eqn:Hpdef.
  assert (Hpn' : next_phys (rd st p) <> NULL) by (rewrite Hpn; ulia).
  pose proof (fits_size2 _ _ _ _ H Hf Hpb Hpn') as Hfit. rewrite Hpn in Hfit.
  pose proof (block_size _ _ _ _ H Hb) as Sb.
  pose proof (block_size _ _ _ _ H Hpb) as Sp.
  pose proof (mark_used_phys _ _ _ p H Hpb) as H1.
  assert (Hbp : b <> p) by lia.
  assert (Hb' : bl ∖ {[ b ]} = bl ∖ {[ next_phys (rd (store st p Fin_use 1) p) ]}).
  { ph_rw. by rewrite Hpn. }
  rewrite Hb'.
  eapply phys_ok_ext; [|apply (absorb_phys _ _ _ p H1 Hpb)].
  - unfold absorb, patch_successor. ph_rw.
    rewrite !decide_True by done. rewrite Hpn.
    dec_rw. rewrite to_uint_to_int_id by ulia.
    destruct (Z.eqb_spec (next_phys (rd st b)) NULL) as [Ez|Ez].
    + split; [|split]; ph_rw; try done.
      intros q Hq. ph_rw. dec_split; repeat split; try done; ulia.
    + split; [|split]; ph_rw; try done.
      intros q Hq. ph_rw.
      dec_split; repeat split; try done; ulia.
  - ph_rw. by dec_rw.
  - ph_rw. rewrite Hpn. ulia.
  - ph_rw. rewrite Hpn. dec_rw. ulia.
Qed.

Lemma merge_both_phys base st bl b :
  phys_ok base st bl -> fits base st -> b ∈ bl ->
  prev_phys (rd st b) <> NULL -> next_phys (rd st b) <> NULL ->
  phys_ok base
    (store (fst (merge_both st b)) (prev_phys (rd st b)) Fin_use 1)
    (bl ∖ {[ b ]} ∖ {[ next_phys (rd st b) ]}).
Proof.
  intros H Hf Hb Hp Hn.
  destruct (prev_block _ _ _ _ H Hb Hp) as (Hpb & Hpn & Ep).
  destruct (next_block _ _ _ _ H Hb Hn) as (Hnb & Hnp & En).
  pose proof (block_pos _ _ _ _ H Hb) as Hbpos.
  unfold merge_both, patch_successor. cbn [fst]. ph_rw.
  remember (prev_phys (rd st b)) as p eqn:Hpdef.
  remember (next_phys (rd st b)) as n eqn:Hndef.
  assert (Hpn' : next_phys (rd st p) <> NULL) by (rewrite Hpn; ulia).
  pose proof (fits_size2 _ _ _ _ H Hf Hpb Hpn') as Hfit. rewrite Hpn in Hfit.
  pose proof (block_size _ _ _ _ H Hb) as Sb.
  pose proof (block_size _ _ _ _ H Hpb) as Sp.
  pose proof (block_size _ _ _ _ H Hnb) as Sn.
  unfold fits in Hf.
  assert (Hbp : b <> p) by lia.
  assert (Hnp' : n <> p) by lia.
  assert (Hnb' : n <> b) by lia.
  pose proof (mark_used_phys _ _ _ p H Hpb) as H1.
  set (s1 := store st p Fin_use 1) in *.
  assert (Es1n : next_phys (rd s1 p) = b) by (unfold s1; ph_rw; done).
  assert (H2 : phys_ok base (absorb s1 p) (bl ∖ {[ b ]})).
  { rewrite <- Es1n.
    apply absorb_phys; try done; unfold s1; ph_rw; dec_rw; try done.
    rewrite Hpn. ulia. }
  set (s2 := absorb s1 p) in *.
  assert (Vs2 : heap_tail s2 = heap_tail st /\ brk s2 = brk st /\ forall q,
     size (rd s2 q)
       = (if decide (q = p) then size (rd st p) + 24 + size (rd st b)
          else size (rd st q))
     /\ in_use (rd s2 q) = (if decide (q = p) then 1 else in_use (rd st q))
     /\ next_phys (rd s2 q) = (if decide (q = p) then n else next_phys (rd st q))
     /\ prev_phys (rd s2 q) = (if decide (q = n) then p else prev_phys (rd st q))).
  { unfold s2, absorb, patch_successor, s1. ph_rw.
    rewrite !decide_True by done. rewrite Hpn, <- Hndef.
    destruct (Z.eqb_spec n NULL); [done|]. ph_rw.
    split; [done|]. split; [done|]. intros q.
    ph_rw. dec_split; repeat split; try done; ulia. }
  destruct Vs2 as (Ts2 & Bs2 & Vs2).
  assert (H3 : phys_ok base (absorb s2 p) (bl ∖ {[ b ]} ∖ {[ n ]})).
  { destruct (Vs2 p) as (Es & Eu & En' & _). rewrite decide_True in Es, Eu, En' by done.
    destruct (Vs2 n) as (Esn & _). rewrite decide_False in Esn by done.
    rewrite <- En' at 1. apply absorb_phys; try done.
    - in_diff.
    - by rewrite En'.
    - rewrite En', Es, Esn. ulia. }
  eapply phys_ok_ext; [|exact H3].
  unfold absorb, patch_successor. ph_rw.
  rewrite !decide_True by done.
  destruct (Vs2 p) as (-> & Eu & -> & _). rewrite !decide_True in * by done.
  destruct (Vs2 n) as (-> & _ & -> & _). rewrite !decide_False by done.
  rewrite to_uint_to_int_id by ulia.
  destruct (Z.eqb_spec (next_phys (rd st n)) NULL) as [Ez|Ez].
  - split; [|split]; ph_rw; try done.
    intros q Hq. ph_rw. destruct (Vs2 q) as (-> & -> & -> & ->).
    assert (q <> n) by set_solver.
    dec_split; repeat split; try done; ulia.
  - split; [|split]; ph_rw; try done.
    intros q Hq. ph_rw. destruct (Vs2 q) as (-> & -> & -> & ->).
    assert (q <> n) by set_solver.
    dec_split; repeat split; try done; ulia.
Qed.

(** ** The merging branches keep the free lists *)

Lemma elem_of_fl_del st fl x i c :
  lists_ok st fl -> c ∈ fl_del st fl x i <-> c ∈ fl i /\ c <> x.
Proof.
  intros Hl. unfold fl_del, fl_set. case_decide as E.
  - subst i. rewrite elem_of_list_del. tauto.
  - split; [|tauto]. intros Hc. split; [done|]. intros ->.
    destruct (lo_bin _ _ Hl _ _ Hc) as [_ E']. congruence.
Qed.

Lemma listed_bin st bl fl x :
  members_ok st bl fl -> x ∈ bl -> in_use (rd st x) = 0 ->
  x ∈ fl (size_to_bin (size (rd st x))).
Proof. intros Hm. apply Hm. Qed.

Lemma remove_block_fl_del st bl fl x :
  lists_ok st fl -> members_ok st bl fl ->
  x ∈ bl -> in_use (rd st x) = 0 ->
  lists_ok (remove_block st x) (fl_del st fl x).
Proof.
  intros Hl Hm Hx Hu. apply remove_block_lists; [done|].
  by eapply listed_bin.
Qed.

Lemma members_ok_sub st st' bl bl' fl fl' :
  members_ok st bl fl ->
  (forall c, c ∈ bl' -> c ∈ bl) ->
  (forall c, c ∈ bl' -> in_use (rd st' c) = 0 ->
     in_use (rd st c) = 0 /\ size (rd st' c) = size (rd st c)) ->
  (forall i c, c ∈ fl' i -> c ∈ fl i /\ c ∈ bl' /\ in_use (rd st' c) = 0) ->
  (forall i c, c ∈ fl i -> c ∈ bl' -> in_use (rd st' c) = 0 -> c ∈ fl' i) ->
  members_ok st' bl' fl'.
Proof.
  intros Hm Hsub Hf Hin Hall. split.
  - intros i c Hc. destruct (Hin i c Hc) as (_ & ? & ?). done.
  - intros c Hc Hu. destruct (Hf c Hc Hu) as [Hu' Es]. rewrite Es.
    apply Hall; [|done|done]. apply Hm; [by apply Hsub|done].
Qed.

Lemma merge_next_wf base st bl fl b :
  wf base st bl fl -> fits base st -> b ∈ bl -> in_use (rd st b) = 1 ->
  next_phys (rd st b) <> NULL ->
  in_use (rd st (next_phys (rd st b))) = 0 ->
  (prev_phys (rd st b) = NULL \/ in_use (rd st (prev_phys (rd st b))) = 1) ->
  let st1 := fst (merge_next st b) in
  let n := next_phys (rd st b) in
  detached base st1 (bl ∖ {[ n ]}) (fl_del st fl n) b
  /\ brk st1 = brk st
  /\ forall c, c <> b -> in_use (rd st1 c) = in_use (rd st c).
Proof.
  intros [Hp Hl Hm] Hf Hb Hu Hn Hnu Hpu st1 n.
  destruct (next_block _ _ _ _ Hp Hb Hn) as (Hnb & Hnp & En).
  fold n in Hnb, Hnp, En, Hnu, Hn.
  destruct (po_adj _ _ _ Hp n Hnb Hnu) as (Hz & Hzu & _).
  destruct (next_block _ _ _ _ Hp Hnb Hz) as (Hzb & Hzp & Ez).
  pose proof (block_size _ _ _ _ Hp Hb) as Sb.
  pose proof (block_size _ _ _ _ Hp Hnb) as Sn.
  pose proof (block_size _ _ _ _ Hp Hzb) as Sz.
  pose proof (merge_next_phys _ _ _ _ Hp Hf Hb Hu Hn) as Hp1.
  fold st1 n in Hp1.
  assert (Hl0 : lists_ok (remove_block st n) (fl_del st fl n)).
  { by eapply remove_block_fl_del. }
  assert (Hbl : forall i, b ∉ fl_del st fl n i).
  { intros i Hi. apply elem_of_fl_del in Hi as [Hi _]; [|done].
    exact (used_not_listed _ _ _ _ _ Hm Hu Hi). }
  assert (Est : st1 = store (store (store (store (remove_block st n) b Fsize
             (to_uint (to_int (size (rd st n) + (size (rd st b) + BLOCK_HEADER_SIZE)))))
             b Fin_use 0) b Fnext_phys (next_phys (rd st n)))
             (next_phys (rd st n)) Fprev_phys b).
  { unfold st1, merge_next, patch_successor. cbn [fst]. ph_rw. fold n.
    rewrite !decide_True by done.
    destruct (Z.eqb_spec (next_phys (rd st n)) NULL); done. }
  assert (Hfields : forall c,
     in_use (rd st1 c) = (if decide (c = b) then 0 else in_use (rd st c))
     /\ (c <> b -> size (rd st1 c) = size (rd st c))
     /\ next_phys (rd st1 c)
        = (if decide (c = b) then next_phys (rd st n) else next_phys (rd st c))
     /\ (c <> next_phys (rd st n) -> prev_phys (rd st1 c) = prev_phys (rd st c))).
  { intros c. rewrite Est. ph_rw. dec_split; repeat split; try done. }
  split; [split; [|split; [|split]]|split].
  - split.
    + exact Hp1.
    + rewrite Est. apply lists_ok_store_phys; [auto|].
      apply lists_ok_store_phys; [auto|].
      apply lists_ok_store_phys; [auto|].
      apply lists_ok_store_phys; [auto|].
      apply lists_ok_store_notin; [done|]. done.
    + eapply members_ok_sub; [exact Hm|..].
      * intros c Hc. set_solver.
      * intros c Hc. ph_rw.
        destruct (decide (c = b)) as [->|Hcb]; dec_rw; [done|].
        destruct (Hfields c) as (E1 & E2 & _). rewrite E1, (E2 Hcb).
        by dec_rw.
      * intros i c Hc. apply elem_of_fl_del in Hc as [Hc Hcn]; [|done].
        destruct (mo_in _ _ _ Hm i c Hc) as [Hcb Hcu].
        assert (c <> b) by congruence.
        split; [done|]. split; [in_diff|]. ph_rw. dec_rw.
        destruct (Hfields c) as (-> & _). by dec_rw.
      * intros i c Hc Hc' _. apply elem_of_fl_del; [done|]. split; [done|].
        set_solver.
  - in_diff.
  - right. destruct (Hfields b) as (_ & _ & -> & _). dec_rw.
    destruct (Hfields (next_phys (rd st n))) as (-> & _). by dec_rw.
  - destruct (Hfields b) as (_ & _ & _ & E). rewrite E by ulia.
    destruct Hpu as [?|Hpu]; [by left|right].
    destruct (Hfields (prev_phys (rd st b))) as (-> & _).
    assert (prev_phys (rd st b) <> b).
    { intros E'. pose proof (block_pos _ _ _ _ Hp Hb).
      destruct (prev_block _ _ _ _ Hp Hb) as (Hpb & _ & E''); [rewrite E'; ulia|].
      pose proof (block_size _ _ _ _ Hp Hpb). lia. }
    by dec_rw.
  - rewrite Est. ph_rw. done.
  - intros c Hc. destruct (Hfields c) as (-> & _). by dec_rw.
Qed.

Lemma merge_prev_gen_wf base st bl fl b :
  wf base st bl fl -> fits base st -> b ∈ bl -> in_use (rd st b) = 1 ->
  prev_phys (rd st b) <> NULL ->
  in_use (rd st (prev_phys (rd st b))) = 0 ->
  (next_phys (rd st b) = NULL \/ in_use (rd st (next_phys (rd st b))) = 1) ->
  let st1 := fst (merge_prev_gen st b) in
  let p := prev_phys (rd st b) in
  detached base st1 (bl ∖ {[ b ]}) (fl_del st fl p) p
  /\ brk st1 = brk st
  /\ forall c, c <> p -> in_use (rd st1 c) = in_use (rd st c).
Proof.
  intros [Hp Hl Hm] Hf Hb Hu Hpp Hpu Hnu st1 p.
  destruct (prev_block _ _ _ _ Hp Hb Hpp) as (Hpb & Hpn & Ep).
  fold p in Hpb, Hpn, Ep, Hpu, Hpp.
  destruct (po_adj _ _ _ Hp p Hpb Hpu) as (_ & _ & Hppu).
  pose proof (block_size _ _ _ _ Hp Hb) as Sb.
  pose proof (block_size _ _ _ _ Hp Hpb) as Sp.
  pose proof (block_pos _ _ _ _ Hp Hpb) as Hppos.
  pose proof (merge_prev_gen_phys _ _ _ _ Hp Hf Hb Hpp) as Hp1.
  fold st1 p in Hp1.
  assert (Hl0 : lists_ok (remove_block st p) (fl_del st fl p)).
  { by apply (remove_block_fl_del _ bl). }
  assert (Hbp : b <> p) by lia.
  assert (Hpl : forall i, p ∉ fl_del st fl p i).
  { intros i Hi. apply elem_of_fl_del in Hi as [_ Hi]; done. }
  assert (Hnp : next_phys (rd st b) <> p).
  { intros E. destruct (next_block _ _ _ _ Hp Hb) as (_ & _ & ?); [rewrite E; ulia|].
    lia. }
  assert (Hfields : forall c,
     in_use (rd st1 c) = (if decide (c = p) then 0 else in_use (rd st c))
     /\ (c <> p -> size (rd st1 c) = size (rd st c))
     /\ next_phys (rd st1 c)
        = (if decide (c = p) then next_phys (rd st b) else next_phys (rd st c))
     /\ (c <> next_phys (rd st b) -> prev_phys (rd st1 c) = prev_phys (rd st c))).
  { intros c. unfold st1, merge_prev_gen, patch_successor. cbn [fst]. ph_rw.
    fold p. rewrite !decide_True by done.
    destruct (Z.eqb_spec (next_phys (rd st b)) NULL); ph_rw;
      dec_split; repeat split; try done. }
  split; [split; [|split; [|split]]|split].
  - split.
    + exact Hp1.
    + apply lists_ok_store_phys; [auto|].
      unfold st1, merge_prev_gen, patch_successor. cbn [fst]. ph_rw. fold p.
      rewrite !decide_True by done.
      destruct (Z.eqb_spec (next_phys (rd st b)) NULL).
      * apply lists_ok_set_heap_tail.
        apply lists_ok_store_phys; [auto|].
        apply lists_ok_store_phys; [auto|].
        apply lists_ok_store_notin; [done|]. done.
      * apply lists_ok_store_phys; [auto|].
        apply lists_ok_store_phys; [auto|].
        apply lists_ok_store_phys; [auto|].
        apply lists_ok_store_notin; [done|]. done.
    + eapply members_ok_sub; [exact Hm|..].
      * intros c Hc. set_solver.
      * intros c Hc. ph_rw.
        destruct (decide (c = p)) as [->|Hcb]; dec_rw; [done|].
        destruct (Hfields c) as (E1 & E2 & _). rewrite E1, (E2 Hcb).
        by dec_rw.
      * intros i c Hc. apply elem_of_fl_del in Hc as [Hc Hcn]; [|done].
        destruct (mo_in _ _ _ Hm i c Hc) as [Hcb Hcu].
        assert (c <> b) by congruence.
        split; [done|]. split; [in_diff|]. ph_rw. dec_rw.
        destruct (Hfields c) as (-> & _). by dec_rw.
      * intros i c Hc Hc'. ph_rw.
        destruct (decide (c = p)) as [->|Hcp]; dec_rw; [done|]. intros _.
        apply elem_of_fl_del; done.
  - in_diff.
  - destruct (Hfields p) as (_ & _ & -> & _). dec_rw.
    destruct Hnu as [?|Hnu]; [by left|right].
    destruct (Hfields (next_phys (rd st b))) as (-> & _). by dec_rw.
  - destruct (Hfields p) as (_ & _ & _ & E). rewrite E by congruence.
    destruct Hppu as [?|Hppu]; [by left|right].
    destruct (Hfields (prev_phys (rd st p))) as (-> & _).
    assert (prev_phys (rd st p) <> p).
    { intros E'.
      destruct (prev_block _ _ _ _ Hp Hpb) as (Hqb & _ & E''); [rewrite E'; ulia|].
      pose proof (block_size _ _ _ _ Hp Hqb). lia. }
    by dec_rw.
  - unfold st1, merge_prev_gen, patch_successor. cbn [fst].
    bool_cases; ph_rw; done.
  - intros c Hc. destruct (Hfields c) as (-> & _). by dec_rw.
Qed.

Lemma merge_both_wf base st bl fl b :
  wf base st bl fl -> fits base st -> b ∈ bl -> in_use (rd st b) = 1 ->
  prev_phys (rd st b) <> NULL -> next_phys (rd st b) <> NULL ->
  in_use (rd st (prev_phys (rd st b))) = 0 ->
  in_use (rd st (next_phys (rd st b))) = 0 ->
  let st1 := fst (merge_both st b) in
  let p := prev_phys (rd st b) in
  let n := next_phys (rd st b) in
  detached base st1 (bl ∖ {[ b ]} ∖ {[ n ]}) (fl_del st (fl_del st fl n) p) p
  /\ brk st1 = brk st
  /\ forall c, c <> p -> in_use (rd st1 c) = in_use (rd st c).
Proof.
  intros [Hp Hl Hm] Hf Hb Hu Hpp Hnn Hpu Hnu st1 p n.
  destruct (prev_block _ _ _ _ Hp Hb Hpp) as (Hpb & Hpn & Ep).
  destruct (next_block _ _ _ _ Hp Hb Hnn) as (Hnb & Hnp & En).
  fold p in Hpb, Hpn, Ep, Hpu, Hpp. fold n in Hnb, Hnp, En, Hnu, Hnn.
  destruct (po_adj _ _ _ Hp p Hpb Hpu) as (_ & _ & Hppu).
  destruct (po_adj _ _ _ Hp n Hnb Hnu) as (Hz & Hzu & _).
  destruct (next_block _ _ _ _ Hp Hnb Hz) as (Hzb & Hzp & Ez).
  pose proof (block_size _ _ _ _ Hp Hb) as Sb.
  pose proof (block_size _ _ _ _ Hp Hpb) as Sp.
  pose proof (block_size _ _ _ _ Hp Hnb) as Sn.
  pose proof (block_size _ _ _ _ Hp Hzb) as Sz.
  pose proof (block_pos _ _ _ _ Hp Hpb) as Hppos.
  pose proof (merge_both_phys _ _ _ _ Hp Hf Hb Hpp Hnn) as Hp1.
  fold st1 p n in Hp1.
  assert (Hl0 : lists_ok (remove_block st n) (fl_del st fl n)).
  { by apply (remove_block_fl_del _ bl). }
  assert (Hl1 : lists_ok (remove_block (remove_block st n) p)
                         (fl_del st (fl_del st fl n) p)).
  { unfold fl_del at 1.
    rewrite <- (size_remove_block st n p).
    apply remove_block_lists; [done|]. rewrite size_remove_block.
    apply elem_of_fl_del; [done|]. split; [|lia].
    by apply (listed_bin _ bl). }
  assert (Hel : forall i c, c ∈ fl_del st (fl_del st fl n) p i
                  <-> c ∈ fl i /\ c <> n /\ c <> p).
  { intros i c. unfold fl_del at 1. unfold fl_set. case_decide as E.
    - subst i. rewrite elem_of_list_del, elem_of_fl_del by done. tauto.
    - rewrite elem_of_fl_del by done. split; [|tauto].
      intros [Hc Hcn]. split; [done|]. split; [done|]. intros ->.
      destruct (lo_bin _ _ Hl _ _ Hc) as [_ E']. congruence. }
  assert (Hbp : b <> p) by lia.
  assert (Hnp' : n <> p) by lia.
  assert (Hzp' : next_phys (rd st n) <> p) by lia.
  assert (Hpl : forall i, p ∉ fl_del st (fl_del st fl n) p i).
  { intros i Hi. apply Hel in Hi. tauto. }
  assert (Est : st1 = store (store (store (store
             (remove_block (remove_block st n) p) p Fsize
             (to_uint (to_int (size (rd st p) + (size (rd st b) + BLOCK_HEADER_SIZE)
                               + (size (rd st n) + BLOCK_HEADER_SIZE)))))
             p Fin_use 0) p Fnext_phys (next_phys (rd st n)))
             (next_phys (rd st n)) Fprev_phys p).
  { unfold st1, merge_both, patch_successor. cbn [fst]. ph_rw. fold p n.
    rewrite !decide_True by done.
    destruct (Z.eqb_spec (next_phys (rd st n)) NULL); done. }
  assert (Hfields : forall c,
     in_use (rd st1 c) = (if decide (c = p) then 0 else in_use (rd st c))
     /\ (c <> p -> size (rd st1 c) = size (rd st c))
     /\ next_phys (rd st1 c)
        = (if decide (c = p) then next_phys (rd st n) else next_phys (rd st c))
     /\ (c <> next_phys (rd st n) -> prev_phys (rd st1 c) = prev_phys (rd st c))).
  { intros c. rewrite Est. ph_rw. dec_split; repeat split; try done. }
  split; [split; [|split; [|split]]|split].
  - split.
    + exact Hp1.
    + rewrite Est. do 4 (apply lists_ok_store_phys; [auto|]).
      apply lists_ok_store_notin; [done|]. done.
    + eapply members_ok_sub; [exact Hm|..].
      * intros c Hc. set_solver.
      * intros c Hc. ph_rw.
        destruct (decide (c = p)) as [->|Hcb]; dec_rw; [done|].
        destruct (Hfields c) as (E1 & E2 & _). rewrite E1, (E2 Hcb).
        by dec_rw.
      * intros i c Hc. apply Hel in Hc as (Hc & Hcn & Hcp).
        destruct (mo_in _ _ _ Hm i c Hc) as [Hcb Hcu].
        assert (c <> b) by congruence.
        split; [done|]. split; [set_solver|]. ph_rw. dec_rw.
        destruct (Hfields c) as (-> & _). by dec_rw.
      * intros i c Hc Hc'. ph_rw.
        destruct (decide (c = p)) as [->|Hcp]; dec_rw; [done|]. intros _.
        apply Hel. split; [done|]. split; [set_solver|done].
  - set_solver.
  - right. destruct (Hfields p) as (_ & _ & -> & _). dec_rw.
    destruct (Hfields (next_phys (rd st n))) as (-> & _). by dec_rw.
  - destruct (Hfields p) as (_ & _ & _ & E). rewrite E by congruence.
    destruct Hppu as [?|Hppu]; [by left|right].
    destruct (Hfields (prev_phys (rd st p))) as (-> & _).
    assert (prev_phys (rd st p) <> p).
    { intros E'.
      destruct (prev_block _ _ _ _ Hp Hpb) as (Hqb & _ & E''); [rewrite E'; ulia|].
      pose proof (block_size _ _ _ _ Hp Hqb). lia. }
    by dec_rw.
  - rewrite Est. ph_rw. done.
  - intros c Hc. destruct (Hfields c) as (-> & _). by dec_rw.
Qed.

(** ** [coalesce] *)

Lemma wf_mark_used base st bl fl b :
  wf base st bl fl -> b ∈ bl -> in_use (rd st b) = 1 ->
  wf base (store st b Fin_use 1) bl fl.
Proof.
  intros [Hp Hl Hm] Hb Hu. split.
  - by apply mark_used_phys.
  - apply lists_ok_store_phys; auto.
  - eapply members_ok_sub; [exact Hm|..].
    + done.
    + intros c Hc. ph_rw. dec_split; done.
    + intros i c Hc. destruct (mo_in _ _ _ Hm i c Hc) as [? ?].
      split; [done|]. split; [done|]. ph_rw. dec_split; [congruence|done].
    + done.
Qed.

Lemma in_use_cases base st bl b :
  phys_ok base st bl -> b ∈ bl ->
  (in_use (rd st b) =? 0) = negb (in_use (rd st b) =? 1).
Proof.
  intros H Hb. destruct (po_block _ _ _ H b Hb) as (_ & _ & [->| ->] & _); done.
Qed.

Lemma snd_merge_next st b : snd (merge_next st b) = b.
Proof. reflexivity. Qed.

Lemma snd_merge_prev_gen st b : snd (merge_prev_gen st b) = prev_phys (rd st b).
Proof. unfold merge_prev_gen. cbn [snd]. by ph_rw. Qed.

Lemma snd_merge_both st b : snd (merge_both st b) = prev_phys (rd st b).
Proof. unfold merge_both. cbn [snd]. by ph_rw. Qed.

Lemma coalesce_wf base st bl fl b :
  wf base st bl fl -> fits base st -> b ∈ bl -> in_use (rd st b) = 1 ->
  exists bl1 fl1,
    detached base (fst (coalesce st b)) bl1 fl1 (snd (coalesce st b))
    /\ brk (fst (coalesce st b)) = brk st
    /\ (forall c, c <> snd (coalesce st b) ->
          (c ∈ bl1 /\ in_use (rd (fst (coalesce st b)) c) = 1)
          <-> (c ∈ bl /\ in_use (rd st c) = 1 /\ c <> b)).
Proof.
  intros Hwf Hf Hb Hu. pose proof Hwf as [Hp Hl Hm].
  rewrite coalesce_eq. cbv zeta.
  pose proof (block_pos _ _ _ _ Hp Hb) as Hbpos.
  assert (Hnone :
    (next_phys (rd st b) = NULL \/ in_use (rd st (next_phys (rd st b))) = 1) ->
    (prev_phys (rd st b) = NULL \/ in_use (rd st (prev_phys (rd st b))) = 1) ->
    exists bl1 fl1, detached base st bl1 fl1 b /\ brk st = brk st
      /\ (forall c, c <> b -> (c ∈ bl1 /\ in_use (rd st c) = 1)
                              <-> (c ∈ bl /\ in_use (rd st c) = 1 /\ c <> b))).
  { intros Hn Hpv. exists bl, fl. split; [|split; [done|]].
    - split; [by apply wf_mark_used|]. done.
    - intros c Hc. tauto. }
  destruct (Z.eqb_spec (prev_phys (rd st b)) NULL) as [Epp|Epp];
    destruct (Z.eqb_spec (next_phys (rd st b)) NULL) as [Enp|Enp];
    cbn [negb andb].
  - apply Hnone; by left.
  - destruct (next_block _ _ _ _ Hp Hb Enp) as (Hnb & _ & En).
    rewrite (in_use_cases _ _ _ _ Hp Hnb).
    destruct (Z.eqb_spec (in_use (rd st (next_phys (rd st b)))) 1) as [Eu|Eu];
      cbn [negb].
    + apply Hnone; [by right|by left].
    + assert (Hnu : in_use (rd st (next_phys (rd st b))) = 0).
      { destruct (po_block _ _ _ Hp _ Hnb) as (_ & _ & [?|?] & _); done. }
      destruct (merge_next_wf _ _ _ _ _ Hwf Hf Hb Hu Enp Hnu) as (Hd & Hbrk & Hiu);
        [by left|].
      rewrite snd_merge_next.
      eexists _, _. split; [exact Hd|]. split; [exact Hbrk|].
      intros c Hc. rewrite (Hiu c Hc).
      rewrite elem_of_difference, not_elem_of_singleton.
      split; [tauto|]. intros (? & ? & ?). split; [|done]. split; [done|].
      congruence.
  - destruct (prev_block _ _ _ _ Hp Hb Epp) as (Hpb & _ & Ep).
    pose proof (block_size _ _ _ _ Hp Hpb) as Sp.
    destruct (Z.eqb_spec (in_use (rd st (prev_phys (rd st b)))) 0) as [Eu|Eu].
    + rewrite merge_prev_last_gen_eq by (first [lia|done]).
      destruct (merge_prev_gen_wf _ _ _ _ _ Hwf Hf Hb Hu Epp Eu) as (Hd & Hbrk & Hiu);
        [by left|].
      rewrite snd_merge_prev_gen.
      eexists _, _. split; [exact Hd|]. split; [exact Hbrk|].
      intros c Hc. rewrite (Hiu c Hc).
      rewrite elem_of_difference, not_elem_of_singleton.
      split; [tauto|]. intros (? & ? & ?). done.
    + apply Hnone; [by left|right].
      destruct (po_block _ _ _ Hp _ Hpb) as (_ & _ & [?|?] & _); done.
  - destruct (prev_block _ _ _ _ Hp Hb Epp) as (Hpb & _ & Ep).
    destruct (next_block _ _ _ _ Hp Hb Enp) as (Hnb & _ & En).
    pose proof (block_size _ _ _ _ Hp Hpb) as Sp.
    rewrite (in_use_cases _ _ _ _ Hp Hnb).
    destruct (Z.eqb_spec (in_use (rd st (prev_phys (rd st b)))) 0) as [Eup|Eup];
      destruct (Z.eqb_spec (in_use (rd st (next_phys (rd st b)))) 1) as [Eun|Eun];
      cbn [negb andb].
    + rewrite merge_prev_gen_eq by (first [lia|done]).
      destruct (merge_prev_gen_wf _ _ _ _ _ Hwf Hf Hb Hu Epp Eup) as (Hd & Hbrk & Hiu);
        [by right|].
      rewrite snd_merge_prev_gen.
      eexists _, _. split; [exact Hd|]. split; [exact Hbrk|].
      intros c Hc. rewrite (Hiu c Hc).
      rewrite elem_of_difference, not_elem_of_singleton.
      split; [tauto|]. intros (? & ? & ?). done.
    + assert (Hnu : in_use (rd st (next_phys (rd st b))) = 0).
      { destruct (po_block _ _ _ Hp _ Hnb) as (_ & _ & [?|?] & _); done. }
      destruct (merge_both_wf _ _ _ _ _ Hwf Hf Hb Hu Epp Enp Eup Hnu)
        as (Hd & Hbrk & Hiu).
      rewrite snd_merge_both.
      eexists _, _. split; [exact Hd|]. split; [exact Hbrk|].
      intros c Hc. rewrite (Hiu c Hc).
      rewrite !elem_of_difference, !not_elem_of_singleton.
      split; [tauto|]. intros (? & ? & ?). split; [|done].
      split; [done|]. congruence.
    + assert (Hpu : in_use (rd st (prev_phys (rd st b))) = 1).
      { destruct (po_block _ _ _ Hp _ Hpb) as (_ & _ & [?|?] & _); done. }
      rewrite Hpu. cbn [Z.eqb Pos.eqb andb]. apply Hnone; by right.
    + assert (Hpu : in_use (rd st (prev_phys (rd st b))) = 1).
      { destruct (po_block _ _ _ Hp _ Hpb) as (_ & _ & [?|?] & _); done. }
      assert (Hnu : in_use (rd st (next_phys (rd st b))) = 0).
      { destruct (po_block _ _ _ Hp _ Hnb) as (_ & _ & [?|?] & _); done. }
      rewrite Hpu. cbn [Z.eqb Pos.eqb andb].
      destruct (merge_next_wf _ _ _ _ _ Hwf Hf Hb Hu Enp Hnu) as (Hd & Hbrk & Hiu);
        [by right|].
      rewrite snd_merge_next.
      eexists _, _. split; [exact Hd|]. split; [exact Hbrk|].
      intros c Hc. rewrite (Hiu c Hc).
      rewrite elem_of_difference, not_elem_of_singleton.
      split; [tauto|]. intros (? & ? & ?). split; [|done]. split; [done|].
      congruence.
Qed.

(** ** The two ways [my_free] ends *)

Lemma lists_ok_in_use st fl m v w :
  lists_ok (store st m Fin_use v) fl -> lists_ok (store st m Fin_use w) fl.
Proof.
  apply lists_ok_ext; [by ph_rw|]. intros i x _. by ph_rw.
Qed.

Lemma lists_ok_unmark st fl m v :
  lists_ok (store st m Fin_use v) fl -> lists_ok st fl.
Proof.
  apply lists_ok_ext; [by ph_rw|]. intros i x _. by ph_rw.
Qed.

(** The released block is not the last one: it goes to its bin. *)
Lemma release_wf base st bl fl m :
  detached base st bl fl m -> next_phys (rd st m) <> NULL ->
  let k := size_to_bin (size (rd st m)) in
  wf base (insert_into_bin (store st m Fin_use 0) m) bl
     (fl_set fl k (m :: fl k)).
Proof.
  intros ([Hp Hl Hm] & Hmb & Hn & Hpv) Hnn k.
  destruct Hn as [?|Hn]; [done|].
  pose proof (block_pos _ _ _ _ Hp Hmb) as Hmpos.
  assert (Hml : forall i, m ∉ fl i).
  { intros i Hi. destruct (mo_in _ _ _ Hm i m Hi) as [_ E].
    revert E. ph_rw. by dec_rw. }
  split.
  - eapply phys_ok_ext.
    2:{ apply (release_phys _ _ _ m Hp Hmb).
        - by ph_rw.
        - ph_rw. dec_split; done.
        - ph_rw. destruct Hpv; [by left|right]. dec_split; done. }
    split; [|split]; ph_rw; try done.
    intros q Hq. ph_rw. dec_split; done.
  - assert (Ek : k = size_to_bin (size (rd (store st m Fin_use 0) m))) by (by ph_rw).
    rewrite Ek. apply insert_into_bin_lists; [|ulia|done].
    by apply (lists_ok_in_use _ _ _ 1).
  - split.
    + intros i c Hc. ph_rw. unfold fl_set in Hc.
      assert (c = m \/ c ∈ fl i) as [->|Hc'].
      { case_decide as E; [|by right]. rewrite E.
        apply elem_of_cons in Hc. tauto. }
      * split; [done|]. by dec_rw.
      * destruct (mo_in _ _ _ Hm i c Hc') as [Hcb Hcu]. split; [done|].
        revert Hcu. ph_rw. dec_split; done.
    + intros c Hc. ph_rw. destruct (decide (c = m)) as [->|Hcm]; dec_rw.
      * intros _. fold k. rewrite fl_set_eq. left.
      * intros Hu. assert (Hcl : c ∈ fl (size_to_bin (size (rd st c)))).
        { pose proof (mo_all _ _ _ Hm c Hc) as Hall. revert Hall. ph_rw. dec_rw.
          auto. }
        unfold fl_set. case_decide as E; [|done]. rewrite <- E. by right.
Qed.

(** The released block is the last one: it leaves the heap. *)
Lemma pop_wf base st bl fl m :
  detached base st bl fl m -> next_phys (rd st m) = NULL ->
  wf base (set_brk (unlink_block st) m) (bl ∖ {[ m ]}) fl.
Proof.
  intros ([Hp Hl Hm] & Hmb & Hn & Hpv) Hnn.
  pose proof (block_pos _ _ _ _ Hp Hmb) as Hmpos.
  assert (Hml : forall i, m ∉ fl i).
  { intros i Hi. destruct (mo_in _ _ _ Hm i m Hi) as [_ E].
    revert E. ph_rw. by dec_rw. }
  split.
  - eapply phys_ok_ext.
    2:{ apply (pop_phys _ _ _ m Hp Hmb).
        - by ph_rw.
        - ph_rw. destruct Hpv; [by left|right]. dec_split; done. }
    unfold unlink_block. ph_rw. bool_cases; split; try split; ph_rw; try done;
      intros q Hq; apply elem_of_difference in Hq as [_ Hq];
      rewrite not_elem_of_singleton in Hq; ph_rw; dec_rw; done.
  - apply lists_ok_set_brk. apply lists_ok_unmark in Hl.
    unfold unlink_block. bool_cases; try done.
    + by apply lists_ok_set_heap_tail.
    + apply lists_ok_set_heap_tail. apply lists_ok_store_phys; auto.
  - eapply members_ok_sub; [exact Hm|..].
    + set_solver.
    + intros c Hc. apply elem_of_difference in Hc as [_ Hc].
      rewrite not_elem_of_singleton in Hc.
      unfold unlink_block. bool_cases; ph_rw; dec_rw; done.
    + intros i c Hc. destruct (mo_in _ _ _ Hm i c Hc) as [Hcb Hcu].
      assert (c <> m) by (intros ->; by apply (Hml i)).
      split; [done|]. split; [set_solver|].
      revert Hcu. unfold unlink_block. bool_cases; ph_rw; dec_rw; done.
    + done.
Qed.

(** ** [my_free] keeps the state valid *)

Lemma data_to_block_eq p : data_to_block p = p - 24.
Proof. unfold data_to_block, ptr_add_bytes. change (to_int (- BLOCK_HEADER_SIZE)) with (-24). lia. Qed.

Lemma block_to_data_eq b : block_to_data b = b + 24.
Proof. reflexivity. Qed.

Lemma data_to_block_to_data b : data_to_block (block_to_data b) = b.
Proof. rewrite data_to_block_eq, block_to_data_eq. lia. Qed.

(** The block [coalesce] returns is the one it was given, or its previous
    neighbour, which was free. *)
Lemma coalesce_snd st b :
  snd (coalesce st b) = b
  \/ (snd (coalesce st b) = prev_phys (rd st b)
      /\ in_use (rd st (prev_phys (rd st b))) = 0).
Proof.
  rewrite coalesce_eq. cbv zeta.
  destruct (Z.eqb_spec (in_use (rd st (prev_phys (rd st b)))) 0) as [E|E];
    bool_cases; cbn [snd]; auto; right;
    (split; [|done]); unfold merge_both, merge_prev, merge_prev_last;
    cbn [snd]; by ph_rw.
Qed.

Lemma my_free_wf base st bl fl p :
  wf base st bl fl -> fits base st -> allocated st bl p ->
  exists bl' fl',
    wf base (my_free st p) bl' fl'
    /\ brk (my_free st p) <= brk st
    /\ (forall c, (c ∈ bl' /\ in_use (rd (my_free st p) c) = 1)
                  <-> (c ∈ bl /\ in_use (rd st c) = 1 /\ c <> data_to_block p)).
Proof.
  intros Hwf Hf [Hb Hu]. pose proof Hwf as [Hp Hl Hm].
  pose proof (block_pos _ _ _ _ Hp Hb) as Hbpos.
  unfold my_free. rewrite data_to_block_eq in *.
  destruct (Z.eqb_spec p NULL) as [E|_]; [ulia|].
  destruct (coalesce_wf _ _ _ _ _ Hwf Hf Hb Hu) as (bl1 & fl1 & Hd & Hbrk & Hused).
  pose proof (coalesce_snd st (p - 24)) as Hm0.
  destruct (coalesce st (p - 24)) as [st1 m]. cbn [fst snd] in *.
  assert (Hmu : ~ (in_use (rd st m) = 1 /\ m <> p - 24)).
  { intros [? ?]. destruct Hm0 as [?|[-> ?]]; [done|congruence]. }
  pose proof Hd as ([Hp1 Hl1 Hm1] & Hmb & Hn & Hpv).
  pose proof (block_size _ _ _ _ Hp1 Hmb) as Sm. revert Sm. ph_rw. intros Sm.
  destruct (Z.eqb_spec (next_phys (rd st1 m)) NULL) as [En|En].
  - exists (bl1 ∖ {[ m ]}), fl1. split; [by apply pop_wf|]. split.
    + ph_rw. lia.
    + intros c. rewrite elem_of_difference, not_elem_of_singleton.
      destruct (decide (c = m)) as [->|Hcm].
      * split; [tauto|]. intros (Hc & Hcu & Hcb). tauto.
      * rewrite <- (Hused c Hcm).
        unfold unlink_block. bool_cases; ph_rw; dec_split; tauto.
  - eexists bl1, _. split; [by apply release_wf|]. split.
    + ph_rw. lia.
    + intros c. ph_rw. destruct (decide (c = m)) as [->|Hcm]; dec_rw.
      * split; [intros [_ ?]; done|]. intros (Hc & Hcu & Hcb). tauto.
      * by rewrite <- (Hused c Hcm).
Qed.

(** ** Removing the head of a bin twice *)

Lemma remove_block_head_twice st b :
  prev_free (rd st b) = NULL ->
  remove_block (remove_block st b) b = remove_block st b.
Proof.
  intros Hpf.
  assert (Hsz : size (rd (remove_block st b) b) = size (rd st b))
    by apply size_remove_block.
  unfold remove_block at 1. rewrite Hsz. clear Hsz.
  unfold remove_block. rewrite Hpf. change (NULL =? NULL) with true.
  destruct (Z.eqb_spec (next_free (rd st b)) NULL) as [En|En]; cbn [andb negb].
  - ph_rw. rewrite Hpf, En. change (NULL =? NULL) with true. cbn [andb].
    apply set_bin_set_bin.
  - ph_rw. rewrite Hpf.
    assert (E : (if decide (b = next_free (rd st b)) then NULL else NULL) = NULL)
      by (by case_decide).
    rewrite E. change (NULL =? NULL) with true.
    destruct (Z.eqb_spec (next_free (rd st b)) NULL) as [|_]; [done|].
    cbn [andb negb].
    by rewrite set_bin_store, set_bin_set_bin, store_store.
Qed.

Lemma split_block_after_remove st b a :
  prev_free (rd st b) = NULL ->
  split_block (remove_block st b) b a = split_block st b a.
Proof.
  intros Hpf. unfold split_block.
  rewrite remove_block_head_twice by done. by ph_rw.
Qed.

(** ** The loops of [my_malloc] *)

Lemma small_scan_spec st n index sz :
  let r := small_scan n st index sz in
  (snd r = NULL /\ fst r = st)
  \/ (exists k, index <= k < OVERFLOW_BIN
        /\ snd r = bin st k /\ bin st k <> NULL
        /\ MINIMUM_BLOCK_SIZE <= to_uint (size (rd st (bin st k)) - sz)
        /\ fst r = remove_block st (bin st k)).
Proof.
  revert index. induction n as [|n IH]; intros index; cbn [small_scan].
  - by left.
  - destruct (Z.ltb_spec index OVERFLOW_BIN) as [Hi|Hi]; [|by left].
    destruct (Z.eqb_spec (bin st index) NULL) as [Eb|Eb]; cbn [negb].
    + destruct (IH (index + 1)) as [?|(k & Hk & ?)]; [by left|right].
      exists k. split; [lia|done].
    + destruct (Z.ltb_spec (to_uint (size (rd st (bin st index)) - sz))
                           MINIMUM_BLOCK_SIZE) as [Hs|Hs].
      * destruct (IH (index + 1)) as [?|(k & Hk & ?)]; [by left|right].
        exists k. split; [lia|done].
      * right. exists index. cbn [fst snd]. repeat split; try done; lia.
Qed.

Lemma first_fit_spec st sz l :
  forall prev current fuel,
    dseg st prev current l NULL -> (length l < fuel)%nat ->
    first_fit fuel st current sz =
    match first_large st sz l with
    | None => Some (st, NULL)
    | Some b =>
        if to_uint (size (rd st b) - sz) >=? MINIMUM_BLOCK_SIZE
        then Some (split_block st b (to_int sz))
        else Some (remove_block (store st b Fin_use 1) b, b)
    end.
Proof.
  induction l as [|b l IH]; intros prev current fuel Hd Hfuel;
    (destruct fuel as [|fuel]; [cbn [length] in Hfuel; lia|]);
    cbn [first_fit first_large List.find dseg] in *.
  - subst current. done.
  - destruct Hd as (-> & Hb & _ & Hd).
    destruct (Z.eqb_spec b NULL) as [|_]; [done|].
    destruct (size (rd st b) >=? sz); [done|].
    apply (IH b); [done|]. cbn [length] in Hfuel. lia.
Qed.

(** ** [my_malloc] keeps the state valid *)

Lemma take_post base st bl fl k b n :
  wf base st bl fl -> b ∈ fl k -> n <= size (rd st b) ->
  malloc_post base st bl n (remove_block (store st b Fin_use 1) b) b.
Proof.
  intros Hwf Hb Hn. pose proof Hwf as [Hp Hl Hm].
  destruct (mo_in _ _ _ Hm k b Hb) as [Hbb Hbu].
  eexists bl, _. split; [by apply take_wf|].
  split; [done|]. ph_rw. dec_rw.
  split; [done|]. split; [done|]. split; [lia|]. split.
  - intros c. ph_rw. dec_split; [tauto|]. split; [tauto|].
    intros [?|?]; [done|congruence].
  - intros [_ ?]. congruence.
Qed.

Lemma brk_split_block st b a : brk (fst (split_block st b a)) = brk st.
Proof. unfold split_block. cbn [fst]. bool_cases; by ph_rw. Qed.

Lemma split_post base st bl fl k b a n :
  wf base st bl fl -> b ∈ fl k ->
  size_ok a -> a + MINIMUM_BLOCK_SIZE <= size (rd st b) ->
  size (rd st b) <= INT_MAX -> n <= a ->
  malloc_post base st bl n (fst (split_block st b a)) b.
Proof.
  intros Hwf Hb Ha Hroom Hmax Hn. pose proof Hwf as [Hp Hl Hm].
  destruct (mo_in _ _ _ Hm k b Hb) as [Hbb Hbu].
  destruct (split_block_wf _ _ _ _ _ _ _ Hwf Hb Ha Hroom Hmax)
    as (Hwf' & _ & Hr & Hbrk & Hfields).
  eexists _, _. split; [exact Hwf'|].
  split; [in_union_l|]. destruct (Hfields b) as [-> ->]. dec_rw.
  split; [done|]. split; [done|]. split; [lia|]. split.
  - intros c. destruct (Hfields c) as [-> _].
    rewrite elem_of_union, elem_of_singleton.
    destruct (decide (c = b)) as [->|Hcb]; [tauto|].
    destruct (decide (c = b + 24 + a)) as [->|Hcr]; [|tauto].
    split; [intros [_ ?]; done|]. intros [[? _]|?]; done.
  - intros [_ ?]. congruence.
Qed.

Lemma grow_post base st bl fl sz n :
  wf base st bl fl -> size_ok sz -> n <= sz ->
  malloc_post base st bl n (fst (grow_heap st sz)) (brk st).
Proof.
  intros Hwf Hsz Hn.
  destruct (grow_heap_wf _ _ _ _ _ Hwf Hsz)
    as (Hwf' & _ & Hnew & Hbrk & Hold & Hu & Hs).
  eexists _, _. split; [exact Hwf'|].
  split; [in_union_r|]. split; [done|]. split; [lia|]. split; [ulia|]. split.
  - intros c. rewrite elem_of_union, elem_of_singleton.
    destruct (decide (c = brk st)) as [->|Hc]; [tauto|].
    split.
    + intros [[Hc'|?] Hcu]; [|done]. left. destruct (Hold c Hc') as [E _].
      split; [done|congruence].
    + intros [[Hc' Hcu]|?]; [|done]. destruct (Hold c Hc') as [E _].
      split; [by left|congruence].
  - intros [? _]. done.
Qed.

(** The head of a bin. *)
Lemma bin_head st fl k :
  lists_ok st fl -> 0 <= k < NUM_BINS -> bin st k <> NULL ->
  bin st k ∈ fl k /\ prev_free (rd st (bin st k)) = NULL.
Proof.
  intros Hl Hk Hb. pose proof (lo_dll _ _ Hl k Hk) as Hd.
  destruct (fl k) as [|x l]; cbn [dseg] in Hd; [done|].
  destruct Hd as (-> & _ & ? & _). split; [left|done].
Qed.

Lemma first_large_spec st sz l b :
  first_large st sz l = Some b -> b ∈ l /\ sz <= size (rd st b).
Proof.
  unfold first_large. intros H. apply find_some in H as [Hin Hs].
  split; [by apply list_elem_of_In|]. lia.
Qed.

Lemma my_malloc_eq fuel st n :
  n <> 0 ->
  my_malloc fuel st n
  = malloc_tail fuel (round_up_size n) (small_bins st (round_up_size n)).
Proof.
  intros Hn. unfold my_malloc, malloc_tail.
  destruct (Z.eqb_spec n 0); [done|]. reflexivity.
Qed.

Lemma malloc_tail_found fuel s st b :
  b <> NULL -> malloc_tail fuel s (st, b) = Some (st, block_to_data b).
Proof.
  intros Hb. unfold malloc_tail.
  destruct (Z.eqb_spec b NULL) as [|_]; [done|].
  destruct (Z.eqb_spec b NULL) as [|_]; [done|]. done.
Qed.

Lemma returns_found base st bl n fuel s st' b :
  b <> NULL ->
  (fits base st' -> malloc_post base st bl n st' b) ->
  returns base st bl n (malloc_tail fuel s (st', b)).
Proof.
  intros Hb Hpost. exists st', (block_to_data b).
  split; [by apply malloc_tail_found|].
  rewrite data_to_block_to_data. intros Hf. split; [|by apply Hpost].
  rewrite block_to_data_eq.
  destruct (Hpost Hf) as (bl' & fl' & [Hp' _ _] & Hb' & _).
  pose proof (block_pos _ _ _ _ Hp' Hb'). ulia.
Qed.

Lemma returns_search base st bl fl n fuel s :
  wf base st bl fl -> size_ok s -> n <= s ->
  (length (fl OVERFLOW_BIN) < fuel)%nat ->
  returns base st bl n (malloc_tail fuel s (st, NULL)).
Proof.
  intros Hwf Hs Hns Hfuel. pose proof Hwf as [Hp Hl Hm].
  pose proof (po_base _ _ _ Hp) as Hbase.
  assert (Hov : 0 <= OVERFLOW_BIN < NUM_BINS) by ulia.
  unfold malloc_tail. change (NULL =? NULL) with true. cbv iota.
  rewrite (first_fit_spec st s (fl OVERFLOW_BIN) NULL); [|by apply Hl|done].
  destruct (first_large st s (fl OVERFLOW_BIN)) as [b|] eqn:Efl.
  - apply first_large_spec in Efl as [Hb Hsb].
    destruct (mo_in _ _ _ Hm _ _ Hb) as [Hbb Hbu].
    pose proof (block_pos _ _ _ _ Hp Hbb) as Hbpos.
    pose proof (po_block _ _ _ Hp b Hbb) as (_ & Sb & _).
    assert (Ed : to_uint (size (rd st b) - s) = size (rd st b) - s).
    { apply to_uint_id. ulia. }
    rewrite Ed.
    destruct (Z.geb_spec (size (rd st b) - s) MINIMUM_BLOCK_SIZE) as [Hd|Hd].
    + (* split *)
      pose proof (brk_split_block st b (to_int s)) as Hbrk.
      destruct (split_block st b (to_int s)) as [st' b'] eqn:Esp.
      cbn [fst] in Hbrk.
      assert (b' = b) as -> by (by apply (f_equal snd) in Esp).
      destruct (Z.eqb_spec b NULL) as [|_]; [ulia|].
      exists st', (block_to_data b). split; [done|].
      rewrite data_to_block_to_data. intros Hf. split; [rewrite block_to_data_eq; ulia|].
      assert (Hmax : size (rd st b) <= INT_MAX).
      { assert (fits base st) by (unfold fits in *; lia).
        pose proof (fits_size _ _ _ _ Hp H Hbb). lia. }
      rewrite to_int_id in Esp by ulia.
      apply (f_equal fst) in Esp. cbn [fst] in Esp. rewrite <- Esp.
      apply (split_post _ _ _ fl OVERFLOW_BIN); try done; lia.
    + (* the whole block *)
      destruct (Z.eqb_spec b NULL) as [|_]; [ulia|].
      eexists _, (block_to_data b). split; [done|].
      rewrite data_to_block_to_data. intros Hf. split; [rewrite block_to_data_eq; ulia|].
      apply (take_post _ _ _ fl OVERFLOW_BIN); try done. lia.
  - (* growth *)
    change (NULL =? NULL) with true. cbv iota.
    destruct (grow_heap_wf _ _ _ _ _ Hwf Hs) as (_ & Eg & _).
    destruct (grow_heap st s) as [st' b] eqn:Egr. cbn [snd] in Eg. subst b.
    exists st', (block_to_data (brk st)). split; [done|].
    rewrite data_to_block_to_data. intros Hf. split; [rewrite block_to_data_eq; ulia|].
    apply (f_equal fst) in Egr. cbn [fst] in Egr. rewrite <- Egr.
    by apply (grow_post _ _ _ fl).
Qed.

Theorem my_malloc_wf base st bl fl n fuel :
  wf base st bl fl -> 0 < n <= 2 ^ 32 - 8 ->
  (length (fl OVERFLOW_BIN) < fuel)%nat ->
  returns base st bl n (my_malloc fuel st n).
Proof.
  intros Hwf Hn Hfuel. pose proof Hwf as [Hp Hl Hm].
  pose proof (po_base _ _ _ Hp) as Hbase.
  rewrite my_malloc_eq by lia.
  destruct (round_up_size_spec n Hn) as [Hs Hns].
  remember (round_up_size n) as s eqn:Es. clear Es.
  unfold small_bins.
  pose proof (size_to_bin_range s) as Hk.
  destruct (Z.ltb_spec (size_to_bin s) OVERFLOW_BIN) as [Hsmall|Hsmall];
    cbn [andb]; [|apply (returns_search _ _ _ fl); first [done|lia]].
  assert (Hs512 : s <= 512).
  { rewrite size_to_bin_eq in Hsmall by done. case_decide; ulia. }
  destruct (Z.eqb_spec (bin st (size_to_bin s)) NULL) as [Eb|Eb]; cbn [negb].
  - (* no exact fit: scan the larger small bins *)
    pose proof (small_scan_spec st (Z.to_nat OVERFLOW_BIN)
                  (size_to_bin (to_uint (s + MINIMUM_BLOCK_SIZE))) s) as Hscan.
    cbv zeta in Hscan.
    destruct (small_scan (Z.to_nat OVERFLOW_BIN) st
                (size_to_bin (to_uint (s + MINIMUM_BLOCK_SIZE))) s)
      as [st1 bts].
    cbn [fst snd] in Hscan.
    destruct Hscan as [[-> ->]|(j & Hj & -> & Hbj & Hroom & ->)].
    + change (NULL =? NULL) with true. cbn [negb].
      apply (returns_search _ _ _ fl); first [done|lia].
    + destruct (Z.eqb_spec (bin st j) NULL) as [|_]; [done|]. cbn [negb].
      assert (Hj' : 0 <= j < NUM_BINS).
      { pose proof (size_to_bin_range (to_uint (s + MINIMUM_BLOCK_SIZE))). ulia. }
      destruct (bin_head _ _ _ Hl Hj' Hbj) as [Hin Hpf].
      remember (bin st j) as b eqn:Ebdef.
      destruct (mo_in _ _ _ Hm _ _ Hin) as [Hbb Hbu].
      destruct (lo_bin _ _ Hl _ _ Hin) as [_ Ebin].
      pose proof (po_block _ _ _ Hp b Hbb) as (_ & Sb & _).
      assert (Hsize : s + MINIMUM_BLOCK_SIZE <= size (rd st b) <= 512).
      { rewrite size_to_bin_eq in Ebin by done.
        rewrite to_uint_id in Hj by ulia.
        rewrite size_to_bin_eq in Hj by ulia.
        repeat case_decide; ulia. }
      rewrite split_block_after_remove by done.
      rewrite to_int_id by ulia.
      pose proof (split_block_eq st b s Hs) as Esp.
      destruct (po_adj _ _ _ Hp b Hbb Hbu) as (Hnn & _).
      rewrite Esp by (first [done|ulia]).
      apply returns_found; [done|]. intros _.
      replace (insert_into_bin (split_state st b s) (b + 24 + s))
        with (fst (split_block st b s)) by (rewrite Esp; first [done|ulia]).
      apply (split_post _ _ _ fl j); try done; ulia.
  - (* exact fit *)
    assert (Hk' : 0 <= size_to_bin s < NUM_BINS) by ulia.
    destruct (bin_head _ _ _ Hl Hk' Eb) as [Hin Hpf].
    remember (bin st (size_to_bin s)) as b eqn:Ebdef.
    destruct (mo_in _ _ _ Hm _ _ Hin) as [Hbb Hbu].
    destruct (lo_bin _ _ Hl _ _ Hin) as [_ Ebin].
    pose proof (po_block _ _ _ Hp b Hbb) as (_ & Sb & _).
    assert (size (rd st b) = s).
    { apply size_to_bin_small_inj; try done. rewrite Ebin. ulia. }
    apply returns_found; [done|]. intros _.
    apply (take_post _ _ _ fl (size_to_bin s)); try done. lia.
Qed.

(** ** More fuel does not change a result *)

Lemma first_fit_mono fuel fuel' st current sz r :
  first_fit fuel st current sz = Some r -> (fuel <= fuel')%nat ->
  first_fit fuel' st current sz = Some r.
Proof.
  revert fuel' current. induction fuel as [|fuel IH]; intros fuel' current H Hle;
    [done|].
  destruct fuel' as [|fuel']; [lia|]. cbn [first_fit] in *.
  destruct (current =? NULL); [done|].
  destruct (size (rd st current) >=? sz); [done|].
  apply IH; [done|lia].
Qed.

Lemma my_malloc_mono fuel fuel' st n r :
  my_malloc fuel st n = Some r -> (fuel <= fuel')%nat ->
  my_malloc fuel' st n = Some r.
Proof.
  unfold my_malloc. intros H Hle.
  destruct (n =? 0); [done|].
  destruct (small_bins st (round_up_size n)) as [st1 b].
  destruct (b =? NULL); [|done].
  destruct (first_fit fuel st1 (bin st1 OVERFLOW_BIN) (round_up_size n))
    as [r'|] eqn:E; [|done].
  by rewrite (first_fit_mono _ _ _ _ _ _ E Hle).
Qed.

(** ** Sequences of calls *)

Lemma live_block base st bl b : phys_ok base st bl -> live st b -> b ∈ bl.
Proof.
  intros H. induction 1 as [Ht|b Hl IH Hp].
  - by apply (po_tail _ _ _ H).
  - by apply (prev_block _ _ _ _ H IH).
Qed.

Lemma wf_no_adjacent_free base st bl fl :
  wf base st bl fl -> no_adjacent_free st.
Proof.
  intros [H _ _] b Hb Hu. pose proof (live_block _ _ _ _ H Hb) as Hbb.
  destruct (po_adj _ _ _ H b Hbb Hu) as (? & ? & ?). split; [by right|done].
Qed.

Lemma allocated_block st bl p :
  allocated st bl p <-> data_to_block p ∈ bl /\ in_use (rd st (data_to_block p)) = 1.
Proof. done. Qed.

Lemma run_small_inv b0 st ps :
  0 < b0 -> run (small_call b0) b0 st ps -> run_inv b0 st ps.
Proof.
  intros Hb0. induction 1 as [|st ps fuel n st' p Hrun IH Hn Hm [Hn' Hf]
                               |st ps p Hrun IH Hp].
  - exists ∅, (fun _ => []). split; [by apply init_wf|]. split.
    + unfold fits, init, INT_MAX. cbn [brk]. lia.
    + intros p. unfold allocated. split; intros H; [by apply elem_of_nil in H|].
      destruct H as [H _]. set_solver.
  - destruct IH as (bl & fl & Hwf & Hfits & Hps).
    destruct (decide (n = 0)) as [->|Hn0].
    + unfold my_malloc in Hm. cbn in Hm. injection Hm as <- <-.
      rewrite decide_True by done. by exists bl, fl.
    + set (fuel' := Nat.max fuel (S (length (fl OVERFLOW_BIN)))).
      assert (Hm' : my_malloc fuel' st n = Some (st', p)).
      { apply (my_malloc_mono fuel); [done|]. unfold fuel'. lia. }
      destruct (my_malloc_wf b0 st bl fl n fuel' Hwf) as (st'' & p' & E & Hpost);
        [lia|unfold fuel'; lia|].
      rewrite Hm' in E. injection E as <- <-.
      destruct (Hpost Hf) as (Hpn & bl' & fl' & Hwf' & Hb' & Hu' & _ & _ & Hused & Hnew).
      rewrite decide_False by done.
      exists bl', fl'. split; [done|]. split; [done|].
      intros q. rewrite elem_of_cons, Hps. unfold allocated.
      rewrite (Hused (data_to_block q)).
      rewrite !data_to_block_eq. split.
      * intros [->|?]; [right; done|by left].
      * intros [?|E]; [by right|left; lia].
  - destruct IH as (bl & fl & Hwf & Hfits & Hps).
    destruct Hp as [->|Hp].
    + unfold my_free. change (NULL =? NULL) with true. cbv iota.
      exists bl, fl. split; [done|]. split; [done|].
      intros q. rewrite elem_of_list_del, Hps. split; [tauto|].
      intros Hq. split; [|done]. intros ->.
      destruct Hq as [Hq _]. rewrite data_to_block_eq in Hq.
      destruct Hwf as [Hph _ _]. pose proof (block_pos _ _ _ _ Hph Hq). ulia.
    + apply Hps in Hp.
      destruct (my_free_wf _ _ _ _ _ Hwf Hfits Hp) as (bl' & fl' & Hwf' & Hbrk & Hused).
      exists bl', fl'. split; [done|]. split; [unfold fits in *; lia|].
      intros q. rewrite elem_of_list_del, Hps. unfold allocated.
      rewrite (Hused (data_to_block q)). rewrite !data_to_block_eq.
      split; [intros [? ?]|intros (? & ? & ?)]; repeat split; try tauto; lia.
Qed.

(** ** [coalesce] without a bound on the heap *)

(** The links of the physical list and the free lists after [coalesce] do
    not depend on the sizes fitting an [int]. *)
Lemma merge_next_lists base st bl fl b :
  wf base st bl fl -> b ∈ bl -> in_use (rd st b) = 1 ->
  next_phys (rd st b) <> NULL ->
  in_use (rd st (next_phys (rd st b))) = 0 ->
  lists_ok (fst (merge_next st b)) (fl_del st fl (next_phys (rd st b)))
  /\ forall i, b ∉ fl_del st fl (next_phys (rd st b)) i.
Proof.
  intros [Hp Hl Hm] Hb Hu Hn Hnu.
  destruct (next_block _ _ _ _ Hp Hb Hn) as (Hnb & _ & _).
  assert (Hl0 : lists_ok (remove_block st (next_phys (rd st b)))
                         (fl_del st fl (next_phys (rd st b)))).
  { by apply (remove_block_fl_del _ bl). }
  assert (Hbl : forall i, b ∉ fl_del st fl (next_phys (rd st b)) i).
  { intros i Hi. apply elem_of_fl_del in Hi as [Hi _]; [|done].
    exact (used_not_listed _ _ _ _ _ Hm Hu Hi). }
  split; [|done].
  unfold merge_next, patch_successor. cbn [fst].
  match goal with |- context [if ?c then _ else _] => destruct c end.
  - apply lists_ok_set_heap_tail. do 2 (apply lists_ok_store_phys; [auto|]).
    by apply lists_ok_store_notin.
  - do 3 (apply lists_ok_store_phys; [auto|]). by apply lists_ok_store_notin.
Qed.

Lemma merge_prev_lists base st bl fl b :
  wf base st bl fl -> b ∈ bl -> in_use (rd st b) = 1 ->
  prev_phys (rd st b) <> NULL ->
  in_use (rd st (prev_phys (rd st b))) = 0 ->
  lists_ok (fst (merge_prev_gen st b)) (fl_del st fl (prev_phys (rd st b)))
  /\ forall i, prev_phys (rd st b) ∉ fl_del st fl (prev_phys (rd st b)) i.
Proof.
  intros [Hp Hl Hm] Hb Hu Hpp Hpu.
  destruct (prev_block _ _ _ _ Hp Hb Hpp) as (Hpb & _ & _).
  assert (Hl0 : lists_ok (remove_block st (prev_phys (rd st b)))
                         (fl_del st fl (prev_phys (rd st b)))).
  { by apply (remove_block_fl_del _ bl). }
  assert (Hpl : forall i, prev_phys (rd st b) ∉ fl_del st fl (prev_phys (rd st b)) i).
  { intros i Hi. apply elem_of_fl_del in Hi as [_ Hi]; done. }
  split; [|done].
  unfold merge_prev_gen, patch_successor. cbn [fst]. ph_rw.
  match goal with |- context [if ?c then _ else _] => destruct c end.
  - apply lists_ok_set_heap_tail. do 2 (apply lists_ok_store_phys; [auto|]).
    by apply lists_ok_store_notin.
  - do 3 (apply lists_ok_store_phys; [auto|]). by apply lists_ok_store_notin.
Qed.

Lemma merge_both_lists base st bl fl b :
  wf base st bl fl -> b ∈ bl -> in_use (rd st b) = 1 ->
  prev_phys (rd st b) <> NULL -> next_phys (rd st b) <> NULL ->
  in_use (rd st (prev_phys (rd st b))) = 0 ->
  in_use (rd st (next_phys (rd st b))) = 0 ->
  lists_ok (fst (merge_both st b))
           (fl_del st (fl_del st fl (next_phys (rd st b))) (prev_phys (rd st b)))
  /\ forall i, prev_phys (rd st b)
               ∉ fl_del st (fl_del st fl (next_phys (rd st b)))
                        (prev_phys (rd st b)) i.
Proof.
  intros [Hp Hl Hm] Hb Hu Hpp Hnn Hpu Hnu.
  destruct (prev_block _ _ _ _ Hp Hb Hpp) as (Hpb & _ & Ep).
  destruct (next_block _ _ _ _ Hp Hb Hnn) as (Hnb & _ & En).
  pose proof (block_size _ _ _ _ Hp Hb) as Sb.
  pose proof (block_size _ _ _ _ Hp Hpb) as Sp.
  remember (prev_phys (rd st b)) as p eqn:Hpdef.
  remember (next_phys (rd st b)) as n eqn:Hndef.
  assert (Hl0 : lists_ok (remove_block st n) (fl_del st fl n)).
  { by apply (remove_block_fl_del _ bl). }
  assert (Hl1 : lists_ok (remove_block (remove_block st n) p)
                         (fl_del st (fl_del st fl n) p)).
  { unfold fl_del at 1.
    rewrite <- (size_remove_block st n p).
    apply remove_block_lists; [done|]. rewrite size_remove_block.
    apply elem_of_fl_del; [done|]. split; [|lia].
    by apply (listed_bin _ bl). }
  assert (Hpl : forall i, p ∉ fl_del st (fl_del st fl n) p i).
  { intros i. unfold fl_del at 1. unfold fl_set. case_decide as E.
    - rewrite elem_of_list_del. tauto.
    - intros Hi. apply elem_of_fl_del in Hi as [Hi _]; [|done].
      destruct (lo_bin _ _ Hl _ _ Hi) as [_ E']. congruence. }
  split; [|done].
  unfold merge_both, patch_successor. cbn [fst]. ph_rw.
  rewrite <- Hpdef, <- Hndef.
  match goal with |- context [if ?c then _ else _] => destruct c end.
  - apply lists_ok_set_heap_tail. do 2 (apply lists_ok_store_phys; [auto|]).
    by apply lists_ok_store_notin.
  - do 3 (apply lists_ok_store_phys; [auto|]). by apply lists_ok_store_notin.
Qed.

Lemma coalesce_lists base st bl fl b :
  wf base st bl fl -> b ∈ bl -> in_use (rd st b) = 1 ->
  exists fl1,
    lists_ok (fst (coalesce st b)) fl1
    /\ forall i, snd (coalesce st b) ∉ fl1 i.
Proof.
  intros Hwf Hb Hu. pose proof Hwf as [Hp Hl Hm].
  rewrite coalesce_eq. cbv zeta.
  pose proof (block_pos _ _ _ _ Hp Hb) as Hbpos.
  assert (Hnone : exists fl1, lists_ok st fl1 /\ forall i, b ∉ fl1 i).
  { exists fl. split; [done|]. intros i Hi.
    exact (used_not_listed _ _ _ _ _ Hm Hu Hi). }
  destruct (Z.eqb_spec (prev_phys (rd st b)) NULL) as [Epp|Epp];
    destruct (Z.eqb_spec (next_phys (rd st b)) NULL) as [Enp|Enp];
    cbn [negb andb]; [done|..].
  - destruct (Z.eqb_spec (in_use (rd st (next_phys (rd st b)))) 0) as [Eu|Eu];
      [|done].
    rewrite snd_merge_next. eexists. by apply (merge_next_lists base _ bl).
  - destruct (prev_block _ _ _ _ Hp Hb Epp) as (Hpb & _ & Ep).
    pose proof (block_size _ _ _ _ Hp Hpb) as Sp.
    destruct (Z.eqb_spec (in_use (rd st (prev_phys (rd st b)))) 0) as [Eu|Eu];
      [|done].
    rewrite merge_prev_last_gen_eq by (first [lia|done]).
    rewrite snd_merge_prev_gen. eexists. by apply (merge_prev_lists base _ bl).
  - destruct (prev_block _ _ _ _ Hp Hb Epp) as (Hpb & _ & Ep).
    pose proof (block_size _ _ _ _ Hp Hpb) as Sp.
    destruct (Z.eqb_spec (in_use (rd st (prev_phys (rd st b)))) 0) as [Eup|Eup];
      destruct (Z.eqb_spec (in_use (rd st (next_phys (rd st b)))) 0) as [Eun|Eun];
      cbn [negb andb].
    + rewrite snd_merge_both. eexists. by apply (merge_both_lists base _ bl).
    + destruct (Z.eqb_spec (in_use (rd st (next_phys (rd st b)))) 1);
        [|rewrite andb_false_r; cbn [fst snd]; done].
      rewrite merge_prev_gen_eq by (first [lia|done]).
      rewrite snd_merge_prev_gen. eexists. by apply (merge_prev_lists base _ bl).
    + destruct (Z.eqb_spec (in_use (rd st (prev_phys (rd st b)))) 1);
        [|cbn [fst snd]; done].
      cbn [andb].
      rewrite snd_merge_next. eexists. by apply (merge_next_lists base _ bl).
    + rewrite ?andb_false_r; cbn [fst snd andb]; done.
Qed.

(** When the block [coalesce] returns has no successor, it is [heap_tail]. *)
Lemma patch_successor_tail st x :
  next_phys (rd (patch_successor st x) x) = NULL ->
  heap_tail (patch_successor st x) = x.
Proof.
  unfold patch_successor.
  destruct (Z.eqb_spec (next_phys (rd st x)) NULL); ph_rw; done.
Qed.

Lemma coalesce_tail base st bl b :
  phys_ok base st bl -> b ∈ bl ->
  next_phys (rd (fst (coalesce st b)) (snd (coalesce st b))) = NULL ->
  heap_tail (fst (coalesce st b)) = snd (coalesce st b).
Proof.
  intros Hp Hb. rewrite coalesce_eq. cbv zeta.
  assert (Hnone : next_phys (rd st b) = NULL -> heap_tail st = b).
  { intros E. by destruct (last_block _ _ _ _ Hp Hb E). }
  assert (Hmn : next_phys (rd (fst (merge_next st b)) (snd (merge_next st b))) = NULL ->
                heap_tail (fst (merge_next st b)) = snd (merge_next st b)).
  { unfold merge_next. cbn [fst snd]. apply patch_successor_tail. }
  assert (Hmb : next_phys (rd (fst (merge_both st b)) (snd (merge_both st b))) = NULL ->
                heap_tail (fst (merge_both st b)) = snd (merge_both st b)).
  { unfold merge_both. cbn [fst snd]. apply patch_successor_tail. }
  assert (Hml : heap_tail (fst (merge_prev_last st b)) = snd (merge_prev_last st b)).
  { unfold merge_prev_last. cbn [fst snd]. by ph_rw. }
  assert (Hmp : next_phys (rd st b) <> NULL ->
                next_phys (rd (fst (merge_prev st b)) (snd (merge_prev st b))) <> NULL).
  { intros Hn. unfold merge_prev. cbn [fst snd]. ph_rw.
    by rewrite !decide_True by done. }
  destruct (Z.eqb_spec (prev_phys (rd st b)) NULL) as [Epp|Epp];
    destruct (Z.eqb_spec (next_phys (rd st b)) NULL) as [Enp|Enp];
    cbn [negb andb]; cbn [fst snd]; try done.
  - destruct (in_use (rd st (next_phys (rd st b))) =? 0); cbn [fst snd]; done.
  - destruct (in_use (rd st (prev_phys (rd st b))) =? 0); cbn [fst snd]; done.
  - destruct (in_use (rd st (prev_phys (rd st b))) =? 0);
      destruct (in_use (rd st (next_phys (rd st b))) =? 0);
      cbn [negb andb]; cbn [fst snd]; try done.
    + destruct (in_use (rd st (next_phys (rd st b))) =? 1);
        rewrite ?andb_false_r; cbn [fst snd]; [|done].
      intros E. by apply Hmp in E.
    + destruct (in_use (rd st (prev_phys (rd st b))) =? 1); cbn [fst snd andb];
        done.
    + rewrite ?andb_false_r. cbn [fst snd]. done.
Qed.

Lemma coalesce_snd_prev st b :
  snd (coalesce st b) = b
  \/ (snd (coalesce st b) = prev_phys (rd st b)
      /\ prev_phys (rd st b) <> NULL).
Proof.
  rewrite coalesce_eq. cbv zeta.
  destruct (Z.eqb_spec (prev_phys (rd st b)) NULL) as [E|E]; cbn [negb andb].
  - left. bool_cases; reflexivity.
  - bool_cases; cbn [snd]; auto; right;
      (split; [|done]); unfold merge_both, merge_prev, merge_prev_last;
      cbn [snd]; by ph_rw.
Qed.

Lemma coalesce_block base st bl b :
  phys_ok base st bl -> b ∈ bl -> snd (coalesce st b) ∈ bl.
Proof.
  intros Hp Hb. destruct (coalesce_snd_prev st b) as [->|[-> Hn]]; [done|].
  by destruct (prev_block _ _ _ _ Hp Hb Hn).
Qed.

(** In the branches of [coalesce] whose result has no successor, no back
    link of the physical list is written. *)
Lemma patch_successor_prev_phys st x c :
  next_phys (rd (patch_successor st x) x) = NULL ->
  prev_phys (rd (patch_successor st x) c) = prev_phys (rd st c).
Proof.
  unfold patch_successor.
  destruct (Z.eqb_spec (next_phys (rd st x)) NULL); ph_rw; done.
Qed.

Lemma coalesce_tail_prev_phys st b c :
  next_phys (rd (fst (coalesce st b)) (snd (coalesce st b))) = NULL ->
  prev_phys (rd (fst (coalesce st b)) c) = prev_phys (rd st c).
Proof.
  rewrite coalesce_eq. cbv zeta.
  assert (Hmn : next_phys (rd (fst (merge_next st b)) (snd (merge_next st b))) = NULL ->
                prev_phys (rd (fst (merge_next st b)) c) = prev_phys (rd st c)).
  { unfold merge_next. cbn [fst snd]. intros E.
    rewrite patch_successor_prev_phys by done. by ph_rw. }
  assert (Hmb : next_phys (rd (fst (merge_both st b)) (snd (merge_both st b))) = NULL ->
                prev_phys (rd (fst (merge_both st b)) c) = prev_phys (rd st c)).
  { unfold merge_both. cbn [fst snd]. intros E.
    rewrite patch_successor_prev_phys by done. by ph_rw. }
  assert (Hml : prev_phys (rd (fst (merge_prev_last st b)) c) = prev_phys (rd st c)).
  { unfold merge_prev_last. cbn [fst snd]. by ph_rw. }
  assert (Hmp : next_phys (rd st b) <> NULL ->
                next_phys (rd (fst (merge_prev st b)) (snd (merge_prev st b))) <> NULL).
  { intros Hn. unfold merge_prev. cbn [fst snd]. ph_rw.
    by rewrite !decide_True by done. }
  destruct (Z.eqb_spec (prev_phys (rd st b)) NULL) as [Epp|Epp];
    destruct (Z.eqb_spec (next_phys (rd st b)) NULL) as [Enp|Enp];
    cbn [negb andb]; cbn [fst snd]; try done.
  - destruct (in_use (rd st (next_phys (rd st b))) =? 0); cbn [fst snd]; done.
  - destruct (in_use (rd st (prev_phys (rd st b))) =? 0); cbn [fst snd]; done.
  - destruct (in_use (rd st (prev_phys (rd st b))) =? 0);
      destruct (in_use (rd st (next_phys (rd st b))) =? 0);
      cbn [negb andb]; cbn [fst snd]; try done.
    + destruct (in_use (rd st (next_phys (rd st b))) =? 1);
        rewrite ?andb_false_r; cbn [fst snd]; [|done].
      intros E. by apply Hmp in E.
    + destruct (in_use (rd st (prev_phys (rd st b))) =? 1); cbn [fst snd andb];
        done.
    + rewrite ?andb_false_r. cbn [fst snd]. done.
Qed.

(** The tail branch of [my_free]. *)
Lemma my_free_tail_eq st p :
  p <> NULL ->
  next_phys (rd (fst (coalesce st (data_to_block p)))
                (snd (coalesce st (data_to_block p)))) = NULL ->
  my_free st p
  = set_brk (unlink_block (fst (coalesce st (data_to_block p))))
            (snd (coalesce st (data_to_block p))).
Proof.
  intros Hp Hn. unfold my_free.
  destruct (Z.eqb_spec p NULL) as [|_]; [done|].
  destruct (coalesce st (data_to_block p)) as [st1 m]. cbn [fst snd] in *.
  rewrite Hn. reflexivity.
Qed.

Lemma unlink_block_lists st fl :
  lists_ok st fl -> lists_ok (unlink_block st) fl.
Proof.
  intros H. unfold unlink_block. bool_cases; [done|..].
  - by apply lists_ok_set_heap_tail.
  - apply lists_ok_set_heap_tail. apply lists_ok_store_phys; auto.
Qed.

Lemma bins_unlink_block st : bins (unlink_block st) = bins st.
Proof. unfold unlink_block. bool_cases; by ph_rw. Qed.

Lemma prev_phys_unlink_block st c :
  prev_phys (rd (unlink_block st) c) = prev_phys (rd st c).
Proof. unfold unlink_block. bool_cases; by ph_rw. Qed.

Lemma unlink_block_tail st :
  heap_tail st <> NULL ->
  heap_tail (unlink_block st) = prev_phys (rd st (heap_tail st))
  /\ (prev_phys (rd st (heap_tail st)) <> NULL ->
      next_phys (rd (unlink_block st) (prev_phys (rd st (heap_tail st)))) = NULL).
Proof.
  intros Ht. unfold unlink_block.
  destruct (Z.eqb_spec (heap_tail st) NULL) as [|_]; [done|].
  destruct (Z.eqb_spec (prev_phys (rd st (heap_tail st))) NULL) as [E|E];
    ph_rw; [done|]. split; [done|]. intros _. by dec_rw.
Qed.

(** ** Running a list of calls *)

Lemma exec_run ok chk b0 fuel cs :
  (forall n st, chk n st = true -> ok n st) ->
  forall st ps st' ps',
    run ok b0 st ps -> exec chk fuel cs st ps = Some (st', ps') ->
    run ok b0 st' ps'.
Proof.
  intros Hchk.
  induction cs as [|[n|p] cs IH]; intros st ps st' ps' Hrun; cbn [exec].
  - intros [= <- <-]. done.
  - case_bool_decide as Hn; [|done].
    destruct (my_malloc fuel st n) as [[st1 p]|] eqn:E; [|done].
    destruct (chk n st1) eqn:Ec; [|done].
    apply IH. apply (run_malloc _ _ st ps fuel n); auto.
  - case_bool_decide as Hp; [|done].
    apply IH. by apply run_free.
Qed.

Lemma any_chk_ok n st : any_chk n st = true -> any_call n st.
Proof. done. Qed.

Lemma small_chk_ok b0 n st : small_chk b0 n st = true -> small_call b0 n st.
Proof.
  unfold small_chk, small_call, fits. intros [H1 H2]%andb_prop.
  apply Z.leb_le in H1, H2. done.
Qed.

Lemma walk_live st n :
  forall b x, b = NULL \/ live st b -> x ∈ walk n st b -> live st x.
Proof.
  induction n as [|n IH]; intros b x Hb; cbn [walk].
  - intros H. by apply elem_of_nil in H.
  - destruct (Z.eqb_spec b NULL) as [E|E].
    + intros H. by apply elem_of_nil in H.
    + destruct Hb as [|Hb]; [done|].
      intros [->|H]%elem_of_cons; [done|].
      apply (IH (prev_phys (rd st b))); [|done].
      destruct (decide (prev_phys (rd st b) = NULL)); [by left|].
      right. by apply live_prev.
Qed.

Lemma walk_tail_live st n x :
  bool_decide (x ∈ walk n st (heap_tail st)) = true -> live st x.
Proof.
  intros H%bool_decide_eq_true. apply (walk_live st n (heap_tail st)); [|done].
  destruct (decide (heap_tail st = NULL)); [by left|]. right. by apply live_tail.
Qed.

(** C3: the coalescing invariant is lost once a request does not fit an
    [int].  The calls of [five_gib_calls] respect the preconditions; the
    last one splits the 3 GiB block for a request of [2 ^ 31] bytes and
    writes the residual over the first block, at 4096, which the caller
    holds.  The free block at 2147487640 then has a free predecessor. *)
Lemma adjacent_free_after_large_split :
  exists st ps,
    exec any_chk 2 five_gib_calls (init 4096) [] = Some (st, ps)
    /\ run any_call 4096 st ps
    /\ live st 2147487640
    /\ in_use (rd st 2147487640) = 0
    /\ prev_phys (rd st 2147487640) = 4096
    /\ in_use (rd st 4096) = 0
    /\ ~ no_adjacent_free st.
Proof.
  eexists _, _. split; [vm_compute; reflexivity|].
  match goal with |- run _ _ ?s _ /\ _ => set (st := s) end.
  assert (Hlive : live st 2147487640).
  { apply (walk_tail_live st 5). vm_compute. reflexivity. }
  split.
  { eapply (exec_run any_call any_chk 4096 2 five_gib_calls any_chk_ok);
      [apply run_init|]. vm_compute. reflexivity. }
  split; [done|].
  split; [vm_compute; reflexivity|].
  split; [vm_compute; reflexivity|].
  split; [vm_compute; reflexivity|].
  intros H. destruct (H 2147487640 Hlive) as [_ [E|E]];
    [vm_compute; reflexivity|vm_compute in E; discriminate..].
Qed.

(** * The claims of the specification *)

(** ** Null and zero (C8) *)

(** C8: [my_malloc(0)] returns the null pointer and [my_free(NULL)] returns
    at once; both leave the whole state (every bin, [heap_tail], every block
    header and the break) as it was, so the pair
    [my_free(my_malloc(0))] changes nothing. *)
Theorem malloc_zero_free_null_noop fuel st :
  my_malloc fuel st 0 = Some (st, NULL)
  /\ my_free st NULL = st
  /\ (forall st' p, my_malloc fuel st 0 = Some (st', p) ->
        p = NULL /\ my_free st' p = st).
Proof.
  split; [reflexivity|]. split; [reflexivity|].
  intros st' p E. change (my_malloc fuel st 0) with (Some (st, NULL)) in E.
  injection E as <- <-. split; reflexivity.
Qed.

(** ** Size classes (C9) *)

(** C9, as stated, fails for the seven largest sizes: the next multiple of 8
    above [4294967295] is [2 ^ 32], and [round_up_size] answers [0]. *)
Lemma round_up_size_wraps :
  0 < 4294967295 <= UINT_MAX
  /\ round_up_size 4294967295 = 0
  /\ spec_round_up 4294967295 = 4294967296.
Proof. vm_compute. split; [split; [reflexivity|discriminate]|]. split; reflexivity. Qed.

(** C9 (amended): for every [unsigned int] size [s], [round_up_size s] is the
    specification's rounding reduced modulo [2 ^ 32]; it is that rounding
    itself for [s <= 2 ^ 32 - 8] and [0] above.  [size_to_bin s] is
    [(round_up_size s - 16) / 8] in unsigned arithmetic, clamped to the
    overflow bin. *)
Theorem round_up_size_size_to_bin s :
  0 <= s <= UINT_MAX ->
  round_up_size s = to_uint (spec_round_up s)
  /\ (s <= 2 ^ 32 - 8 -> round_up_size s = spec_round_up s)
  /\ (2 ^ 32 - 8 < s -> round_up_size s = 0)
  /\ size_to_bin s
     = Z.min OVERFLOW_BIN
             (to_uint (round_up_size s - MINIMUM_ALLOCATION) / SIZE_MULTIPLE).
Proof.
  intros Hs. unfold UINT_MAX in Hs.
  assert (E : round_up_size s
              = if decide (s = 0) then 0 else if decide (s < 16) then 16
                else 8 * (((s + 7) mod 2 ^ 32) / 8)).
  { apply round_up_size_eq. lia. }
  assert (Esp : spec_round_up s
                = if decide (0 < s <= 16) then 16 else 8 * ((s + 7) / 8)).
  { unfold spec_round_up.
    destruct (Z.ltb_spec 0 s), (Z.leb_spec s 16); cbn [andb];
      destruct (decide (0 < s <= 16)); first [reflexivity|lia]. }
  split; [|split; [|split]].
  - rewrite E, Esp. clear E Esp. unfold to_uint. repeat case_decide; dlia.
  - intros Hle. rewrite E, Esp. clear E Esp.
    repeat case_decide; rewrite ?Z.mod_small by lia; first [done|dlia].
  - intros Hgt. rewrite E. clear E Esp. repeat case_decide; dlia.
  - unfold size_to_bin. cbv zeta.
    destruct (Z.gtb_spec (to_uint (round_up_size s - MINIMUM_ALLOCATION)
                          / SIZE_MULTIPLE) OVERFLOW_BIN); lia.
Qed.

Lemma round_up_size_size_to_bin_at_100 :
  round_up_size 100 = 104 /\ spec_round_up 100 = 104 /\ size_to_bin 100 = 11.
Proof.
  destruct (round_up_size_size_to_bin 100) as (E1 & E2 & _ & E4);
    [vm_compute; split; discriminate|].
  split; [|split].
  - rewrite E2 by (vm_compute; discriminate). reflexivity.
  - reflexivity.
  - rewrite E4. reflexivity.
Defined.

(** ** The block [coalesce] returns (C4) *)

(** [coalesce] merges nothing when both neighbours are in use or absent. *)
Lemma coalesce_none st b :
  (prev_phys (rd st b) = NULL \/ in_use (rd st (prev_phys (rd st b))) = 1) ->
  (next_phys (rd st b) = NULL \/ in_use (rd st (next_phys (rd st b))) = 1) ->
  coalesce st b = (st, b).
Proof.
  intros Hp Hn. rewrite coalesce_eq. cbv zeta.
  destruct (Z.eqb_spec (prev_phys (rd st b)) NULL) as [Ep|Ep];
    destruct (Z.eqb_spec (next_phys (rd st b)) NULL) as [En|En];
    cbn [negb andb]; try done.
  - destruct Hn as [?| ->]; done.
  - destruct Hp as [?| ->]; done.
  - destruct Hp as [?| ->]; [done|]. destruct Hn as [?| ->]; done.
Qed.





(** ** Splitting (C5) *)

(** C5: [split_block] misplaces the residual when [want] plus the header
    does not fit an [int]: with a block of 2147483624 bytes at 4096 in use,
    the free block of 4294967272 bytes at 2147487744 split at 2147483624
    gets its residual at [2147487744 - 2 ^ 31 = 4096], over the header of
    the block in use, and not at [2147487744 + 24 + 2147483624]. *)
Lemma split_block_offset_wraps :
  exists st ps,
    exec any_chk 1
      [Malloc 2147483624; Malloc 4294967272; Malloc 16; Free 2147487768]
      (init 4096) [] = Some (st, ps)
    /\ size (rd st 2147487744) = 4294967272
    /\ in_use (rd st 2147487744) = 0
    /\ MINIMUM_BLOCK_SIZE <= 4294967272 - 2147483624
    /\ in_use (rd st 4096) = 1
    /\ next_phys (rd (fst (split_block st 2147487744 2147483624)) 2147487744)
       = 4096
    /\ in_use (rd (fst (split_block st 2147487744 2147483624)) 4096) = 0
    /\ 4096 < 2147487744 + BLOCK_HEADER_SIZE + 2147483624.
Proof.
  eexists _, _. split; [vm_compute; reflexivity|].
  repeat split; vm_compute; first [reflexivity|discriminate].
Qed.

Lemma insert_into_bin_head st b :
  length (bins st) = Z.to_nat NUM_BINS ->
  bin (insert_into_bin st b) (size_to_bin (size (rd st b))) = b
  /\ prev_free (rd (insert_into_bin st b) b) = NULL.
Proof.
  intros Hlen. pose proof (size_to_bin_range (size (rd st b))) as Hk.
  unfold insert_into_bin.
  destruct (Z.eqb_spec (bin st (size_to_bin (size (rd st b)))) NULL);
    (split; [rewrite bin_set_bin by (st_rw; ulia); by dec_rw|]);
    st_rw; by dec_rw.
Qed.

Lemma residual_size sz a :
  0 <= a -> a + MINIMUM_BLOCK_SIZE <= sz < 2 ^ 32 ->
  to_uint (to_int (to_int sz - a) - BLOCK_HEADER_SIZE) = sz - a - 24.
Proof.
  intros Ha Hsz. unfold to_uint, to_int.
  unfold MINIMUM_BLOCK_SIZE, MINIMUM_ALLOCATION, BLOCK_HEADER_SIZE in *.
  simpl Z.add in *. change (2 ^ 32) with 4294967296 in *.
  change (2 ^ 31) with 2147483648. dlia.
Qed.

(** [split_block] field by field, for an offset that fits an [int] and a
    block whose successor, if any, lies right behind its payload. *)
Lemma split_block_fields st b want :
  0 < b -> 0 <= want -> want + BLOCK_HEADER_SIZE <= INT_MAX ->
  want + MINIMUM_BLOCK_SIZE <= size (rd st b) < 2 ^ 32 ->
  next_phys (rd st b) = NULL
  \/ next_phys (rd st b) = b + BLOCK_HEADER_SIZE + size (rd st b) ->
  length (bins st) = Z.to_nat NUM_BINS ->
  let st' := fst (split_block st b want) in
  let r := b + BLOCK_HEADER_SIZE + want in
  snd (split_block st b want) = b
  /\ size (rd st' b) = want /\ in_use (rd st' b) = 1
  /\ size (rd st' r) = size (rd st b) - want - BLOCK_HEADER_SIZE
  /\ in_use (rd st' r) = 0
  /\ next_phys (rd st' b) = r /\ prev_phys (rd st' r) = b
  /\ next_phys (rd st' r) = next_phys (rd st b)
  /\ (next_phys (rd st b) <> NULL ->
      prev_phys (rd st' (next_phys (rd st b))) = r
      /\ heap_tail st' = heap_tail st)
  /\ (next_phys (rd st b) = NULL -> heap_tail st' = r)
  /\ bin st' (size_to_bin (size (rd st' r))) = r
  /\ prev_free (rd st' r) = NULL
  /\ brk st' = brk st.
Proof.
  intros Hb Hw Hoff Hsz Hnext Hlen. cbv zeta.
  unfold split_block, ptr_add_bytes. cbn [fst snd].
  rewrite (to_int_id (want + BLOCK_HEADER_SIZE)) by ulia.
  rewrite (to_uint_id want) by ulia.
  rewrite residual_size by ulia. rewrite !next_phys_remove_block.
  remember (next_phys (rd st b)) as n eqn:En.
  remember (b + (want + BLOCK_HEADER_SIZE)) as r eqn:Er.
  replace (b + BLOCK_HEADER_SIZE + want) with r by ulia.
  assert (Hrb : r <> b) by ulia.
  assert (Hrn : n = NULL \/ (n <> r /\ n <> b)) by ulia.
  match goal with
  | |- context [insert_into_bin ?s r] =>
      remember s as st2 eqn:Est2;
      assert (Hsz2 : size (rd st2 r) = size (rd st b) - want - 24);
      [|assert (Hlen2 : length (bins st2) = Z.to_nat NUM_BINS);
        [|destruct (insert_into_bin_head st2 r Hlen2) as [Hbin Hpf]]]
  end.
  - subst st2. destruct (Z.eqb_spec n NULL); cbn [negb]; ph_rw; by dec_rw.
  - subst st2. destruct (Z.eqb_spec n NULL); cbn [negb]; st_rw;
      by rewrite length_bins_remove_block.
  - rewrite !size_insert_into_bin, Hbin, Hpf. subst st2.
    destruct (Z.eqb_spec n NULL) as [E|E]; cbn [negb] in *; ph_rw; dec_rw.
    + repeat split; first [done|ulia].
    + destruct Hrn as [|[? ?]]; [done|]. dec_rw.
      repeat split; first [done|ulia].
Qed.

(** ** The block an allocation hands out *)

Lemma served_post base st bl n fuel s st' b :
  malloc_post base st bl n st' b -> served n (malloc_tail fuel s (st', b)).
Proof.
  intros (bl' & fl' & [Hp' _ _] & Hb' & Hu & Hsz & _).
  pose proof (block_pos _ _ _ _ Hp' Hb') as Hpos.
  exists st', b. split; [apply malloc_tail_found; ulia|]. done.
Qed.

(** The used part of a split keeps its address and gets the request as its
    size. *)
Lemma split_block_used st b s :
  0 <= s -> s + MINIMUM_BLOCK_SIZE <= size (rd st b) < 2 ^ 32 ->
  in_use (rd (fst (split_block st b (to_int s))) b) = 1
  /\ size (rd (fst (split_block st b (to_int s))) b) = s.
Proof.
  intros Hs Hsz. unfold split_block, ptr_add_bytes. cbn [fst].
  assert (Hoff : b + to_int (to_int s + BLOCK_HEADER_SIZE) <> b).
  { unfold to_int, MINIMUM_BLOCK_SIZE, MINIMUM_ALLOCATION, BLOCK_HEADER_SIZE in *.
    simpl Z.add in *. change (2 ^ 32) with 4294967296 in *.
    change (2 ^ 31) with 2147483648 in *. dlia. }
  rewrite to_uint_to_int_id by ulia.
  destruct (negb (next_phys (rd (remove_block st b) b) =? NULL));
    ph_rw; dec_rw; done.
Qed.

Lemma served_search base st bl fl n fuel s :
  wf base st bl fl -> size_ok s -> n <= s ->
  (length (fl OVERFLOW_BIN) < fuel)%nat ->
  served n (malloc_tail fuel s (st, NULL)).
Proof.
  intros Hwf Hs Hns Hfuel. pose proof Hwf as [Hp Hl Hm].
  pose proof (po_base _ _ _ Hp) as Hbase.
  assert (Hov : 0 <= OVERFLOW_BIN < NUM_BINS) by ulia.
  unfold malloc_tail. change (NULL =? NULL) with true. cbv iota.
  rewrite (first_fit_spec st s (fl OVERFLOW_BIN) NULL); [|by apply Hl|done].
  destruct (first_large st s (fl OVERFLOW_BIN)) as [b|] eqn:Efl.
  - apply first_large_spec in Efl as [Hb Hsb].
    destruct (mo_in _ _ _ Hm _ _ Hb) as [Hbb Hbu].
    pose proof (block_pos _ _ _ _ Hp Hbb) as Hbpos.
    pose proof (po_block _ _ _ Hp b Hbb) as (_ & Sb & _).
    assert (Ed : to_uint (size (rd st b) - s) = size (rd st b) - s).
    { apply to_uint_id. ulia. }
    rewrite Ed.
    destruct (Z.geb_spec (size (rd st b) - s) MINIMUM_BLOCK_SIZE) as [Hd|Hd].
    + destruct (split_block_used st b s) as [Hu Hsz]; [ulia..|].
      destruct (split_block st b (to_int s)) as [st' b'] eqn:Esp.
      assert (b' = b) as -> by (by apply (f_equal snd) in Esp).
      cbn [fst] in *.
      destruct (Z.eqb_spec b NULL) as [|_]; [ulia|].
      exists st', b. split; [done|]. split; [done|]. split; [done|lia].
    + destruct (Z.eqb_spec b NULL) as [|_]; [ulia|].
      eexists _, b. split; [done|]. ph_rw. dec_rw. split; [done|].
      split; [done|lia].
  - change (NULL =? NULL) with true. cbv iota.
    destruct (grow_post base st bl fl s n Hwf Hs Hns)
      as (bl' & fl' & _ & _ & Hu & Hsz & _).
    destruct (grow_heap_wf _ _ _ _ _ Hwf Hs) as (_ & Eg & _).
    destruct (grow_heap st s) as [st' b] eqn:Egr. cbn [fst snd] in *. subst b.
    exists st', (brk st). split; [done|]. split; [lia|]. done.
Qed.

Lemma my_malloc_served base st bl fl n fuel :
  wf base st bl fl -> 0 < n <= 2 ^ 32 - 8 ->
  (length (fl OVERFLOW_BIN) < fuel)%nat ->
  served n (my_malloc fuel st n).
Proof.
  intros Hwf Hn Hfuel. pose proof Hwf as [Hp Hl Hm].
  rewrite my_malloc_eq by lia.
  destruct (round_up_size_spec n Hn) as [Hs Hns].
  remember (round_up_size n) as s eqn:Es. clear Es.
  unfold small_bins.
  pose proof (size_to_bin_range s) as Hk.
  destruct (Z.ltb_spec (size_to_bin s) OVERFLOW_BIN) as [Hsmall|Hsmall];
    cbn [andb]; [|apply (served_search base _ bl fl); first [done|lia]].
  assert (Hs512 : s <= 512).
  { rewrite size_to_bin_eq in Hsmall by done. case_decide; ulia. }
  destruct (Z.eqb_spec (bin st (size_to_bin s)) NULL) as [Eb|Eb]; cbn [negb].
  - pose proof (small_scan_spec st (Z.to_nat OVERFLOW_BIN)
                  (size_to_bin (to_uint (s + MINIMUM_BLOCK_SIZE))) s) as Hscan.
    cbv zeta in Hscan.
    destruct (small_scan (Z.to_nat OVERFLOW_BIN) st
                (size_to_bin (to_uint (s + MINIMUM_BLOCK_SIZE))) s)
      as [st1 bts].
    cbn [fst snd] in Hscan.
    destruct Hscan as [[-> ->]|(j & Hj & -> & Hbj & Hroom & ->)].
    + change (NULL =? NULL) with true. cbn [negb].
      apply (served_search base _ bl fl); first [done|lia].
    + destruct (Z.eqb_spec (bin st j) NULL) as [|_]; [done|]. cbn [negb].
      assert (Hj' : 0 <= j < NUM_BINS).
      { pose proof (size_to_bin_range (to_uint (s + MINIMUM_BLOCK_SIZE))). ulia. }
      destruct (bin_head _ _ _ Hl Hj' Hbj) as [Hin Hpf].
      remember (bin st j) as b eqn:Ebdef.
      destruct (mo_in _ _ _ Hm _ _ Hin) as [Hbb Hbu].
      destruct (lo_bin _ _ Hl _ _ Hin) as [_ Ebin].
      pose proof (po_block _ _ _ Hp b Hbb) as (_ & Sb & _).
      assert (Hsize : s + MINIMUM_BLOCK_SIZE <= size (rd st b) <= 512).
      { rewrite size_to_bin_eq in Ebin by done.
        rewrite to_uint_id in Hj by ulia.
        rewrite size_to_bin_eq in Hj by ulia.
        repeat case_decide; ulia. }
      rewrite split_block_after_remove by done.
      rewrite to_int_id by ulia.
      rewrite (surjective_pairing (split_block st b s)).
      change (snd (split_block st b s)) with b.
      apply (served_post base st bl).
      apply (split_post _ _ _ fl j); try done; ulia.
  - assert (Hk' : 0 <= size_to_bin s < NUM_BINS) by ulia.
    destruct (bin_head _ _ _ Hl Hk' Eb) as [Hin Hpf].
    remember (bin st (size_to_bin s)) as b eqn:Ebdef.
    destruct (mo_in _ _ _ Hm _ _ Hin) as [Hbb Hbu].
    destruct (lo_bin _ _ Hl _ _ Hin) as [_ Ebin].
    pose proof (po_block _ _ _ Hp b Hbb) as (_ & Sb & _).
    assert (size (rd st b) = s).
    { apply size_to_bin_small_inj; try done. rewrite Ebin. ulia. }
    apply (served_post base st bl).
    apply (take_post _ _ _ fl (size_to_bin s)); try done. lia.
Qed.

(** ** What [my_malloc] returns (C1) *)

(** C1: the largest requests get no memory.  [round_up_size] wraps
    [4294967295] to [0], and on the empty heap [my_malloc] answers the
    pointer 4120 of a block marked in use whose recorded payload size is
    [0]; the break lies right behind the header. *)
Lemma malloc_max_request_size_zero :
  exists st,
    0 < 4294967295 <= UINT_MAX
    /\ my_malloc 1 (init 4096) 4294967295 = Some (st, 4120)
    /\ data_to_block 4120 = 4096
    /\ in_use (rd st 4096) = 1
    /\ size (rd st 4096) = 0
    /\ brk st = 4096 + BLOCK_HEADER_SIZE.
Proof.
  eexists. split; [vm_compute; split; [reflexivity|discriminate]|].
  split; [vm_compute; reflexivity|].
  repeat split; vm_compute; reflexivity.
Qed.

(** ** Scenario S2 (C7) *)

Lemma small_scan_empty st sz n :
  bins_empty st ->
  forall index, 0 <= index -> small_scan n st index sz = (st, NULL).
Proof.
  intros He. induction n as [|n IH]; intros index Hi; cbn [small_scan]; [done|].
  destruct (Z.ltb_spec index OVERFLOW_BIN) as [Hlt|]; [|done].
  rewrite (He index) by ulia. change (NULL =? NULL) with true. cbn [negb].
  apply IH. lia.
Qed.

(** With every bin empty, a request is served by growing the heap. *)
Lemma my_malloc_empty_bins fuel st n :
  bins_empty st -> n <> 0 -> (0 < fuel)%nat ->
  my_malloc fuel st n
  = Some (fst (grow_heap st (round_up_size n)), block_to_data (brk st)).
Proof.
  intros He Hn Hfuel. rewrite my_malloc_eq by done.
  remember (round_up_size n) as s eqn:Es.
  pose proof (size_to_bin_range s) as Hk.
  pose proof (size_to_bin_range (to_uint (s + MINIMUM_BLOCK_SIZE))) as Hk'.
  assert (Esb : small_bins st s = (st, NULL)).
  { unfold small_bins. rewrite (He (size_to_bin s)) by ulia.
    change (NULL =? NULL) with true. cbn [negb]. rewrite andb_false_r, andb_true_r.
    destruct (size_to_bin s <? OVERFLOW_BIN); [|done].
    rewrite small_scan_empty by (first [done|lia]). done. }
  rewrite Esb. unfold malloc_tail. change (NULL =? NULL) with true. cbv iota.
  destruct fuel as [|fuel]; [lia|]. cbn [first_fit].
  rewrite (He OVERFLOW_BIN) by ulia. change (NULL =? NULL) with true. cbv iota.
  reflexivity.
Qed.

Lemma grow_heap_first st sz :
  heap_tail st = NULL ->
  let st' := fst (grow_heap st sz) in
  heap_tail st' = brk st /\ brk st' = brk st + sz + BLOCK_HEADER_SIZE
  /\ prev_phys (rd st' (brk st)) = NULL /\ next_phys (rd st' (brk st)) = NULL
  /\ in_use (rd st' (brk st)) = 1 /\ size (rd st' (brk st)) = sz
  /\ bins st' = bins st.
Proof.
  intros Ht. cbv zeta. unfold grow_heap, sbrk, link_onto_end. cbn [fst snd].
  ph_rw. rewrite Ht. change (NULL =? NULL) with true. cbv iota.
  ph_rw. dec_rw. repeat split; first [done|lia].
Qed.

(** Freeing the only block of the heap gives the heap back. *)
Lemma my_free_only_block st p :
  p <> NULL -> data_to_block p <> NULL ->
  heap_tail st = data_to_block p ->
  prev_phys (rd st (data_to_block p)) = NULL ->
  next_phys (rd st (data_to_block p)) = NULL ->
  my_free st p = set_brk (set_heap_tail st NULL) (data_to_block p).
Proof.
  intros Hp Hb Ht Hpp Hnp.
  assert (Ec : coalesce st (data_to_block p) = (st, data_to_block p)).
  { rewrite coalesce_eq. cbv zeta. rewrite Hpp, Hnp.
    change (NULL =? NULL) with true. reflexivity. }
  rewrite my_free_tail_eq by (rewrite ?Ec; done).
  rewrite Ec. cbn [fst snd]. unfold unlink_block. rewrite Ht.
  destruct (Z.eqb_spec (data_to_block p) NULL) as [|_]; [done|].
  rewrite Hpp. change (NULL =? NULL) with true. cbv iota. done.
Qed.

(** C7, as stated, fails: the block freed in S2 is the tail of the heap, so
    [my_free] gives it back and no bin holds it.  With the break at 4096
    initially, [B1 = 4096] after the free and the second allocation moves the
    break to 4144. *)
Lemma s2_second_allocation_moves_break :
  exists st1 p1 st3 p3,
    my_malloc 1 (init 4096) 24 = Some (st1, p1)
    /\ brk (my_free st1 p1) = 4096
    /\ bins (my_free st1 p1) = bins (init 4096)
    /\ my_malloc 1 (my_free st1 p1) 24 = Some (st3, p3)
    /\ brk st3 = 4144
    /\ brk (my_free st1 p1) < brk st3.
Proof.
  eexists _, _, _, _. split; [vm_compute; reflexivity|].
  split; [vm_compute; reflexivity|].
  split; [vm_compute; reflexivity|].
  split; [vm_compute; reflexivity|].
  split; vm_compute; reflexivity.
Qed.

(** C7 (amended): starting from the empty heap with the break at [b0], the
    allocation of 24 bytes grows the heap by [24 + header]; freeing that
    pointer gives the block back, so the break [B1] recorded afterwards is
    [b0] again and every bin is empty; the second allocation of 24 bytes is
    served by growing the heap again, returns the same pointer, and leaves
    the break at [B1 + 24 + header]. *)
Theorem s2_second_allocation_grows b0 fuel :
  0 < b0 -> (0 < fuel)%nat ->
  exists st1 st3,
    my_malloc fuel (init b0) 24 = Some (st1, b0 + BLOCK_HEADER_SIZE)
    /\ brk st1 = b0 + 24 + BLOCK_HEADER_SIZE
    /\ brk (my_free st1 (b0 + BLOCK_HEADER_SIZE)) = b0
    /\ heap_tail (my_free st1 (b0 + BLOCK_HEADER_SIZE)) = NULL
    /\ bins_empty (my_free st1 (b0 + BLOCK_HEADER_SIZE))
    /\ my_malloc fuel (my_free st1 (b0 + BLOCK_HEADER_SIZE)) 24
       = Some (st3, b0 + BLOCK_HEADER_SIZE)
    /\ brk st3 = b0 + 24 + BLOCK_HEADER_SIZE.
Proof.
  intros Hb Hfuel.
  assert (He0 : bins_empty (init b0)) by (intros i Hi; by apply bin_init).
  assert (Hr : round_up_size 24 = 24) by reflexivity.
  pose proof (my_malloc_empty_bins fuel (init b0) 24 He0 ltac:(lia) Hfuel) as E1.
  rewrite Hr in E1.
  destruct (grow_heap_first (init b0) 24 eq_refl)
    as (Ht1 & Hbrk1 & Hpp1 & Hnp1 & _ & _ & Hbins1).
  remember (fst (grow_heap (init b0) 24)) as st1 eqn:Est1.
  change (brk (init b0)) with b0 in *.
  rewrite block_to_data_eq in E1.
  change (b0 + BLOCK_HEADER_SIZE) with (b0 + 24).
  assert (Ed : data_to_block (b0 + 24) = b0) by (rewrite data_to_block_eq; lia).
  assert (Ef : my_free st1 (b0 + 24) = set_brk (set_heap_tail st1 NULL) b0).
  { rewrite my_free_only_block; rewrite ?Ed; try done; ulia. }
  assert (He2 : bins_empty (my_free st1 (b0 + 24))).
  { intros i Hi. rewrite Ef. st_rw. rewrite (bin_ext (init b0) st1) by done.
    by apply He0. }
  pose proof (my_malloc_empty_bins fuel _ 24 He2 ltac:(lia) Hfuel) as E3.
  rewrite Hr, block_to_data_eq in E3.
  assert (Ht2 : heap_tail (my_free st1 (b0 + 24)) = NULL) by (rewrite Ef; by st_rw).
  assert (Hbrk2 : brk (my_free st1 (b0 + 24)) = b0) by (rewrite Ef; by st_rw).
  destruct (grow_heap_first _ 24 Ht2) as (_ & Hbrk3 & _).
  rewrite Hbrk2 in E3, Hbrk3.
  exists st1, (fst (grow_heap (my_free st1 (b0 + 24)) 24)).
  repeat split; first [done|ulia].
Qed.

Lemma s2_second_allocation_grows_from_4096 :
  exists st1 st3,
    my_malloc 1 (init 4096) 24 = Some (st1, 4120)
    /\ brk st1 = 4144
    /\ brk (my_free st1 4120) = 4096
    /\ heap_tail (my_free st1 4120) = NULL
    /\ bins_empty (my_free st1 4120)
    /\ my_malloc 1 (my_free st1 4120) 24 = Some (st3, 4120)
    /\ brk st3 = 4144.
Proof. apply (s2_second_allocation_grows 4096 1); lia. Defined.

(** ** Releasing the tail block (C2) *)

(** C2: when the block [m] that [coalesce] returns has no successor,
    [my_free] takes it off the physical list: the predecessor of [m]
    becomes [heap_tail] and gets [next_phys = NULL], or [heap_tail] becomes
    [NULL] when there is none, and no block still on the list is at or above
    [m]; the break is lowered to the address of [m]; the bins are as
    [coalesce] left them and no free list holds [m]. *)
Theorem my_free_tail_block base st bl fl p :
  wf base st bl fl -> allocated st bl p ->
  let st1 := fst (coalesce st (data_to_block p)) in
  let m := snd (coalesce st (data_to_block p)) in
  next_phys (rd st1 m) = NULL ->
  let st' := my_free st p in
  p <> NULL
  /\ heap_tail st' = prev_phys (rd st1 m)
  /\ (prev_phys (rd st1 m) <> NULL ->
      next_phys (rd st' (prev_phys (rd st1 m))) = NULL)
  /\ (forall c, live st' c -> c ∈ bl /\ c < m)
  /\ brk st' = m
  /\ bins st' = bins st1
  /\ (forall i, 0 <= i < NUM_BINS -> bin st' i <> m)
  /\ exists fl', lists_ok st' fl' /\ forall i, m ∉ fl' i.
Proof.
  intros Hwf [Hb Hu]. cbv zeta. intros Hn.
  pose proof Hwf as [Hp Hl Hm].
  pose proof (block_pos _ _ _ _ Hp Hb) as Hbpos.
  assert (Hpn : p <> NULL) by (rewrite data_to_block_eq in Hbpos; ulia).
  pose proof (coalesce_block _ _ _ _ Hp Hb) as Hmb.
  pose proof (block_pos _ _ _ _ Hp Hmb) as Hmpos.
  pose proof (coalesce_tail _ _ _ _ Hp Hb Hn) as Ht.
  pose proof (coalesce_tail_prev_phys st (data_to_block p)) as Hprev.
  destruct (coalesce_lists _ _ _ _ _ Hwf Hb Hu) as (fl1 & Hl1 & Hnl).
  rewrite (my_free_tail_eq st p Hpn Hn).
  remember (data_to_block p) as b eqn:Eb.
  remember (fst (coalesce st b)) as st1 eqn:Est1.
  remember (snd (coalesce st b)) as m eqn:Em.
  destruct (unlink_block_tail st1) as [Hut Hun]; [rewrite Ht; ulia|].
  rewrite Ht in Hut, Hun.
  assert (Hlists : lists_ok (set_brk (unlink_block st1) m) fl1).
  { by apply lists_ok_set_brk, unlink_block_lists. }
  split; [done|]. split; [by st_rw|]. split; [intros Hpm; st_rw; auto|].
  split; [|split; [by st_rw|split; [st_rw; apply bins_unlink_block|split]]].
  - assert (Hpp : forall c, prev_phys (rd (set_brk (unlink_block st1) m) c)
                            = prev_phys (rd st c)).
    { intros c. st_rw. rewrite prev_phys_unlink_block. by apply Hprev. }
    intros c Hc. induction Hc as [Ht'|c Hc [IHb IHm] Hpc].
    + revert Ht'. st_rw. rewrite Hut, Hprev by done. intros Hpm.
      destruct (prev_block _ _ _ _ Hp Hmb Hpm) as (Hin & _ & E).
      pose proof (block_size _ _ _ _ Hp Hin). split; [done|lia].
    + rewrite Hpp in *.
      destruct (prev_block _ _ _ _ Hp IHb Hpc) as (Hin & _ & E).
      pose proof (block_size _ _ _ _ Hp Hin). split; [done|lia].
  - intros i Hi E.
    destruct (bin_head _ _ _ Hlists Hi) as [Hin _]; [rewrite E; ulia|].
    rewrite E in Hin. by apply (Hnl i).
  - by exists fl1.
Qed.

Lemma my_free_tail_block_two_blocks :
  exists st ps,
    exec (small_chk 4096) 1 [Malloc 24; Malloc 24] (init 4096) [] = Some (st, ps)
    /\ snd (coalesce st (data_to_block 4168)) = 4144
    /\ heap_tail (my_free st 4168) = 4096
    /\ next_phys (rd (my_free st 4168) 4096) = NULL
    /\ brk (my_free st 4168) = 4144
    /\ (forall i, 0 <= i < NUM_BINS -> bin (my_free st 4168) i <> 4144).
Proof.
  eexists _, _. split; [vm_compute; reflexivity|].
  split; [vm_compute; reflexivity|].
  match goal with |- heap_tail (my_free ?s _) = _ /\ _ => set (st := s) end.
  destruct (run_small_inv 4096 st [4168; 4120]) as (bl & fl & Hwf & _ & Hall);
    [lia| |].
  { eapply (exec_run (small_call 4096) (small_chk 4096) 4096 1
              [Malloc 24; Malloc 24] (small_chk_ok 4096));
      [apply run_init|]. vm_compute. reflexivity. }
  destruct (my_free_tail_block 4096 st bl fl 4168 Hwf)
    as (_ & H1 & H2 & _ & H3 & _ & H4 & _).
  - apply Hall. left.
  - vm_compute. reflexivity.
  - change (prev_phys _) with 4096 in H1, H2.
    change (snd _) with 4144 in H3, H4.
    split; [exact H1|]. split; [apply H2; discriminate|].
    split; [exact H3|exact H4].
Defined.

(** ** First fit in the overflow bin (C6) *)

(** [small_bins] leaves the state alone when it finds nothing. *)
Lemma small_bins_null st s :
  snd (small_bins st s) = NULL -> small_bins st s = (st, NULL).
Proof.
  unfold small_bins.
  destruct (size_to_bin s <? OVERFLOW_BIN); cbn [andb]; [|done].
  destruct (Z.eqb_spec (bin st (size_to_bin s)) NULL) as [E|E]; cbn [negb];
    [|cbn [snd]; done].
  pose proof (small_scan_spec st (Z.to_nat OVERFLOW_BIN)
                (size_to_bin (to_uint (s + MINIMUM_BLOCK_SIZE))) s) as Hscan.
  cbv zeta in Hscan.
  destruct (small_scan (Z.to_nat OVERFLOW_BIN) st
              (size_to_bin (to_uint (s + MINIMUM_BLOCK_SIZE))) s) as [st1 bts].
  cbn [fst snd] in Hscan.
  destruct Hscan as [[-> ->]|(j & Hj & -> & Hbj & _ & ->)].
  - change (NULL =? NULL) with true. done.
  - destruct (Z.eqb_spec (bin st j) NULL) as [|_]; [done|]. cbn [negb].
    unfold split_block. cbn [snd]. done.
Qed.

(** [first_large] answers the first block of the list that is large enough. *)
Lemma first_large_first st sz l b :
  first_large st sz l = Some b ->
  exists l1 l2,
    l = l1 ++ b :: l2 /\ sz <= size (rd st b)
    /\ forall c, c ∈ l1 -> size (rd st c) < sz.
Proof.
  unfold first_large. induction l as [|x l IH]; cbn [List.find]; [done|].
  destruct (Z.geb_spec (size (rd st x)) sz) as [Hx|Hx].
  - intros [= ->]. exists [], l. split; [done|]. split; [lia|].
    intros c Hc. by apply elem_of_nil in Hc.
  - intros H. destruct (IH H) as (l1 & l2 & -> & Hb & Hl1).
    exists (x :: l1), l2. split; [done|]. split; [done|].
    intros c [->|Hc]%elem_of_cons; auto.
Qed.

Lemma dseg_singleton st prev p l :
  dseg st prev p l NULL -> p <> NULL -> next_free (rd st p) = NULL -> l = [p].
Proof.
  destruct l as [|x l]; cbn [dseg]; [done|].
  intros (-> & _ & _ & Hd) _ Hn. rewrite Hn in Hd.
  destruct l as [|y l]; cbn [dseg] in Hd; [done|].
  by destruct Hd as (<- & ? & _).
Qed.

(** C6: a first fit whose split is not a split.  After three allocations
    and the release of the second, the request of 2147483624 bytes is served
    by first fit from the block at 2147487744, the only one of the overflow
    bin, whose size leaves far more than a minimum block.  The block gets
    the size of the request, but the residual is written at 4096, over the
    block the caller holds there: that block is now marked free and heads
    the overflow bin. *)
Lemma overflow_first_fit_split_wraps :
  exists st ps st',
    exec any_chk 1
      [Malloc 2147483624; Malloc 4294967272; Malloc 16; Free 2147487768]
      (init 4096) [] = Some (st, ps)
    /\ bin st OVERFLOW_BIN = 2147487744
    /\ next_free (rd st 2147487744) = NULL
    /\ size (rd st 2147487744) = 4294967272
    /\ round_up_size 2147483624 = 2147483624
    /\ MINIMUM_BLOCK_SIZE <= 4294967272 - 2147483624
    /\ (4120 ∈ ps) /\ in_use (rd st 4096) = 1
    /\ my_malloc 2 st 2147483624 = Some (st', 2147487768)
    /\ size (rd st' 2147487744) = 2147483624
    /\ next_phys (rd st' 2147487744) = 4096
    /\ in_use (rd st' 4096) = 0
    /\ bin st' OVERFLOW_BIN = 4096
    /\ 4096 < 2147487744 + BLOCK_HEADER_SIZE + 2147483624.
Proof.
  eexists _, _, _. split; [vm_compute; reflexivity|].
  split; [vm_compute; reflexivity|]. split; [vm_compute; reflexivity|].
  split; [vm_compute; reflexivity|]. split; [vm_compute; reflexivity|].
  split; [vm_compute; discriminate|].
  split; [apply (bool_decide_unpack _); vm_compute; exact I|].
  split; [vm_compute; reflexivity|].
  split; [vm_compute; reflexivity|].
  repeat split; vm_compute; reflexivity.
Qed.

(** ** Removing a head twice (C10) *)

(** C10: on a well-formed heap, removing the head of a bin a second time,
    with the links of the block left as they were, gives the state that
    removing it once gives.  So on the small-bin split path of [my_malloc],
    where the scan picks the head [b] of a larger small bin and removes it
    and [split_block] removes it again, the result is that of [split_block]
    on the state before the first removal, and bins and physical list are
    well formed again. *)
Theorem remove_block_head_twice_split_path base st bl fl :
  wf base st bl fl ->
  (forall k, 0 <= k < NUM_BINS -> bin st k <> NULL ->
     prev_free (rd st (bin st k)) = NULL
     /\ remove_block (remove_block st (bin st k)) (bin st k)
        = remove_block st (bin st k))
  /\ (forall n fuel,
        0 < n <= 2 ^ 32 - 8 ->
        let s := round_up_size n in
        let r := small_scan (Z.to_nat OVERFLOW_BIN) st
                   (size_to_bin (to_uint (s + MINIMUM_BLOCK_SIZE))) s in
        let b := snd r in
        size_to_bin s < OVERFLOW_BIN -> bin st (size_to_bin s) = NULL ->
        b <> NULL ->
        (exists k, 0 <= k < OVERFLOW_BIN /\ b = bin st k /\ b ∈ fl k)
        /\ fst r = remove_block st b
        /\ my_malloc fuel st n
           = Some (fst (split_block (remove_block st b) b (to_int s)),
                   block_to_data b)
        /\ split_block (remove_block st b) b (to_int s)
           = split_block st b (to_int s)
        /\ exists bl' fl',
             wf base (fst (split_block (remove_block st b) b (to_int s))) bl' fl'
             /\ in_use (rd (fst (split_block (remove_block st b) b (to_int s))) b)
                = 1).
Proof.
  intros Hwf. pose proof Hwf as [Hp Hl Hm]. split.
  - intros k Hk Hb. destruct (bin_head _ _ _ Hl Hk Hb) as [_ Hpf].
    split; [done|]. by apply remove_block_head_twice.
  - intros n fuel Hn. cbv zeta. intros Hsmall Eb.
    destruct (round_up_size_spec n Hn) as [Hs Hns].
    pose proof (my_malloc_eq fuel st n ltac:(lia)) as Em. revert Em.
    remember (round_up_size n) as s eqn:Es. clear Es.
    pose proof (small_scan_spec st (Z.to_nat OVERFLOW_BIN)
                  (size_to_bin (to_uint (s + MINIMUM_BLOCK_SIZE))) s) as Hscan.
    cbv zeta in Hscan. unfold small_bins.
    destruct (Z.ltb_spec (size_to_bin s) OVERFLOW_BIN) as [_|]; [|lia].
    rewrite Eb. change (NULL =? NULL) with true. cbn [negb andb].
    destruct (small_scan (Z.to_nat OVERFLOW_BIN) st
                (size_to_bin (to_uint (s + MINIMUM_BLOCK_SIZE))) s)
      as [st1 bts].
    cbn [fst snd] in *. intros Em Hbts.
    destruct Hscan as [[-> ->]|(j & Hj & -> & Hbj & Hroom & ->)]; [done|].
    destruct (Z.eqb_spec (bin st j) NULL) as [|_]; [done|]. cbn [negb] in Em.
    assert (Hj' : 0 <= j < NUM_BINS).
    { pose proof (size_to_bin_range (to_uint (s + MINIMUM_BLOCK_SIZE))). ulia. }
    destruct (bin_head _ _ _ Hl Hj' Hbj) as [Hin Hpf].
    remember (bin st j) as b eqn:Ebdef.
    destruct (mo_in _ _ _ Hm _ _ Hin) as [Hbb Hbu].
    destruct (lo_bin _ _ Hl _ _ Hin) as [_ Ebin].
    pose proof (po_block _ _ _ Hp b Hbb) as (_ & Sb & _).
    pose proof (block_pos _ _ _ _ Hp Hbb) as Hbpos.
    assert (Hs512 : s <= 512).
    { rewrite size_to_bin_eq in Hsmall by done. case_decide; ulia. }
    assert (Hsize : s + MINIMUM_BLOCK_SIZE <= size (rd st b) <= 512).
    { rewrite size_to_bin_eq in Ebin by done.
      rewrite to_uint_id in Hj by ulia.
      rewrite size_to_bin_eq in Hj by ulia.
      repeat case_decide; ulia. }
    assert (Esnd : forall st0, snd (split_block st0 b (to_int s)) = b)
      by reflexivity.
    split; [exists j; split; [|done]; pose proof
              (size_to_bin_range (to_uint (s + MINIMUM_BLOCK_SIZE))); lia|].
    split; [done|]. split.
    { rewrite Em. rewrite (surjective_pairing (split_block _ _ _)).
      rewrite Esnd. apply malloc_tail_found. ulia. }
    split; [by apply split_block_after_remove|].
    rewrite split_block_after_remove by done.
    rewrite to_int_id by ulia.
    destruct (split_post base st bl fl j b s s Hwf Hin Hs)
      as (bl' & fl' & Hwf' & _ & Hu' & _); [ulia..|].
    by exists bl', fl'.
Qed.

Lemma remove_block_head_twice_at_bin_11 :
  exists st ps,
    exec (small_chk 4096) 1 [Malloc 100; Malloc 16; Free 4120] (init 4096) []
    = Some (st, ps)
    /\ bin st 11 = 4096
    /\ remove_block (remove_block st 4096) 4096 = remove_block st 4096
    /\ my_malloc 1 st 24
       = Some (fst (split_block (remove_block st 4096) 4096 24), 4120)
    /\ split_block (remove_block st 4096) 4096 24 = split_block st 4096 24.
Proof.
  eexists _, _. split; [vm_compute; reflexivity|].
  split; [vm_compute; reflexivity|].
  match goal with |- remove_block (remove_block ?s _) _ = _ /\ _ =>
    set (st := s) end.
  destruct (run_small_inv 4096 st [4248]) as (bl & fl & Hwf & _ & _); [lia| |].
  { eapply (exec_run (small_call 4096) (small_chk 4096) 4096 1
              [Malloc 100; Malloc 16; Free 4120] (small_chk_ok 4096));
      [apply run_init|]. vm_compute. reflexivity. }
  destruct (remove_block_head_twice_split_path 4096 st bl fl Hwf) as [H1 H2].
  split.
  - refine (proj2 (H1 11 _ _)).
    + vm_compute. split; [discriminate|reflexivity].
    + vm_compute. discriminate.
  - destruct (H2 24 1%nat) as (_ & _ & E1 & E2 & _).
    + lia.
    + vm_compute. reflexivity.
    + vm_compute. reflexivity.
    + vm_compute. discriminate.
    + split; [exact E1|exact E2].
Defined.

(** * Further properties of the code *)

(** The state a list of small calls ends in is valid. *)
Lemma exec_small_inv b0 fuel cs st ps :
  0 < b0 -> exec (small_chk b0) fuel cs (init b0) [] = Some (st, ps) ->
  run_inv b0 st ps.
Proof.
  intros Hb E. apply run_small_inv; [done|].
  eapply (exec_run (small_call b0) (small_chk b0) b0 fuel cs (small_chk_ok b0));
    [apply run_init|exact E].
Qed.

Lemma live_listed base st bl fl n b :
  wf base st bl fl ->
  bool_decide (b ∈ walk n st (heap_tail st)) = true -> in_use (rd st b) = 0 ->
  b ∈ bl /\ b ∈ fl (size_to_bin (size (rd st b))).
Proof.
  intros [Hp Hl Hm] Hw Hu.
  assert (Hb : b ∈ bl) by (apply (live_block base st); [done|by apply (walk_tail_live st n)]).
  split; [done|]. by apply (mo_all _ _ _ Hm).
Qed.

(** ** Pointer helpers *)

(** X1: [block_to_data] and [data_to_block] are inverse to each other: the
    payload pointer of a header leads back to the header and the other way
    round, for every address; the payload starts [BLOCK_HEADER_SIZE] bytes
    after the header. *)
Theorem block_to_data_data_to_block_inverse b p :
  data_to_block (block_to_data b) = b
  /\ block_to_data (data_to_block p) = p
  /\ block_to_data b = b + BLOCK_HEADER_SIZE
  /\ bytes_between_ptrs b (block_to_data b) = BLOCK_HEADER_SIZE.
Proof.
  rewrite !data_to_block_eq, !block_to_data_eq.
  unfold bytes_between_ptrs.
  replace (b + 24 - b) with 24 by lia.
  repeat split; try lia; reflexivity.
Qed.

(** X2: [bytes_between_ptrs] undoes [ptr_add_bytes] for every offset an
    [int] can hold from 0 on, and for two addresses less than [2 ^ 32]
    apart it is their distance; a distance of [2 ^ 32] or more is reduced
    modulo [2 ^ 32]. *)
Theorem bytes_between_ptrs_ptr_add_bytes p q k :
  0 <= k <= INT_MAX -> 0 <= q - p ->
  bytes_between_ptrs p (ptr_add_bytes p k) = k
  /\ (q - p < 2 ^ 32 -> bytes_between_ptrs p q = q - p)
  /\ (q - p <= INT_MAX ->
      ptr_add_bytes p (to_int (bytes_between_ptrs p q)) = q)
  /\ bytes_between_ptrs p (q + 2 ^ 32) = bytes_between_ptrs p q.
Proof.
  intros Hk Hq. unfold bytes_between_ptrs, ptr_add_bytes, INT_MAX in *.
  split; [|split; [|split]].
  - replace (p + k - p) with k by lia. apply to_uint_id. lia.
  - intros H. by apply to_uint_id.
  - intros H. rewrite to_uint_id by lia. rewrite to_int_id by lia. lia.
  - unfold to_uint. replace (q + 2 ^ 32 - p) with (q - p + 1 * 2 ^ 32) by lia.
    by rewrite Z.mod_add.
Qed.

Lemma bytes_between_ptrs_ptr_add_bytes_at_4096 :
  bytes_between_ptrs 4096 (ptr_add_bytes 4096 24) = 24
  /\ bytes_between_ptrs 4096 5120 = 1024
  /\ ptr_add_bytes 4096 (to_int (bytes_between_ptrs 4096 5120)) = 5120.
Proof.
  destruct (bytes_between_ptrs_ptr_add_bytes 4096 5120 24) as (H1 & H2 & H3 & _).
  - vm_compute. split; discriminate.
  - lia.
  - split; [exact H1|]. split; [apply H2; lia|].
    apply H3. vm_compute. discriminate.
Defined.

(** ** Rounding *)

(** X3: for a request [0 < n <= 2 ^ 32 - 8] the rounded size is a multiple
    of 8, at least 16 and at least [n]; it exceeds [n] by less than 8 bytes
    from 16 on and is 16 below; rounding a rounded size changes nothing. *)
Theorem round_up_size_aligned n :
  0 < n <= 2 ^ 32 - 8 ->
  round_up_size n mod SIZE_MULTIPLE = 0
  /\ MINIMUM_ALLOCATION <= round_up_size n
  /\ n <= round_up_size n
  /\ (MINIMUM_ALLOCATION <= n -> round_up_size n < n + SIZE_MULTIPLE)
  /\ (n < MINIMUM_ALLOCATION -> round_up_size n = MINIMUM_ALLOCATION)
  /\ round_up_size (round_up_size n) = round_up_size n.
Proof.
  intros Hn. destruct (round_up_size_spec n Hn) as [Hs Hb].
  pose proof (round_up_size_fix _ Hs) as Hfix.
  pose proof (round_up_size_eq n ltac:(lia)) as E.
  rewrite !decide_False in E by lia.
  destruct Hs as [Hr Hm]. unfold SIZE_MULTIPLE, MINIMUM_ALLOCATION.
  split; [done|]. split; [lia|]. split; [lia|]. split; [|split; [|done]].
  - intros H16. rewrite E. rewrite decide_False by lia.
    rewrite Z.mod_small by lia. dlia.
  - intros H16. rewrite E. by rewrite decide_True by lia.
Qed.

Lemma round_up_size_aligned_at_21 :
  round_up_size 21 mod SIZE_MULTIPLE = 0 /\ 21 <= round_up_size 21
  /\ round_up_size 21 < 21 + SIZE_MULTIPLE
  /\ round_up_size (round_up_size 21) = round_up_size 21.
Proof.
  destruct (round_up_size_aligned 21) as (H1 & _ & H3 & H4 & _ & H6); [lia|].
  split; [exact H1|]. split; [exact H3|]. split; [|exact H6].
  apply H4. vm_compute. discriminate.
Defined.

(** ** The physical list and the bins, one operation at a time *)

Lemma lists_ok_fl_ext st fl fl' :
  (forall i, fl' i = fl i) -> lists_ok st fl -> lists_ok st fl'.
Proof.
  intros E [Hlen Hdll Hnd Hbin]. split.
  - done.
  - intros i Hi. rewrite E. by apply Hdll.
  - intros i. rewrite E. apply Hnd.
  - intros i b. rewrite E. apply Hbin.
Qed.

Lemma rd_remove_block_other st b c :
  c <> prev_free (rd st b) -> c <> next_free (rd st b) ->
  rd (remove_block st b) c = rd st c.
Proof.
  intros Hp Hn. unfold remove_block.
  bool_cases; st_rw; rewrite ?rd_store; rewrite ?decide_False by done; done.
Qed.

(** X4: on a heap whose blocks tile it ([phys_ok]: payloads of at least 16
    bytes, no two headers overlap) and whose free lists hold blocks of the
    heap, [insert_into_bin] puts a block of the heap that is on no free list
    at the head of the bin of its size: that bin now starts with the block,
    followed by the blocks it held; the other bins, the size, the [in_use]
    flag and the physical links of every block of the heap, [heap_tail] and
    the break are unchanged. *)
Theorem insert_into_bin_at_head base st bl fl b :
  phys_ok base st bl -> lists_ok st fl ->
  (forall i c, c ∈ fl i -> c ∈ bl) ->
  b ∈ bl -> (forall i, b ∉ fl i) ->
  let k := size_to_bin (size (rd st b)) in
  let st' := insert_into_bin st b in
  bin st' k = b
  /\ prev_free (rd st' b) = NULL
  /\ next_free (rd st' b) = bin st k
  /\ (forall j, 0 <= j < NUM_BINS -> j <> k -> bin st' j = bin st j)
  /\ lists_ok st' (fl_set fl k (b :: fl k))
  /\ (forall q, q ∈ bl ->
        size (rd st' q) = size (rd st q)
        /\ in_use (rd st' q) = in_use (rd st q)
        /\ prev_phys (rd st' q) = prev_phys (rd st q)
        /\ next_phys (rd st' q) = next_phys (rd st q))
  /\ heap_tail st' = heap_tail st /\ brk st' = brk st.
Proof.
  intros Hp Hl _ Hbl Hnotin. cbv zeta.
  assert (Hb : b <> NULL).
  { pose proof (block_pos _ _ _ _ Hp Hbl). ulia. }
  pose proof (size_to_bin_range (size (rd st b))) as Hk.
  pose proof (lo_len _ _ Hl) as Hlen.
  destruct (insert_into_bin_head st b Hlen) as [Hhead Hpf].
  split; [done|]. split; [done|]. split; [|split; [|split; [|split]]].
  - unfold insert_into_bin.
    destruct (Z.eqb_spec (bin st (size_to_bin (size (rd st b)))) NULL) as [E|E];
      st_rw; dec_rw; done.
  - intros j Hj Hjk. unfold insert_into_bin.
    destruct (Z.eqb_spec (bin st (size_to_bin (size (rd st b)))) NULL);
      rewrite bin_set_bin by (st_rw; ulia); rewrite decide_False by done;
      by st_rw.
  - by apply insert_into_bin_lists.
  - intros q _. apply insert_into_bin_phys.
  - by ph_rw.
Qed.

(** X5: on a heap whose blocks tile it ([phys_ok]) and whose free lists hold
    blocks of the heap, [remove_block] takes a listed block off its free
    list, wherever it stands in the list: the list of its bin is the old one
    without the block, no list holds the block any more, the other lists and
    bins are unchanged, and so are the size, the [in_use] flag and the
    physical links of every block of the heap. *)
Theorem remove_block_from_list base st bl fl k b :
  phys_ok base st bl -> lists_ok st fl ->
  (forall i c, c ∈ fl i -> c ∈ bl) ->
  b ∈ fl k ->
  let st' := remove_block st b in
  let fl' := fl_set fl k (list_del b (fl k)) in
  lists_ok st' fl'
  /\ (forall i, b ∉ fl' i)
  /\ (forall i c, c <> b -> c ∈ fl' i <-> c ∈ fl i)
  /\ (forall j, 0 <= j < NUM_BINS -> j <> k -> bin st' j = bin st j)
  /\ (forall q, q ∈ bl ->
        size (rd st' q) = size (rd st q)
        /\ in_use (rd st' q) = in_use (rd st q)
        /\ prev_phys (rd st' q) = prev_phys (rd st q)
        /\ next_phys (rd st' q) = next_phys (rd st q))
  /\ heap_tail st' = heap_tail st /\ brk st' = brk st.
Proof.
  intros _ Hl _ Hb. cbv zeta.
  destruct (lo_bin _ _ Hl _ _ Hb) as [Hk Hsz].
  pose proof (lo_len _ _ Hl) as Hlen.
  split; [by apply remove_block_lists|]. split; [|split; [|split; [|split]]].
  - intros i. unfold fl_set. case_decide as E.
    + rewrite elem_of_list_del. tauto.
    + intros Hi. destruct (lo_bin _ _ Hl _ _ Hi) as [_ E']. congruence.
  - intros i c Hc. unfold fl_set. case_decide as E; [|done].
    subst i. rewrite elem_of_list_del. tauto.
  - intros j Hj Hjk. unfold remove_block. rewrite Hsz.
    bool_cases; st_rw; rewrite ?bin_set_bin by (st_rw; ulia);
      rewrite ?decide_False by done; done.
  - intros q _. apply remove_block_phys.
  - by ph_rw.
Qed.

Lemma insert_into_bin_at_head_second_block :
  exists st ps,
    exec (small_chk 4096) 1 [Malloc 24; Malloc 24; Malloc 24; Free 4120]
         (init 4096) [] = Some (st, ps)
    /\ bin st 1 = 4096
    /\ bin (insert_into_bin st 4144) 1 = 4144
    /\ next_free (rd (insert_into_bin st 4144) 4144) = 4096
    /\ prev_free (rd (insert_into_bin st 4144) 4144) = NULL.
Proof.
  eexists _, _. split; [vm_compute; reflexivity|].
  split; [vm_compute; reflexivity|].
  match goal with |- bin (insert_into_bin ?s _) _ = _ /\ _ => set (st := s) end.
  destruct (exec_small_inv 4096 1 [Malloc 24; Malloc 24; Malloc 24; Free 4120]
              st [4216; 4168]) as (bl & fl & Hwf & _ & Hps);
    [lia|vm_compute; reflexivity|].
  assert (Ha : allocated st bl 4168).
  { apply Hps. apply elem_of_cons. right. apply elem_of_cons. by left. }
  destruct Ha as [Hin Hu]. change (data_to_block 4168) with 4144 in Hin, Hu.
  destruct (insert_into_bin_at_head 4096 st bl fl 4144 (wf_phys _ _ _ _ Hwf)
              (wf_lists _ _ _ _ Hwf)) as (H1 & H2 & H3 & _).
  - intros i c Hc. by destruct (mo_in _ _ _ (wf_members _ _ _ _ Hwf) _ _ Hc).
  - exact Hin.
  - intros i. by apply (used_not_listed st bl); [apply Hwf|].
  - split; [exact H1|]. split; [exact H3|exact H2].
Defined.

Lemma remove_block_from_list_first_block :
  exists st ps fl,
    exec (small_chk 4096) 1 [Malloc 24; Malloc 24; Malloc 24; Free 4120]
         (init 4096) [] = Some (st, ps)
    /\ 4096 ∈ fl 1
    /\ lists_ok st fl
    /\ lists_ok (remove_block st 4096) (fl_set fl 1 (list_del 4096 (fl 1)))
    /\ in_use (rd (remove_block st 4096) 4096) = in_use (rd st 4096).
Proof.
  eassert (E : exec (small_chk 4096) 1
                 [Malloc 24; Malloc 24; Malloc 24; Free 4120] (init 4096) []
               = Some (_, _)) by (vm_compute; reflexivity).
  match type of E with _ = Some (?s, _) => set (st := s) in * end.
  destruct (exec_small_inv 4096 1 _ _ _ ltac:(lia) E) as (bl & fl & Hwf & _ & _).
  destruct (live_listed 4096 st bl fl 5 4096 Hwf) as [Hbl Hin];
    [vm_compute; reflexivity..|].
  change (size_to_bin (size (rd st 4096))) with 1 in Hin.
  destruct (remove_block_from_list 4096 st bl fl 1 4096 (wf_phys _ _ _ _ Hwf)
              (wf_lists _ _ _ _ Hwf)) as (H1 & _ & _ & _ & H2 & _).
  - intros i c Hc. by destruct (mo_in _ _ _ (wf_members _ _ _ _ Hwf) _ _ Hc).
  - exact Hin.
  - eexists st, _, fl. split; [exact E|]. split; [exact Hin|].
    split; [apply Hwf|]. split; [exact H1|]. by apply H2.
Defined.

Lemma bins_set_bin_id st st' k v :
  bins st' = bins st -> v = bin st k -> (Z.to_nat k < length (bins st))%nat ->
  bins (set_bin st' k v) = bins st.
Proof.
  intros E -> Hk.
  with_strategy transparent [set_bin bin] (unfold set_bin, bin).
  cbn [bins]. rewrite E.
  apply list_insert_id. by apply list_lookup_lookup_total_lt.
Qed.

Lemma bins_insert_into_bin_remove_block st b :
  length (bins st) = Z.to_nat NUM_BINS ->
  b <> bin st (size_to_bin (size (rd st b))) ->
  bins (remove_block (insert_into_bin st b) b) = bins st.
Proof.
  intros Hlen Hne. pose proof (size_to_bin_range (size (rd st b))) as Hk.
  assert (Hlt : (Z.to_nat (size_to_bin (size (rd st b))) < length (bins st))%nat)
    by (rewrite Hlen; ulia).
  unfold remove_block. rewrite size_insert_into_bin.
  unfold insert_into_bin.
  destruct (Z.eqb_spec (bin st (size_to_bin (size (rd st b)))) NULL) as [E|E].
  - st_rw. dec_rw. change (NULL =? NULL) with true. cbn [andb].
    rewrite set_bin_set_bin. apply bins_set_bin_id; [by st_rw|by rewrite E|done].
  - st_rw. dec_rw. change (NULL =? NULL) with true.
    destruct (Z.eqb_spec (bin st (size_to_bin (size (rd st b)))) NULL) as [|_];
      [done|]. cbn [andb negb].
    st_rw. rewrite set_bin_set_bin. apply bins_set_bin_id; [by st_rw|done|done].
Qed.

Lemma set_field_prev_free_id h v :
  prev_free h = v -> set_field Fprev_free v h = h.
Proof. intros <-. by destruct h. Qed.

Lemma rd_insert_into_bin_remove_block st b c :
  length (bins st) = Z.to_nat NUM_BINS ->
  let old := bin st (size_to_bin (size (rd st b))) in
  b <> old -> (old <> NULL -> prev_free (rd st old) = NULL) -> c <> b ->
  rd (remove_block (insert_into_bin st b) b) c = rd st c.
Proof.
  intros Hlen old Hne Hpf Hc. unfold old in *. clear old.
  unfold remove_block. rewrite size_insert_into_bin.
  unfold insert_into_bin.
  destruct (Z.eqb_spec (bin st (size_to_bin (size (rd st b)))) NULL) as [E|E].
  - st_rw. dec_rw. change (NULL =? NULL) with true. cbn [andb].
    st_rw. rewrite !rd_store. by rewrite !decide_False by done.
  - st_rw. dec_rw. change (NULL =? NULL) with true.
    destruct (Z.eqb_spec (bin st (size_to_bin (size (rd st b)))) NULL) as [|_];
      [done|]. cbn [andb negb].
    remember (bin st (size_to_bin (size (rd st b)))) as old eqn:Eold.
    st_rw. rewrite !rd_store. st_rw. rewrite !rd_store.
    rewrite !(decide_False (P := old = b)) by done.
    rewrite !(decide_False (P := c = b)) by done.
    rewrite !(decide_True (P := old = old)) by done.
    destruct (decide (c = old)) as [->|Hco]; [|done].
    rewrite set_field_twice. apply set_field_prev_free_id. by apply Hpf.
Qed.

(** X6: on a heap whose blocks tile it ([phys_ok]) and whose free lists hold
    blocks of the heap, inserting a block of the heap that is on no free
    list into its bin and removing it again restores the bins: the array
    [bins] is the same, the header of every other block of the heap is the
    same, the free lists are the ones before, and [heap_tail] and the break
    never moved. *)
Theorem insert_into_bin_remove_block_restores base st bl fl b :
  phys_ok base st bl -> lists_ok st fl ->
  (forall i c, c ∈ fl i -> c ∈ bl) ->
  b ∈ bl -> (forall i, b ∉ fl i) ->
  let st' := remove_block (insert_into_bin st b) b in
  bins st' = bins st
  /\ (forall c, c ∈ bl -> c <> b -> rd st' c = rd st c)
  /\ lists_ok st' fl
  /\ size (rd st' b) = size (rd st b) /\ in_use (rd st' b) = in_use (rd st b)
  /\ prev_phys (rd st' b) = prev_phys (rd st b)
  /\ next_phys (rd st' b) = next_phys (rd st b)
  /\ heap_tail st' = heap_tail st /\ brk st' = brk st.
Proof.
  intros Hp Hl _ Hbl Hnotin. cbv zeta.
  assert (Hb : b <> NULL).
  { pose proof (block_pos _ _ _ _ Hp Hbl). ulia. }
  pose proof (size_to_bin_range (size (rd st b))) as Hk.
  pose proof (lo_len _ _ Hl) as Hlen.
  assert (Hk' : 0 <= size_to_bin (size (rd st b)) < NUM_BINS) by ulia.
  assert (Hhead : bin st (size_to_bin (size (rd st b))) <> NULL ->
                  bin st (size_to_bin (size (rd st b)))
                    ∈ fl (size_to_bin (size (rd st b)))
                  /\ prev_free (rd st (bin st (size_to_bin (size (rd st b)))))
                     = NULL).
  { intros Hne. by apply bin_head. }
  assert (Hne : b <> bin st (size_to_bin (size (rd st b)))).
  { intros E. destruct (decide (bin st (size_to_bin (size (rd st b))) = NULL))
      as [E0|E0]; [congruence|].
    destruct (Hhead E0) as [Hin _]. rewrite <- E in Hin. by apply (Hnotin _ Hin). }
  split; [by apply bins_insert_into_bin_remove_block|].
  split.
  { intros c _ Hc. apply rd_insert_into_bin_remove_block; try done.
    intros E0. by apply Hhead. }
  split; [|by ph_rw].
  pose proof (insert_into_bin_lists st fl b Hl Hb Hnotin) as Hl1.
  pose proof (remove_block_lists _ _ (size_to_bin (size (rd st b))) b Hl1) as Hl2.
  rewrite fl_set_eq in Hl2. specialize (Hl2 ltac:(left)).
  revert Hl2. apply lists_ok_fl_ext. intros i. unfold fl_set.
  case_decide as E; [|done]. subst i.
  unfold list_del. rewrite filter_cons_False by (intros H; by apply H).
  symmetry. apply list_del_notin. apply Hnotin.
Qed.

Lemma insert_into_bin_remove_block_restores_second_block :
  exists st ps,
    exec (small_chk 4096) 1 [Malloc 24; Malloc 24; Malloc 24; Free 4120]
         (init 4096) [] = Some (st, ps)
    /\ bin (insert_into_bin st 4144) 1 = 4144
    /\ bins (remove_block (insert_into_bin st 4144) 4144) = bins st
    /\ rd (remove_block (insert_into_bin st 4144) 4144) 4096 = rd st 4096.
Proof.
  eassert (E : exec (small_chk 4096) 1
                 [Malloc 24; Malloc 24; Malloc 24; Free 4120] (init 4096) []
               = Some (_, _)) by (vm_compute; reflexivity).
  match type of E with _ = Some (?s, _) => set (st := s) in * end.
  destruct (exec_small_inv 4096 1 _ _ _ ltac:(lia) E)
    as (bl & fl & Hwf & _ & Hps).
  assert (Ha : allocated st bl 4168).
  { apply Hps. apply elem_of_cons. right. apply elem_of_cons. by left. }
  destruct Ha as [Hin Hu]. change (data_to_block 4168) with 4144 in Hin, Hu.
  destruct (live_listed 4096 st bl fl 5 4096 Hwf) as [Hbl _];
    [vm_compute; reflexivity..|].
  destruct (insert_into_bin_remove_block_restores 4096 st bl fl 4144
              (wf_phys _ _ _ _ Hwf) (wf_lists _ _ _ _ Hwf)) as (H1 & H2 & _).
  - intros i c Hc. by destruct (mo_in _ _ _ (wf_members _ _ _ _ Hwf) _ _ Hc).
  - exact Hin.
  - intros i. by apply (used_not_listed st bl); [apply Hwf|].
  - eexists st, _. split; [exact E|]. split; [vm_compute; reflexivity|].
    split; [exact H1|]. apply H2; [exact Hbl|discriminate].
Defined.

Lemma link_unlink st b :
  b <> NULL -> b <> heap_tail st ->
  (heap_tail st <> NULL -> next_phys (rd st (heap_tail st)) = NULL) ->
  let st1 := link_onto_end st b in
  let st2 := unlink_block st1 in
  heap_tail st1 = b
  /\ next_phys (rd st1 b) = NULL
  /\ prev_phys (rd st1 b) = heap_tail st
  /\ (heap_tail st <> NULL -> next_phys (rd st1 (heap_tail st)) = b)
  /\ heap_tail st2 = heap_tail st
  /\ (forall c, c <> b -> rd st2 c = rd st c)
  /\ bins st2 = bins st /\ brk st2 = brk st
  /\ (heap_tail st = NULL -> unlink_block st = st).
Proof.
  intros Hb Hbt Htail. cbv zeta.
  assert (Hid : forall h, next_phys h = NULL -> set_field Fnext_phys NULL h = h).
  { intros h <-. by destruct h. }
  unfold unlink_block, link_onto_end.
  destruct (Z.eqb_spec (heap_tail st) NULL) as [Et|Et].
  - st_rw. dec_rw.
    destruct (Z.eqb_spec b NULL) as [|_]; [done|].
    change (NULL =? NULL) with true. cbv iota. st_rw.
    repeat split; try done.
    intros c Hc. st_rw. rewrite !rd_store. by rewrite !decide_False by done.
  - st_rw. dec_rw.
    destruct (Z.eqb_spec b NULL) as [|_]; [done|].
    destruct (Z.eqb_spec (heap_tail st) NULL) as [|_]; [done|].
    st_rw. dec_rw.
    repeat split; try done.
    intros c Hc. st_rw. rewrite !rd_store. st_rw. rewrite !rd_store.
    rewrite !(decide_False (P := c = b)) by done.
    rewrite !(decide_False (P := heap_tail st = b)) by done.
    rewrite !(decide_True (P := heap_tail st = heap_tail st)) by done.
    destruct (decide (c = heap_tail st)) as [->|Hc']; [|done].
    rewrite set_field_twice. apply Hid. by apply Htail.
Qed.



(** ** The two public functions on a valid heap *)

Lemma allocated_data_to_block st bl q c :
  data_to_block q = c -> allocated st bl q <-> (c ∈ bl /\ in_use (rd st c) = 1).
Proof. intros <-. done. Qed.

(** What one allocation does to a valid heap, with the fuel it was run
    with. *)
Lemma my_malloc_inv base st bl fl n fuel st' p :
  wf base st bl fl -> 0 < n <= 2 ^ 32 - 8 ->
  my_malloc fuel st n = Some (st', p) -> fits base st' ->
  p <> NULL /\ ~ allocated st bl p /\ brk st <= brk st'
  /\ exists bl' fl',
       wf base st' bl' fl' /\ allocated st' bl' p
       /\ n <= size (rd st' (data_to_block p))
       /\ forall q, q <> p -> allocated st' bl' q <-> allocated st bl q.
Proof.
  intros Hwf Hn Hm Hf.
  set (fuel' := Nat.max fuel (S (length (fl OVERFLOW_BIN)))).
  assert (Hm' : my_malloc fuel' st n = Some (st', p)).
  { apply (my_malloc_mono fuel); [done|]. unfold fuel'. lia. }
  destruct (my_malloc_wf base st bl fl n fuel' Hwf) as (st'' & p' & E & Hpost);
    [lia|unfold fuel'; lia|].
  rewrite Hm' in E. injection E as <- <-.
  destruct (Hpost Hf)
    as (Hpn & bl' & fl' & Hwf' & Hb' & Hu' & Hsz & Hbrk & Hused & Hnew).
  split; [done|]. split; [done|]. split; [done|].
  exists bl', fl'. split; [done|]. split; [done|]. split; [done|].
  intros q Hq. unfold allocated. rewrite (Hused (data_to_block q)).
  rewrite !data_to_block_eq. split; [intros [?|?]; [done|lia]|by left].
Qed.

(** X8: on a valid heap that spans at most [INT_MAX] bytes, [my_malloc]
    hands out a block that was not in use: the pointer is none the caller
    holds, the other blocks in use stay in use and no other block becomes
    used, the break does not go down, and the heap is valid again. *)
Theorem my_malloc_block_is_fresh base st bl fl n fuel st' p :
  wf base st bl fl -> 0 < n <= 2 ^ 32 - 8 ->
  my_malloc fuel st n = Some (st', p) -> fits base st' ->
  ~ allocated st bl p /\ brk st <= brk st'
  /\ exists bl' fl',
       wf base st' bl' fl' /\ allocated st' bl' p
       /\ forall q, q <> p -> allocated st' bl' q <-> allocated st bl q.
Proof.
  intros Hwf Hn Hm Hf.
  destruct (my_malloc_inv _ _ _ _ _ _ _ _ Hwf Hn Hm Hf)
    as (_ & Hnew & Hbrk & bl' & fl' & Hwf' & Ha & _ & Hfr).
  split; [done|]. split; [done|]. by exists bl', fl'.
Qed.

(** X9: on a valid heap that spans at most [INT_MAX] bytes, [my_free] of
    the pointer of a block in use leaves a valid heap in which that block is
    no longer in use and every other block in use still is; the break does
    not go up. *)
Theorem my_free_keeps_heap_valid base st bl fl p :
  wf base st bl fl -> fits base st -> allocated st bl p ->
  brk (my_free st p) <= brk st /\ fits base (my_free st p)
  /\ exists bl' fl',
       wf base (my_free st p) bl' fl'
       /\ ~ allocated (my_free st p) bl' p
       /\ forall q, q <> p ->
            allocated (my_free st p) bl' q <-> allocated st bl q.
Proof.
  intros Hwf Hf Ha.
  destruct (my_free_wf _ _ _ _ _ Hwf Hf Ha) as (bl' & fl' & Hwf' & Hbrk & Hused).
  split; [done|]. split; [unfold fits in *; lia|].
  exists bl', fl'. split; [done|]. split.
  - unfold allocated. rewrite (Hused (data_to_block p)). tauto.
  - intros q Hq. unfold allocated. rewrite (Hused (data_to_block q)).
    rewrite !data_to_block_eq. split; [tauto|]. intros [? ?].
    split; [done|]. split; [done|lia].
Qed.

Lemma my_malloc_block_is_fresh_reuse :
  exists st ps st' bl' fl',
    exec (small_chk 4096) 1 [Malloc 24; Malloc 24; Free 4120] (init 4096) []
    = Some (st, ps)
    /\ my_malloc 1 st 24 = Some (st', 4120)
    /\ brk st <= brk st'
    /\ wf 4096 st' bl' fl' /\ allocated st' bl' 4120
    /\ (allocated st' bl' 4168 <-> 4168 ∈ ps).
Proof.
  eassert (E : exec (small_chk 4096) 1 [Malloc 24; Malloc 24; Free 4120]
                 (init 4096) [] = Some (_, _)) by (vm_compute; reflexivity).
  match type of E with _ = Some (?s, _) => set (st := s) in * end.
  destruct (exec_small_inv 4096 1 _ _ _ ltac:(lia) E) as (bl & fl & Hwf & _ & Hps).
  eassert (Em : my_malloc 1 st 24 = Some (_, 4120)) by (vm_compute; reflexivity).
  match type of Em with _ = Some (?s, _) => set (st' := s) in * end.
  destruct (my_malloc_block_is_fresh 4096 st bl fl 24 1 st' 4120 Hwf)
    as (_ & Hbrk & bl' & fl' & Hwf' & Ha & Hfr);
    [lia|exact Em|vm_compute; discriminate|].
  eexists st, _, st', bl', fl'. split; [exact E|]. split; [exact Em|].
  split; [exact Hbrk|]. split; [exact Hwf'|]. split; [exact Ha|].
  rewrite Hfr by discriminate. symmetry. apply Hps.
Defined.

Lemma my_free_keeps_heap_valid_two_blocks :
  exists st ps bl' fl',
    exec (small_chk 4096) 1 [Malloc 24; Malloc 24] (init 4096) [] = Some (st, ps)
    /\ brk (my_free st 4120) <= brk st
    /\ wf 4096 (my_free st 4120) bl' fl'
    /\ ~ allocated (my_free st 4120) bl' 4120
    /\ allocated (my_free st 4120) bl' 4168.
Proof.
  eassert (E : exec (small_chk 4096) 1 [Malloc 24; Malloc 24] (init 4096) []
               = Some (_, _)) by (vm_compute; reflexivity).
  match type of E with _ = Some (?s, _) => set (st := s) in * end.
  destruct (exec_small_inv 4096 1 _ _ _ ltac:(lia) E)
    as (bl & fl & Hwf & Hfits & Hps).
  destruct (my_free_keeps_heap_valid 4096 st bl fl 4120 Hwf Hfits)
    as (Hbrk & _ & bl' & fl' & Hwf' & Hno & Hfr).
  - apply Hps. right. left.
  - eexists st, _, bl', fl'. split; [exact E|]. split; [exact Hbrk|].
    split; [exact Hwf'|]. split; [exact Hno|].
    apply Hfr; [discriminate|]. apply Hps. left.
Defined.

(** ** Invariants of every sequence of calls *)

Lemma run_small_nodup b0 st ps :
  0 < b0 -> run (small_call b0) b0 st ps -> NoDup ps.
Proof.
  intros Hb0. induction 1 as [|st ps fuel n st' p Hrun IH Hn Hm [Hn' Hf]
                               |st ps p Hrun IH Hp].
  - constructor.
  - destruct (decide (p = NULL)) as [|Hpn]; [done|].
    destruct (run_small_inv b0 st ps Hb0 Hrun) as (bl & fl & Hwf & _ & Hps).
    destruct (decide (n = 0)) as [->|Hn0].
    { unfold my_malloc in Hm. cbn in Hm. by injection Hm as <- <-. }
    destruct (my_malloc_inv b0 st bl fl n fuel st' p Hwf ltac:(lia) Hm Hf)
      as (_ & Hnew & _).
    constructor; [|done]. by rewrite Hps.
  - unfold list_del. by apply NoDup_filter.
Qed.

(** X10: after any sequence of calls that keeps the heap within [INT_MAX]
    bytes, the pointers the caller holds are pairwise distinct, each is the
    payload of a block in use, and the payloads do not overlap: the payload
    of the lower block ends before the header of the higher one starts, and
    all of them lie between the initial break and the current one. *)
Theorem live_allocations_disjoint b0 st ps :
  0 < b0 -> run (small_call b0) b0 st ps ->
  NoDup ps
  /\ (forall p, p ∈ ps ->
        in_use (rd st (data_to_block p)) = 1
        /\ b0 + BLOCK_HEADER_SIZE <= p
        /\ p + size (rd st (data_to_block p)) <= brk st)
  /\ (forall p q, p ∈ ps -> q ∈ ps -> p < q ->
        p + size (rd st (data_to_block p)) <= data_to_block q).
Proof.
  intros Hb0 Hrun. split; [by apply (run_small_nodup b0 st)|].
  destruct (run_small_inv b0 st ps Hb0 Hrun) as (bl & fl & [Hp Hl Hm] & _ & Hps).
  split.
  - intros p [Hb Hu]%Hps. split; [done|].
    pose proof (block_size _ _ _ _ Hp Hb) as Hs.
    rewrite data_to_block_eq in *. ulia.
  - intros p q [Hb Hu]%Hps [Hb' Hu']%Hps Hlt.
    pose proof (po_order _ _ _ Hp _ _ Hb Hb') as Ho.
    rewrite !data_to_block_eq in *. ulia.
Qed.

Lemma live_allocations_disjoint_three_blocks :
  exists st ps,
    exec (small_chk 4096) 1 [Malloc 100; Malloc 24; Malloc 1000; Free 4248]
         (init 4096) [] = Some (st, ps)
    /\ ps = [4296; 4120]
    /\ 4120 + size (rd st (data_to_block 4120)) <= data_to_block 4296
    /\ 4296 + size (rd st (data_to_block 4296)) <= brk st.
Proof.
  eassert (E : exec (small_chk 4096) 1
                 [Malloc 100; Malloc 24; Malloc 1000; Free 4248] (init 4096) []
               = Some (_, _)) by (vm_compute; reflexivity).
  match type of E with _ = Some (?s, _) => set (st := s) in * end.
  destruct (live_allocations_disjoint 4096 st [4296; 4120]) as (_ & H1 & H2).
  - lia.
  - eapply (exec_run (small_call 4096) (small_chk 4096) 4096 1 _
              (small_chk_ok 4096)); [apply run_init|exact E].
  - eexists st, _. split; [exact E|]. split; [reflexivity|]. split.
    + apply H2; [right; left|left|lia].
    + apply (H1 4296). left.
Defined.

(** A valid heap none of whose blocks is in use has no block at all. *)
Lemma wf_no_used_empty base st bl fl :
  wf base st bl fl -> (forall b, b ∈ bl -> in_use (rd st b) <> 1) ->
  bl = ∅ /\ brk st = base /\ heap_tail st = NULL /\ bins_empty st.
Proof.
  intros [Hp Hl Hm] Hnone.
  assert (Ht : heap_tail st = NULL).
  { destruct (decide (heap_tail st = NULL)) as [|Hne]; [done|].
    destruct (po_tail _ _ _ Hp Hne) as [Hin Hn].
    destruct (po_block _ _ _ Hp _ Hin) as (_ & _ & [Hu|Hu] & _).
    - destruct (po_adj _ _ _ Hp _ Hin Hu) as (Hnn & _). done.
    - by apply Hnone in Hin. }
  pose proof (po_tail_null _ _ _ Hp Ht) as Hbl.
  split; [done|]. split; [by apply (po_empty _ _ _ Hp)|]. split; [done|].
  intros i Hi. pose proof (lo_dll _ _ Hl i Hi) as Hd.
  destruct (fl i) as [|x l] eqn:Efl; [done|].
  assert (Hx : x ∈ fl i) by (rewrite Efl; left).
  destruct (mo_in _ _ _ Hm _ _ Hx) as [Hxb _]. rewrite Hbl in Hxb. set_solver.
Qed.

Lemma run_all_released b0 st :
  0 < b0 -> run (small_call b0) b0 st [] ->
  brk st = b0 /\ heap_tail st = NULL /\ bins_empty st.
Proof.
  intros Hb0 Hrun.
  destruct (run_small_inv b0 st [] Hb0 Hrun) as (bl & fl & Hwf & _ & Hps).
  destruct (wf_no_used_empty b0 st bl fl Hwf) as (_ & H1 & H2 & H3); [|done].
  intros b Hb Hu.
  assert (Ha : allocated st bl (block_to_data b)).
  { unfold allocated. by rewrite data_to_block_to_data. }
  apply Hps in Ha. by apply elem_of_nil in Ha.
Qed.

(** X11: when the caller has released every pointer it got, the heap is
    empty again: the break is back at its initial value, [heap_tail] is
    [NULL] and every bin is empty. *)
Theorem all_released_heap_empty b0 st :
  0 < b0 -> run (small_call b0) b0 st [] ->
  brk st = b0 /\ heap_tail st = NULL /\ bins_empty st.
Proof. apply run_all_released. Qed.

Lemma all_released_heap_empty_after_four_calls :
  exists st,
    exec (small_chk 4096) 2
         [Malloc 24; Malloc 2000; Malloc 56; Free 4168; Free 4120; Free 6192]
         (init 4096) [] = Some (st, [])
    /\ brk st = 4096 /\ heap_tail st = NULL /\ bins_empty st.
Proof.
  eassert (E : exec (small_chk 4096) 2
                 [Malloc 24; Malloc 2000; Malloc 56; Free 4168; Free 4120;
                  Free 6192] (init 4096) [] = Some (_, []))
    by (vm_compute; reflexivity).
  match type of E with _ = Some (?s, _) => set (st := s) in * end.
  exists st. split; [exact E|].
  apply (all_released_heap_empty 4096 st); [lia|].
  eapply (exec_run (small_call 4096) (small_chk 4096) 4096 2 _
            (small_chk_ok 4096)); [apply run_init|exact E].
Defined.

(** ** The test driver *)

Lemma sbrk_0 st : sbrk st 0 = (st, brk st).
Proof.
  unfold sbrk. rewrite Z.add_0_r. f_equal. destruct st.
  with_strategy transparent [set_brk] (unfold set_brk). reflexivity.
Qed.

Lemma grow_heap_brk_bins st sz :
  brk (fst (grow_heap st sz)) = brk st + sz + BLOCK_HEADER_SIZE
  /\ bins (fst (grow_heap st sz)) = bins st.
Proof.
  unfold grow_heap, sbrk, link_onto_end. cbn [fst snd].
  destruct (heap_tail _ =? NULL); ph_rw; split; first [done|lia].
Qed.

(** An allocation on a heap whose bins are all empty. *)
Lemma run_grow b0 st ps fuel n :
  run (small_call b0) b0 st ps -> bins_empty st ->
  0 < n <= 2 ^ 32 - 8 -> (0 < fuel)%nat -> 0 < brk st ->
  brk st + round_up_size n + 24 - b0 <= INT_MAX ->
  exists st' p,
    my_malloc fuel st n = Some (st', p) /\ p = brk st + 24
    /\ run (small_call b0) b0 st' (p :: ps)
    /\ bins_empty st' /\ brk st' = brk st + round_up_size n + 24.
Proof.
  intros Hrun He Hn Hfuel Hbrk Hfit.
  pose proof (my_malloc_empty_bins fuel st n He ltac:(lia) Hfuel) as E.
  destruct (grow_heap_brk_bins st (round_up_size n)) as [Hb Hbins].
  rewrite block_to_data_eq in E.
  exists (fst (grow_heap st (round_up_size n))), (brk st + 24).
  split; [done|]. split; [done|]. split; [|split].
  - pose proof (run_malloc (small_call b0) b0 st ps fuel n _ _ Hrun
                  ltac:(unfold UINT_MAX; lia) E) as Hr.
    rewrite decide_False in Hr by ulia. apply Hr.
    split; [lia|]. unfold fits. rewrite Hb. ulia.
  - intros i Hi. rewrite (bin_ext st) by done. by apply He.
  - rewrite Hb. ulia.
Qed.

Lemma list_del_cons b x l :
  list_del b (x :: l) = if decide (x = b) then list_del b l else x :: list_del b l.
Proof.
  unfold list_del. case_decide as E.
  - by rewrite filter_cons_False by (intros H; by apply H).
  - by rewrite filter_cons_True by done.
Qed.

Lemma option_bind_Some {A B} (x : A) (f : A -> option B) : (Some x ≫= f) = f x.
Proof. reflexivity. Qed.

Ltac del_norm :=
  repeat (rewrite list_del_cons;
          first [rewrite decide_True by lia | rewrite decide_False by lia]);
  change (list_del ?b []) with (@nil Z).

Ltac grow_next b0 fuel n Hrun He Hbrk st1 p1 Em Hp Hrun1 He1 Hbrk1 :=
  destruct (run_grow b0 _ _ fuel n Hrun He ltac:(lia) ltac:(lia)
              ltac:(rewrite Hbrk; lia)
              ltac:(rewrite Hbrk; change (round_up_size n) with n;
                    unfold INT_MAX; lia))
    as (st1 & p1 & Em & Hp & Hrun1 & He1 & Hbrk1);
  rewrite Hbrk in Hp, Hbrk1; change (round_up_size n) with n in Hbrk1.

Ltac del_norm_in H :=
  repeat (rewrite list_del_cons in H;
          first [rewrite decide_True in H by lia
                | rewrite decide_False in H by lia]);
  change (list_del ?b []) with (@nil Z) in H.

Ltac free_next Hrun p Hrun1 :=
  pose proof (run_free _ _ _ _ p Hrun
                ltac:(right; rewrite !elem_of_cons; tauto)) as Hrun1;
  del_norm_in Hrun1.

(** X12: the test driver finds the heap contracted: started with the break
    at any [b0 > 0], [test1] runs to its end and [main] computes
    [heap_size_diff = 0], so it prints nothing. *)
Theorem main_heap_size_diff_zero b0 fuel :
  0 < b0 -> (0 < fuel)%nat -> main fuel b0 = Some 0.
Proof.
  intros Hb0 Hfuel. unfold main. rewrite sbrk_0. change (brk (init b0)) with b0.
  pose proof (run_init (small_call b0) b0) as Hr0.
  assert (He0 : bins_empty (init b0)) by (intros i Hi; by apply bin_init).
  assert (Hk0 : brk (init b0) = b0) by reflexivity.
  grow_next b0 fuel 24 Hr0 He0 Hk0 st1 a Ea Ha Hr1 He1 Hk1.
  grow_next b0 fuel 2000 Hr1 He1 Hk1 st2 b Eb Hb Hr2 He2 Hk2.
  grow_next b0 fuel 56 Hr2 He2 Hk2 st3 c Ec Hc Hr3 He3 Hk3.
  grow_next b0 fuel 64 Hr3 He3 Hk3 st4 d Ed Hd Hr4 He4 Hk4.
  grow_next b0 fuel 200 Hr4 He4 Hk4 st5 e Ee He Hr5 He5 Hk5.
  grow_next b0 fuel 16 Hr5 He5 Hk5 st6 f Ef Hf Hr6 He6 Hk6.
  grow_next b0 fuel 64 Hr6 He6 Hk6 st7 g Eg Hg Hr7 He7 Hk7.
  grow_next b0 fuel 40 Hr7 He7 Hk7 st8 h Eh Hh Hr8 He8 Hk8.
  grow_next b0 fuel 800 Hr8 He8 Hk8 st9 i Ei Hi Hr9 He9 Hk9.
  grow_next b0 fuel 512 Hr9 He9 Hk9 st10 j Ej Hj Hr10 He10 Hk10.
  unfold test1.
  rewrite Ea, option_bind_Some. cbv beta iota.
  rewrite Eb, option_bind_Some. cbv beta iota.
  rewrite Ec, option_bind_Some. cbv beta iota.
  rewrite Ed, option_bind_Some. cbv beta iota.
  rewrite Ee, option_bind_Some. cbv beta iota.
  rewrite Ef, option_bind_Some. cbv beta iota.
  rewrite Eg, option_bind_Some. cbv beta iota.
  rewrite Eh, option_bind_Some. cbv beta iota.
  rewrite Ei, option_bind_Some. cbv beta iota.
  rewrite Ej, option_bind_Some. cbv beta iota zeta.
  rewrite option_bind_Some, sbrk_0.
  free_next Hr10 f Hf1. free_next Hf1 a Hf2. free_next Hf2 c Hf3.
  free_next Hf3 j Hf4. free_next Hf4 g Hf5. free_next Hf5 e Hf6.
  free_next Hf6 h Hf7. free_next Hf7 i Hf8. free_next Hf8 b Hf9.
  free_next Hf9 d Hf10.
  destruct (run_all_released b0 _ Hb0 Hf10) as (Hbrk & _).
  rewrite Hbrk. by rewrite Z.sub_diag.
Qed.

Lemma main_heap_size_diff_zero_from_4096 : main 1 4096 = Some 0.
Proof. apply main_heap_size_diff_zero; lia. Defined.

(** ** The layout of the heap and of the bins *)

(** X13: after any sequence of calls that keeps the heap within [INT_MAX]
    bytes, the blocks of the physical list tile the heap: every block lies at
    or above the initial break, its size is a multiple of 8 of at least 16,
    the first block is at the initial break, each successor starts right
    after the payload of its predecessor (at the distance
    [data_size_to_block_size] gives) and points back to it, and the last
    block ends at the break. *)
Theorem heap_layout_invariant b0 st ps b :
  0 < b0 -> run (small_call b0) b0 st ps -> live st b ->
  b0 <= b
  /\ MINIMUM_ALLOCATION <= size (rd st b)
  /\ size (rd st b) mod SIZE_MULTIPLE = 0
  /\ (in_use (rd st b) = 0 \/ in_use (rd st b) = 1)
  /\ (prev_phys (rd st b) = NULL -> b = b0)
  /\ (prev_phys (rd st b) <> NULL ->
      next_phys (rd st (prev_phys (rd st b))) = b)
  /\ (next_phys (rd st b) = NULL ->
      heap_tail st = b /\ brk st = b + BLOCK_HEADER_SIZE + size (rd st b))
  /\ (next_phys (rd st b) <> NULL ->
      next_phys (rd st b) = b + BLOCK_HEADER_SIZE + size (rd st b)
      /\ prev_phys (rd st (next_phys (rd st b))) = b
      /\ bytes_between_ptrs b (next_phys (rd st b))
         = data_size_to_block_size (size (rd st b))).
Proof.
  intros Hb0 Hrun Hlive.
  destruct (run_small_inv b0 st ps Hb0 Hrun) as (bl & fl & [Hp Hl Hm] & _ & _).
  pose proof (live_block _ _ _ _ Hp Hlive) as Hb.
  pose proof (block_size _ _ _ _ Hp Hb) as (Hs1 & Hs2 & Hs3 & Hs4).
  destruct (po_block _ _ _ Hp b Hb) as (_ & _ & Hu & _).
  split; [done|]. split; [done|]. split; [done|]. split; [done|].
  split; [by apply (first_block _ _ _ _ Hp)|].
  split; [intros Hn; by destruct (prev_block _ _ _ _ Hp Hb Hn) as (_ & ? & _)|].
  split.
  - intros Hn. destruct (last_block _ _ _ _ Hp Hb Hn). split; [done|ulia].
  - intros Hn. destruct (next_block _ _ _ _ Hp Hb Hn) as (_ & H1 & H2).
    split; [ulia|]. split; [done|].
    rewrite H2. unfold bytes_between_ptrs, data_size_to_block_size.
    f_equal. ulia.
Qed.

Lemma heap_layout_invariant_three_blocks :
  exists st ps,
    exec (small_chk 4096) 1 [Malloc 100; Malloc 24; Malloc 1000; Free 4248]
         (init 4096) [] = Some (st, ps)
    /\ live st 4224
    /\ next_phys (rd st 4224) = 4224 + BLOCK_HEADER_SIZE + size (rd st 4224)
    /\ prev_phys (rd st (next_phys (rd st 4224))) = 4224
    /\ next_phys (rd st (prev_phys (rd st 4224))) = 4224.
Proof.
  eassert (E : exec (small_chk 4096) 1
                 [Malloc 100; Malloc 24; Malloc 1000; Free 4248] (init 4096) []
               = Some (_, _)) by (vm_compute; reflexivity).
  match type of E with _ = Some (?s, _) => set (st := s) in * end.
  assert (Hlive : live st 4224).
  { apply (walk_tail_live st 5). vm_compute. reflexivity. }
  destruct (heap_layout_invariant 4096 st [4296; 4120] 4224)
    as (_ & _ & _ & _ & _ & H1 & _ & H2).
  - lia.
  - eapply (exec_run (small_call 4096) (small_chk 4096) 4096 1 _
              (small_chk_ok 4096)); [apply run_init|exact E].
  - exact Hlive.
  - destruct H2 as (H3 & H4 & _); [vm_compute; discriminate|].
    eexists st, _. split; [exact E|]. split; [exact Hlive|].
    split; [exact H3|]. split; [exact H4|]. apply H1. vm_compute. discriminate.
Defined.

(** X14: after any sequence of calls that keeps the heap within [INT_MAX]
    bytes, every bin is a doubly linked list without repetition of free
    blocks of its size class: bin [i < 63] holds blocks of exactly
    [16 + 8 * i] bytes, the overflow bin blocks of more than 512 bytes; and
    every free block of the heap is on the list of its class. *)
Theorem bins_hold_free_blocks_of_their_size b0 st ps :
  0 < b0 -> run (small_call b0) b0 st ps ->
  exists fl,
    (forall i, 0 <= i < NUM_BINS ->
       dseg st NULL (bin st i) (fl i) NULL /\ NoDup (fl i))
    /\ (forall i b, b ∈ fl i ->
          0 <= i < NUM_BINS /\ in_use (rd st b) = 0
          /\ (i < OVERFLOW_BIN ->
              size (rd st b) = MINIMUM_ALLOCATION + SIZE_MULTIPLE * i)
          /\ (i = OVERFLOW_BIN -> BIGGEST_BINNED_SIZE < size (rd st b)))
    /\ (forall b, live st b -> in_use (rd st b) = 0 ->
          b ∈ fl (size_to_bin (size (rd st b)))).
Proof.
  intros Hb0 Hrun.
  destruct (run_small_inv b0 st ps Hb0 Hrun) as (bl & fl & [Hp Hl Hm] & _ & _).
  exists fl. split; [|split].
  - intros i Hi. split; [by apply (lo_dll _ _ Hl)|apply (lo_nodup _ _ Hl)].
  - intros i b Hb. destruct (lo_bin _ _ Hl _ _ Hb) as [Hi Hsz].
    destruct (mo_in _ _ _ Hm _ _ Hb) as [Hbb Hu].
    destruct (po_block _ _ _ Hp b Hbb) as (_ & Hok & _).
    rewrite size_to_bin_eq in Hsz by done. destruct Hok as [Hr Hmod].
    split; [done|]. split; [done|].
    split; intros Hi'; case_decide; ulia.
  - intros b Hlive Hu. apply (mo_all _ _ _ Hm); [|done].
    by apply (live_block _ _ _ _ Hp).
Qed.

Lemma bins_hold_free_blocks_of_their_size_one_free :
  exists st ps (fl : Z -> list Z),
    exec (small_chk 4096) 1 [Malloc 100; Malloc 24; Malloc 1000; Free 4248]
         (init 4096) [] = Some (st, ps)
    /\ 4224 ∈ fl 1 /\ bin st 1 = 4224
    /\ size (rd st 4224) = MINIMUM_ALLOCATION + SIZE_MULTIPLE * 1.
Proof.
  eassert (E : exec (small_chk 4096) 1
                 [Malloc 100; Malloc 24; Malloc 1000; Free 4248] (init 4096) []
               = Some (_, _)) by (vm_compute; reflexivity).
  match type of E with _ = Some (?s, _) => set (st := s) in * end.
  destruct (bins_hold_free_blocks_of_their_size 4096 st [4296; 4120])
    as (fl & _ & H2 & H3).
  - lia.
  - eapply (exec_run (small_call 4096) (small_chk 4096) 4096 1 _
              (small_chk_ok 4096)); [apply run_init|exact E].
  - assert (Hin : 4224 ∈ fl 1).
    { apply (H3 4224); [|vm_compute; reflexivity].
      apply (walk_tail_live st 5). vm_compute. reflexivity. }
    eexists st, _, fl. split; [exact E|]. split; [exact Hin|].
    split; [vm_compute; reflexivity|].
    destruct (H2 1 4224 Hin) as (_ & _ & H4 & _). apply H4. vm_compute. reflexivity.
Defined.

(** ** How the two public functions compose *)

(** X15: a block of a small size class that is released between two blocks
    in use goes to the head of its bin, and the next request of that size
    gets the same pointer back without any move of the break. *)
Theorem freed_block_is_reused base st bl fl p n fuel :
  wf base st bl fl -> allocated st bl p ->
  next_phys (rd st (data_to_block p)) <> NULL ->
  in_use (rd st (next_phys (rd st (data_to_block p)))) = 1 ->
  (prev_phys (rd st (data_to_block p)) = NULL
   \/ in_use (rd st (prev_phys (rd st (data_to_block p)))) = 1) ->
  size (rd st (data_to_block p)) <= BIGGEST_BINNED_SIZE ->
  0 < n -> round_up_size n = size (rd st (data_to_block p)) ->
  bin (my_free st p) (size_to_bin (size (rd st (data_to_block p))))
  = data_to_block p
  /\ in_use (rd (my_free st p) (data_to_block p)) = 0
  /\ brk (my_free st p) = brk st
  /\ exists st',
       my_malloc fuel (my_free st p) n = Some (st', p)
       /\ brk st' = brk st
       /\ in_use (rd st' (data_to_block p)) = 1
       /\ size (rd st' (data_to_block p)) = size (rd st (data_to_block p)).
Proof.
  intros [Hp Hl Hm] [Hb Hu] Hnn Hnu Hpu Hsz Hn Hr.
  pose proof (block_pos _ _ _ _ Hp Hb) as Hbpos.
  destruct (po_block _ _ _ Hp _ Hb) as (_ & Hok & _).
  pose proof (lo_len _ _ Hl) as Hlen.
  assert (Hpn : p <> NULL) by (rewrite data_to_block_eq in Hbpos; ulia).
  assert (Ep : block_to_data (data_to_block p) = p).
  { rewrite block_to_data_eq, data_to_block_eq. lia. }
  remember (data_to_block p) as b eqn:Eb.
  assert (Ef : my_free st p = insert_into_bin (store st b Fin_use 0) b).
  { unfold my_free. destruct (Z.eqb_spec p NULL) as [|_]; [done|].
    rewrite <- Eb. rewrite coalesce_none by auto.
    destruct (Z.eqb_spec (next_phys (rd st b)) NULL) as [|_]; done. }
  destruct (insert_into_bin_head (store st b Fin_use 0) b) as [Hhead _];
    [by st_rw|].
  revert Hhead. st_rw. intros Hhead.
  assert (Hk : size_to_bin (size (rd st b)) < OVERFLOW_BIN).
  { rewrite size_to_bin_eq by done. destruct Hok. case_decide; ulia. }
  rewrite Ef. split; [done|]. split; [ph_rw; by dec_rw|]. split; [by ph_rw|].
  eexists. split.
  - rewrite my_malloc_eq by lia. rewrite Hr. unfold small_bins.
    rewrite Hhead.
    destruct (Z.ltb_spec (size_to_bin (size (rd st b))) OVERFLOW_BIN); [|lia].
    destruct (Z.eqb_spec b NULL) as [|_]; [ulia|]. cbn [andb negb].
    rewrite malloc_tail_found by ulia. by rewrite Ep.
  - ph_rw. dec_rw. done.
Qed.

Lemma freed_block_is_reused_middle_block :
  exists st ps st',
    exec (small_chk 4096) 1 [Malloc 100; Malloc 24; Malloc 1000] (init 4096) []
    = Some (st, ps)
    /\ bin (my_free st 4248) 1 = 4224
    /\ my_malloc 0 (my_free st 4248) 17 = Some (st', 4248)
    /\ brk st' = brk st.
Proof.
  eassert (E : exec (small_chk 4096) 1 [Malloc 100; Malloc 24; Malloc 1000]
                 (init 4096) [] = Some (_, _)) by (vm_compute; reflexivity).
  match type of E with _ = Some (?s, _) => set (st := s) in * end.
  destruct (exec_small_inv 4096 1 _ _ _ ltac:(lia) E) as (bl & fl & Hwf & _ & Hps).
  destruct (freed_block_is_reused 4096 st bl fl 4248 17 0 Hwf)
    as (H1 & _ & _ & st' & H2 & H3 & _).
  - apply Hps. right. left.
  - vm_compute. discriminate.
  - vm_compute. reflexivity.
  - right. vm_compute. reflexivity.
  - vm_compute. discriminate.
  - lia.
  - vm_compute. reflexivity.
  - eexists st, _, st'. split; [exact E|]. split; [exact H1|].
    split; [exact H2|exact H3].
Defined.

Lemma first_fit_brk fuel st sz :
  forall current st1 b,
    first_fit fuel st current sz = Some (st1, b) ->
    brk st1 = brk st /\ (b = NULL -> st1 = st).
Proof.
  induction fuel as [|fuel IH]; intros current st1 b; cbn [first_fit]; [done|].
  destruct (Z.eqb_spec current NULL) as [Ec|Ec]; [by intros [= <- <-]|].
  destruct (size (rd st current) >=? sz); [|apply IH].
  destruct (to_uint (size (rd st current) - sz) >=? MINIMUM_BLOCK_SIZE).
  - intros E0.
    assert (E : split_block st current (to_int sz) = (st1, b)) by congruence.
    pose proof (brk_split_block st current (to_int sz)) as Hb.
    rewrite E in Hb. cbn [fst] in Hb. split; [done|].
    apply (f_equal snd) in E. cbn [snd] in E. unfold split_block in E.
    cbn [snd] in E. congruence.
  - intros [= <- <-]. split; [by ph_rw|done].
Qed.

Lemma small_bins_brk st s : brk (fst (small_bins st s)) = brk st.
Proof.
  unfold small_bins.
  destruct ((size_to_bin s <? OVERFLOW_BIN)
            && negb (bin st (size_to_bin s) =? NULL)); [cbn [fst]; by ph_rw|].
  destruct ((size_to_bin s <? OVERFLOW_BIN) && (bin st (size_to_bin s) =? NULL));
    [|done].
  pose proof (small_scan_spec st (Z.to_nat OVERFLOW_BIN)
                (size_to_bin (to_uint (s + MINIMUM_BLOCK_SIZE))) s) as Hscan.
  cbv zeta in Hscan.
  destruct (small_scan (Z.to_nat OVERFLOW_BIN) st
              (size_to_bin (to_uint (s + MINIMUM_BLOCK_SIZE))) s) as [st1 bts].
  cbn [fst snd] in Hscan.
  assert (Hb : brk st1 = brk st).
  { destruct Hscan as [[_ ->]|(j & _ & _ & _ & _ & ->)]; [done|by ph_rw]. }
  destruct (negb (bts =? NULL)); [|done].
  by rewrite brk_split_block.
Qed.

(** The break after an allocation: where it was, or above the new block. *)
Lemma my_malloc_brk fuel st n st' p :
  my_malloc fuel st n = Some (st', p) -> n <> 0 ->
  brk st' = brk st
  \/ (st' = fst (grow_heap st (round_up_size n))
      /\ p = block_to_data (brk st)
      /\ brk st' = brk st + round_up_size n + BLOCK_HEADER_SIZE).
Proof.
  intros E Hn. rewrite my_malloc_eq in E by done.
  pose proof (small_bins_brk st (round_up_size n)) as Hb1.
  pose proof (small_bins_null st (round_up_size n)) as Hnull.
  destruct (small_bins st (round_up_size n)) as [st1 b1].
  cbn [fst snd] in *. unfold malloc_tail in E.
  destruct (Z.eqb_spec b1 NULL) as [Hb|Hb].
  - assert (st1 = st) as -> by (specialize (Hnull Hb); congruence).
    destruct (first_fit fuel st (bin st OVERFLOW_BIN) (round_up_size n))
      as [[st2 b2]|] eqn:Eff; [|done].
    destruct (first_fit_brk _ _ _ _ _ _ Eff) as [Hb2 Hsame].
    destruct (Z.eqb_spec b2 NULL) as [->|Hb2n].
    + rewrite (Hsame eq_refl) in E. right.
      destruct (grow_heap_brk_bins st (round_up_size n)) as [Hg _].
      assert (Hs : snd (grow_heap st (round_up_size n)) = brk st) by reflexivity.
      destruct (grow_heap st (round_up_size n)) as [st3 b3].
      cbn [fst snd] in *. injection E as <- <-. by subst b3.
    + injection E as <- <-. by left.
  - destruct (Z.eqb_spec b1 NULL) as [|_]; [done|].
    injection E as <- <-. by left.
Qed.

(** X16: on a valid heap, [my_malloc] leaves the break where it is or moves
    it up by exactly the rounded request plus the header; when it moves the
    break, the new block starts at the old break, is marked in use with the
    rounded size, and is the new [heap_tail].  The break never goes down. *)
Theorem my_malloc_moves_break_by_block base st bl fl fuel n st' p :
  wf base st bl fl ->
  my_malloc fuel st n = Some (st', p) -> 0 < n <= UINT_MAX ->
  (brk st' = brk st
   \/ (brk st' = brk st + round_up_size n + BLOCK_HEADER_SIZE
       /\ p = brk st + BLOCK_HEADER_SIZE
       /\ in_use (rd st' (brk st)) = 1
       /\ size (rd st' (brk st)) = round_up_size n
       /\ heap_tail st' = brk st))
  /\ brk st <= brk st'.
Proof.
  intros _ E Hn.
  assert (Hs : 0 <= round_up_size n).
  { rewrite round_up_size_eq by (unfold UINT_MAX in *; lia).
    repeat case_decide; dlia. }
  destruct (my_malloc_brk _ _ _ _ _ E ltac:(lia)) as [Hb|(-> & -> & Hb)].
  - split; [by left|lia].
  - split; [|ulia]. right. split; [done|]. rewrite block_to_data_eq.
    split; [ulia|].
    unfold grow_heap, sbrk, link_onto_end. cbn [fst snd].
    destruct (heap_tail _ =? NULL) eqn:Et; ph_rw; dec_rw; try done.
    all: destruct (decide (brk st = heap_tail st)); done.
Qed.

Lemma my_malloc_moves_break_by_block_on_empty_heap :
  exists st' p,
    my_malloc 1 (init 4096) 100 = Some (st', p)
    /\ brk st' = 4096 + round_up_size 100 + BLOCK_HEADER_SIZE
    /\ p = 4096 + BLOCK_HEADER_SIZE.
Proof.
  eassert (E : my_malloc 1 (init 4096) 100 = Some (_, _))
    by (vm_compute; reflexivity).
  match type of E with _ = Some (?s, _) => set (st' := s) in * end.
  destruct (my_malloc_moves_break_by_block 4096 (init 4096) ∅ (fun _ => [])
              1 100 st' _ (init_wf 4096 ltac:(lia)) E)
    as [[H|(H1 & H2 & _)] _].
  - vm_compute. split; [reflexivity|discriminate].
  - vm_compute in H. discriminate.
  - eexists st', _. split; [exact E|]. split; [exact H1|exact H2].
Defined.

(** In a valid heap the last block is in use. *)
Lemma tail_in_use base st bl :
  phys_ok base st bl -> heap_tail st <> NULL ->
  heap_tail st ∈ bl /\ in_use (rd st (heap_tail st)) = 1
  /\ next_phys (rd st (heap_tail st)) = NULL /\ heap_tail st < brk st.
Proof.
  intros Hp Ht. destruct (po_tail _ _ _ Hp Ht) as [Hin Hn].
  pose proof (block_size _ _ _ _ Hp Hin) as Hs.
  split; [done|]. split; [|split; [done|lia]].
  destruct (po_block _ _ _ Hp _ Hin) as (_ & _ & [Hu|Hu] & _); [|done].
  by destruct (po_adj _ _ _ Hp _ Hin Hu) as (Hnn & _).
Qed.

(** X17: on a valid heap, an allocation that had to move the break,
    released right away, is undone: the break, [heap_tail] and the bins are
    as before the allocation, every header below the old break is the same,
    and the heap is valid with the same blocks and free lists. *)
Theorem my_malloc_grow_my_free_restores base st bl fl n fuel st' p :
  wf base st bl fl -> 0 < n <= UINT_MAX ->
  my_malloc fuel st n = Some (st', p) -> brk st < brk st' ->
  brk (my_free st' p) = brk st
  /\ heap_tail (my_free st' p) = heap_tail st
  /\ bins (my_free st' p) = bins st
  /\ (forall c, c <> brk st -> rd (my_free st' p) c = rd st c)
  /\ wf base (my_free st' p) bl fl.
Proof.
  intros Hwf Hn E Hgrow. pose proof Hwf as [Hp Hl Hm].
  pose proof (po_base _ _ _ Hp) as Hbase.
  destruct (my_malloc_brk _ _ _ _ _ E ltac:(lia)) as [Hb|(-> & -> & Hb)]; [lia|].
  clear E Hgrow Hb.
  remember (brk st) as b eqn:Eb.
  remember (round_up_size n) as s eqn:Es. clear Es.
  set (st0 := store (store (set_brk st (b + (s + BLOCK_HEADER_SIZE))) b Fsize s)
                    b Fin_use 1).
  assert (Eg : fst (grow_heap st s) = link_onto_end st0 b).
  { unfold grow_heap, sbrk. cbn [fst snd]. by rewrite <- Eb. }
  rewrite Eg.
  assert (Ht0 : heap_tail st0 = heap_tail st) by (unfold st0; by st_rw).
  assert (Hbt : b <> heap_tail st0).
  { rewrite Ht0. intros Ebt.
    destruct (decide (heap_tail st = NULL)) as [E0|E0]; [ulia|].
    destruct (tail_in_use _ _ _ Hp E0) as (_ & _ & _ & ?). lia. }
  assert (Hrd0 : forall c, c <> b -> rd st0 c = rd st c).
  { intros c Hc. unfold st0. rewrite !rd_store.
    rewrite !decide_False by done. by st_rw. }
  destruct (link_unlink st0 b) as (H1 & H2 & H3 & _ & H5 & H6 & H7 & H8 & _).
  { ulia. }
  { done. }
  { rewrite Ht0. intros E0.
    destruct (tail_in_use _ _ _ Hp E0) as (_ & _ & Hn0 & Hlt).
    rewrite Hrd0 by lia. done. }
  cbv zeta in *.
  assert (Ed : data_to_block (block_to_data b) = b) by apply data_to_block_to_data.
  assert (Ec : coalesce (link_onto_end st0 b) b = (link_onto_end st0 b, b)).
  { apply coalesce_none; [|by left]. rewrite H3, Ht0.
    destruct (decide (heap_tail st = NULL)) as [E0|E0]; [by left|right].
    destruct (tail_in_use _ _ _ Hp E0) as (_ & Hu & _ & Hlt).
    assert (Hin : in_use (rd (link_onto_end st0 b) (heap_tail st))
                  = in_use (rd st0 (heap_tail st))).
    { unfold link_onto_end. bool_cases; ph_rw; dec_rw; done. }
    rewrite Hin, Hrd0 by lia. done. }
  assert (Ef : my_free (link_onto_end st0 b) (block_to_data b)
               = set_brk (unlink_block (link_onto_end st0 b)) b).
  { rewrite my_free_tail_eq; rewrite ?Ed, ?Ec; cbn [fst snd]; try done.
    rewrite block_to_data_eq. ulia. }
  rewrite Ef.
  assert (Hrd : forall c, c <> b ->
                  rd (set_brk (unlink_block (link_onto_end st0 b)) b) c = rd st c).
  { intros c Hc. st_rw. rewrite H6 by done. by apply Hrd0. }
  assert (Hbins : bins (set_brk (unlink_block (link_onto_end st0 b)) b) = bins st).
  { st_rw. rewrite H7. unfold st0. by st_rw. }
  assert (Hbl : forall c, c ∈ bl -> c <> b).
  { intros c Hc. pose proof (block_size _ _ _ _ Hp Hc). lia. }
  split; [by st_rw|]. split; [st_rw; by rewrite H5|].
  split; [done|]. split; [done|].
  split.
  - apply (phys_ok_ext base st); [|done].
    split; [st_rw; by rewrite H5|]. split; [by st_rw|].
    intros q Hq. rewrite Hrd by auto. done.
  - apply (lists_ok_ext st); [done| |done].
    intros i x Hx. destruct (mo_in _ _ _ Hm _ _ Hx) as [Hxb _].
    rewrite Hrd by auto. done.
  - split.
    + intros i c Hc. destruct (mo_in _ _ _ Hm _ _ Hc) as [Hcb Hu].
      rewrite Hrd by auto. done.
    + intros c Hc. rewrite Hrd by auto. by apply (mo_all _ _ _ Hm).
Qed.

Lemma my_malloc_grow_my_free_restores_two_blocks :
  exists st ps st' p,
    exec (small_chk 4096) 1 [Malloc 24; Malloc 24; Free 4120] (init 4096) []
    = Some (st, ps)
    /\ my_malloc 1 st 100 = Some (st', p)
    /\ brk st < brk st'
    /\ brk (my_free st' p) = brk st
    /\ heap_tail (my_free st' p) = heap_tail st
    /\ bins (my_free st' p) = bins st.
Proof.
  eassert (E : exec (small_chk 4096) 1 [Malloc 24; Malloc 24; Free 4120]
                 (init 4096) [] = Some (_, _)) by (vm_compute; reflexivity).
  match type of E with _ = Some (?s, _) => set (st := s) in * end.
  destruct (exec_small_inv 4096 1 _ _ _ ltac:(lia) E) as (bl & fl & Hwf & _ & _).
  eassert (Em : my_malloc 1 st 100 = Some (_, _)) by (vm_compute; reflexivity).
  match type of Em with _ = Some (?s, ?q) =>
    set (st' := s) in *; set (p := q) in * end.
  assert (Hlt : brk st < brk st') by (vm_compute; reflexivity).
  destruct (my_malloc_grow_my_free_restores 4096 st bl fl 100 1 st' p Hwf)
    as (H1 & H2 & H3 & _).
  - vm_compute. split; [reflexivity|discriminate].
  - exact Em.
  - exact Hlt.
  - exists st, [4168], st', p. split; [exact E|]. split; [exact Em|].
    split; [exact Hlt|]. split; [exact H1|]. split; [exact H2|exact H3].
Defined.

(** ** The scan of the small bins *)

Lemma small_scan_first st n sz :
  forall index, 0 <= index -> (Z.to_nat (OVERFLOW_BIN - index) <= n)%nat ->
  let r := small_scan n st index sz in
  (snd r = NULL /\ fst r = st
   /\ forall j, index <= j < OVERFLOW_BIN -> skipped st sz j)
  \/ (exists k, index <= k < OVERFLOW_BIN
        /\ snd r = bin st k /\ bin st k <> NULL
        /\ MINIMUM_BLOCK_SIZE <= to_uint (size (rd st (bin st k)) - sz)
        /\ fst r = remove_block st (bin st k)
        /\ forall j, index <= j < k -> skipped st sz j).
Proof.
  induction n as [|n IH]; intros index Hi Hn; cbn [small_scan].
  - left. split; [done|]. split; [done|]. intros j Hj. lia.
  - destruct (Z.ltb_spec index OVERFLOW_BIN) as [Hlt|Hge].
    2:{ left. split; [done|]. split; [done|]. intros j Hj. lia. }
    assert (Hskip : skipped st sz index ->
      (let r := small_scan n st (index + 1) sz in
       (snd r = NULL /\ fst r = st
        /\ forall j, index <= j < OVERFLOW_BIN -> skipped st sz j)
       \/ (exists k, index <= k < OVERFLOW_BIN
             /\ snd r = bin st k /\ bin st k <> NULL
             /\ MINIMUM_BLOCK_SIZE <= to_uint (size (rd st (bin st k)) - sz)
             /\ fst r = remove_block st (bin st k)
             /\ forall j, index <= j < k -> skipped st sz j))).
    { intros Hsk. cbv zeta.
      destruct (IH (index + 1) ltac:(lia) ltac:(lia))
        as [(H1 & H2 & H3)|(k & Hk & H1 & H2 & H3 & H4 & H5)].
      - left. split; [done|]. split; [done|]. intros j Hj.
        destruct (decide (j = index)) as [->|]; [done|]. apply H3. lia.
      - right. exists k. split; [lia|]. repeat split; try done.
        intros j Hj. destruct (decide (j = index)) as [->|]; [done|].
        apply H5. lia. }
    destruct (Z.eqb_spec (bin st index) NULL) as [Eb|Eb]; cbn [negb].
    + apply Hskip. by left.
    + destruct (Z.ltb_spec (to_uint (size (rd st (bin st index)) - sz))
                           MINIMUM_BLOCK_SIZE) as [Hs|Hs].
      * apply Hskip. by right.
      * right. exists index. cbn [fst snd]. repeat split; try done; lia.
Qed.

(** X18: the scan of the small bins, started at any bin, returns the head of
    the lowest bin from there on whose head leaves room for a minimum block
    behind [sz] bytes, and has removed it from its bin; every bin before it
    was passed over because it is empty or its head is too small.  When no
    small bin serves, the scan returns [NULL] and the state as it was. *)
Theorem small_scan_lowest_bin st sz index :
  0 <= index ->
  let r := small_scan (Z.to_nat OVERFLOW_BIN) st index sz in
  (snd r = NULL /\ fst r = st
   /\ forall j, index <= j < OVERFLOW_BIN -> skipped st sz j)
  \/ (exists k, index <= k < OVERFLOW_BIN
        /\ snd r = bin st k /\ bin st k <> NULL
        /\ MINIMUM_BLOCK_SIZE <= to_uint (size (rd st (bin st k)) - sz)
        /\ fst r = remove_block st (bin st k)
        /\ forall j, index <= j < k -> skipped st sz j).
Proof. intros Hi. apply small_scan_first; [done|]. lia. Qed.

Lemma small_scan_lowest_bin_from_6 :
  exists st ps,
    exec (small_chk 4096) 1 [Malloc 100; Malloc 16; Free 4120] (init 4096) []
    = Some (st, ps)
    /\ snd (small_scan (Z.to_nat OVERFLOW_BIN) st 6 24) = 4096
    /\ exists k, 6 <= k < OVERFLOW_BIN /\ bin st k = 4096
         /\ forall j, 6 <= j < k -> skipped st 24 j.
Proof.
  eassert (E : exec (small_chk 4096) 1 [Malloc 100; Malloc 16; Free 4120]
                 (init 4096) [] = Some (_, _)) by (vm_compute; reflexivity).
  match type of E with _ = Some (?s, _) => set (st := s) in * end.
  assert (Hs : snd (small_scan (Z.to_nat OVERFLOW_BIN) st 6 24) = 4096)
    by (vm_compute; reflexivity).
  eexists st, _. split; [exact E|]. split; [exact Hs|].
  destruct (small_scan_lowest_bin st 24 6 ltac:(lia))
    as [(H & _)|(k & Hk & H1 & H2 & H3 & H4 & H5)].
  - rewrite Hs in H. discriminate.
  - exists k. split; [exact Hk|]. split; [by rewrite <- H1|exact H5].
Defined.

(** ** Coalescing on release *)

Lemma coalesce_prev_last st b :
  prev_phys (rd st b) <> NULL -> next_phys (rd st b) = NULL ->
  in_use (rd st (prev_phys (rd st b))) = 0 ->
  coalesce st b = merge_prev_last st b.
Proof.
  intros Hp Hn Hu. rewrite coalesce_eq. cbv zeta. rewrite Hn, Hu.
  destruct (Z.eqb_spec (prev_phys (rd st b)) NULL) as [|_]; [done|].
  reflexivity.
Qed.

(** X19: when the last block of the heap is released and its predecessor is
    free, both are given back: the break goes down to the address of the
    predecessor, that is by the two blocks with their headers, and
    [heap_tail] becomes the block before the predecessor.  The heap is
    valid again. *)
Theorem my_free_tail_after_free_block base st bl fl p :
  wf base st bl fl -> fits base st -> allocated st bl p ->
  next_phys (rd st (data_to_block p)) = NULL ->
  prev_phys (rd st (data_to_block p)) <> NULL ->
  in_use (rd st (prev_phys (rd st (data_to_block p)))) = 0 ->
  let b := data_to_block p in
  let pp := prev_phys (rd st b) in
  brk (my_free st p) = pp
  /\ brk st - brk (my_free st p)
     = (size (rd st pp) + BLOCK_HEADER_SIZE) + (size (rd st b) + BLOCK_HEADER_SIZE)
  /\ heap_tail (my_free st p) = prev_phys (rd st pp)
  /\ exists bl' fl', wf base (my_free st p) bl' fl'.
Proof.
  intros Hwf Hf Ha Hn Hpp Hu. cbv zeta. pose proof Hwf as [Hp Hl Hm].
  destruct Ha as [Hb Hbu].
  pose proof (block_pos _ _ _ _ Hp Hb) as Hbpos.
  assert (Hpn : p <> NULL) by (rewrite data_to_block_eq in Hbpos; ulia).
  destruct (my_free_wf _ _ _ _ _ Hwf Hf (conj Hb Hbu)) as (bl' & fl' & Hwf' & _).
  destruct (prev_block _ _ _ _ Hp Hb Hpp) as (Hpb & _ & Eb).
  destruct (last_block _ _ _ _ Hp Hb Hn) as [_ Ebrk].
  remember (data_to_block p) as b eqn:Ebdef.
  remember (prev_phys (rd st b)) as pp eqn:Eppdef.
  assert (Ec : coalesce st b = merge_prev_last st b).
  { apply coalesce_prev_last; rewrite <- ?Eppdef; done. }
  assert (Es : snd (merge_prev_last st b) = pp).
  { unfold merge_prev_last. cbn [snd]. ph_rw. done. }
  assert (Ef : my_free st p
               = set_brk (unlink_block (fst (merge_prev_last st b))) pp).
  { rewrite my_free_tail_eq; rewrite <- ?Ebdef, ?Ec, ?Es; try done.
    unfold merge_prev_last. cbn [fst]. ph_rw. rewrite <- Eppdef. by dec_rw. }
  rewrite Ef.
  assert (Ht : heap_tail (fst (merge_prev_last st b)) = pp).
  { unfold merge_prev_last. cbn [fst]. ph_rw. done. }
  destruct (unlink_block_tail (fst (merge_prev_last st b))) as [Hut _].
  { rewrite Ht. pose proof (block_pos _ _ _ _ Hp Hpb). ulia. }
  split; [by st_rw|]. split; [st_rw; ulia|]. split.
  - st_rw. rewrite Hut, Ht. unfold merge_prev_last. cbn [fst]. ph_rw. done.
  - exists bl', fl'. by rewrite <- Ef.
Qed.

Lemma my_free_tail_after_free_block_three_blocks :
  exists st ps,
    exec (small_chk 4096) 1 [Malloc 24; Malloc 100; Malloc 40; Free 4168]
         (init 4096) [] = Some (st, ps)
    /\ brk st = 4336
    /\ brk (my_free st 4296) = 4144
    /\ heap_tail (my_free st 4296) = 4096.
Proof.
  eassert (E : exec (small_chk 4096) 1 [Malloc 24; Malloc 100; Malloc 40; Free 4168]
                 (init 4096) [] = Some (_, _)) by (vm_compute; reflexivity).
  match type of E with _ = Some (?s, _) => set (st := s) in * end.
  destruct (exec_small_inv 4096 1 _ _ _ ltac:(lia) E)
    as (bl & fl & Hwf & Hfits & Hps).
  destruct (my_free_tail_after_free_block 4096 st bl fl 4296 Hwf Hfits)
    as (H1 & _ & H3 & _).
  - apply Hps. left.
  - vm_compute. reflexivity.
  - vm_compute. discriminate.
  - vm_compute. reflexivity.
  - eexists st, _. split; [exact E|]. split; [vm_compute; reflexivity|].
    split; [exact H1|exact H3].
Defined.

Lemma coalesce_next st b :
  next_phys (rd st b) <> NULL -> in_use (rd st (next_phys (rd st b))) = 0 ->
  (prev_phys (rd st b) = NULL \/ in_use (rd st (prev_phys (rd st b))) = 1) ->
  coalesce st b = merge_next st b.
Proof.
  intros Hn Hu Hp. rewrite coalesce_eq. cbv zeta. rewrite Hu.
  destruct (Z.eqb_spec (next_phys (rd st b)) NULL) as [|_]; [done|].
  destruct (Z.eqb_spec (prev_phys (rd st b)) NULL) as [Ep|Ep]; cbn [negb andb].
  - reflexivity.
  - destruct Hp as [?| ->]; [done|]. reflexivity.
Qed.

(** X20: when a block is released whose successor is free and whose
    predecessor is not, the two are merged into one free block at the
    address of the released one: its size is the two sizes plus one header,
    it takes over the successor of the absorbed block, which points back to
    it, and it is the head of the bin of the new size.  The break stays and
    the heap is valid without the absorbed block. *)
Theorem my_free_merges_next base st bl fl p :
  wf base st bl fl -> fits base st -> allocated st bl p ->
  next_phys (rd st (data_to_block p)) <> NULL ->
  in_use (rd st (next_phys (rd st (data_to_block p)))) = 0 ->
  (prev_phys (rd st (data_to_block p)) = NULL
   \/ in_use (rd st (prev_phys (rd st (data_to_block p)))) = 1) ->
  let b := data_to_block p in
  let nx := next_phys (rd st b) in
  let st' := my_free st p in
  size (rd st' b) = size (rd st b) + BLOCK_HEADER_SIZE + size (rd st nx)
  /\ in_use (rd st' b) = 0
  /\ next_phys (rd st' b) = next_phys (rd st nx)
  /\ next_phys (rd st nx) <> NULL
  /\ prev_phys (rd st' (next_phys (rd st nx))) = b
  /\ bin st' (size_to_bin (size (rd st' b))) = b
  /\ brk st' = brk st
  /\ exists fl', wf base st' (bl ∖ {[ nx ]}) fl'.
Proof.
  intros Hwf Hf [Hb Hbu] Hn Hnu Hpu. cbv zeta. pose proof Hwf as [Hp Hl Hm].
  pose proof (block_pos _ _ _ _ Hp Hb) as Hbpos.
  assert (Hpn : p <> NULL) by (rewrite data_to_block_eq in Hbpos; ulia).
  remember (data_to_block p) as b eqn:Ebdef.
  destruct (next_block _ _ _ _ Hp Hb Hn) as (Hnb & Hnp & En).
  destruct (po_adj _ _ _ Hp _ Hnb Hnu) as (Hnn & Hnnu & _).
  pose proof (fits_size2 _ _ _ _ Hp Hf Hb Hn) as Hsum.
  pose proof (block_size _ _ _ _ Hp Hb) as Sb.
  pose proof (block_size _ _ _ _ Hp Hnb) as Sn.
  destruct (merge_next_wf _ _ _ _ _ Hwf Hf Hb Hbu Hn Hnu Hpu) as (Hd & Hbrk & _).
  cbv zeta in Hd.
  remember (next_phys (rd st b)) as nx eqn:Enx.
  remember (next_phys (rd st nx)) as nn eqn:Enn.
  assert (Hsz1 : size (rd (fst (merge_next st b)) b)
                 = size (rd st b) + BLOCK_HEADER_SIZE + size (rd st nx)).
  { unfold merge_next, patch_successor. cbn [fst]. ph_rw. rewrite <- Enx.
    rewrite to_uint_to_int_id by ulia.
    bool_cases; ph_rw; dec_rw; ulia. }
  assert (Hnx1 : next_phys (rd (fst (merge_next st b)) b) = nn).
  { unfold merge_next, patch_successor. cbn [fst]. ph_rw. rewrite <- Enx, <- Enn.
    bool_cases; ph_rw; dec_rw; done. }
  assert (Hpv1 : prev_phys (rd (fst (merge_next st b)) nn) = b).
  { unfold merge_next, patch_successor. cbn [fst]. ph_rw. rewrite <- Enx, <- Enn.
    dec_rw. destruct (Z.eqb_spec nn NULL) as [|_]; [done|].
    ph_rw. by dec_rw. }
  assert (Ef : my_free st p
               = insert_into_bin (store (fst (merge_next st b)) b Fin_use 0) b).
  { unfold my_free. destruct (Z.eqb_spec p NULL) as [|_]; [done|].
    rewrite <- Ebdef. rewrite coalesce_next by (rewrite <- ?Enx; done).
    rewrite (surjective_pairing (merge_next st b)).
    change (snd (merge_next st b)) with b. rewrite Hnx1.
    destruct (Z.eqb_spec nn NULL) as [|_]; done. }
  pose proof (release_wf _ _ _ _ _ Hd ltac:(rewrite Hnx1; done)) as Hwf'.
  cbv zeta in Hwf'.
  destruct (insert_into_bin_head (store (fst (merge_next st b)) b Fin_use 0) b)
    as [Hhead _].
  { rewrite <- (length_bins_insert_into_bin _ b).
    apply (lo_len _ _ (wf_lists _ _ _ _ Hwf')). }
  rewrite Ef. ph_rw. dec_rw. rewrite Hsz1, Hnx1, Hpv1.
  split; [done|]. split; [done|]. split; [done|]. split; [done|].
  split; [done|]. split.
  - revert Hhead. ph_rw. by rewrite Hsz1.
  - split; [done|]. eexists. exact Hwf'.
Qed.

Lemma my_free_merges_next_three_blocks :
  exists st ps,
    exec (small_chk 4096) 1 [Malloc 24; Malloc 100; Malloc 40; Free 4168]
         (init 4096) [] = Some (st, ps)
    /\ size (rd st 4096) = 24 /\ size (rd st 4144) = 104
    /\ size (rd (my_free st 4120) 4096) = 24 + BLOCK_HEADER_SIZE + 104
    /\ next_phys (rd (my_free st 4120) 4096) = 4272
    /\ prev_phys (rd (my_free st 4120) 4272) = 4096
    /\ bin (my_free st 4120) (size_to_bin 152) = 4096.
Proof.
  eassert (E : exec (small_chk 4096) 1 [Malloc 24; Malloc 100; Malloc 40; Free 4168]
                 (init 4096) [] = Some (_, _)) by (vm_compute; reflexivity).
  match type of E with _ = Some (?s, _) => set (st := s) in * end.
  destruct (exec_small_inv 4096 1 _ _ _ ltac:(lia) E)
    as (bl & fl & Hwf & Hfits & Hps).
  destruct (my_free_merges_next 4096 st bl fl 4120 Hwf Hfits)
    as (H1 & _ & H3 & _ & H5 & H6 & _).
  - apply Hps. right. left.
  - vm_compute. discriminate.
  - vm_compute. reflexivity.
  - left. vm_compute. reflexivity.
  - eexists st, _. split; [exact E|].
    split; [vm_compute; reflexivity|]. split; [vm_compute; reflexivity|].
    split; [exact H1|]. split; [exact H3|]. split; [exact H5|].
    rewrite H1 in H6. exact H6.
Defined.

Lemma coalesce_both st b :
  prev_phys (rd st b) <> NULL -> next_phys (rd st b) <> NULL ->
  in_use (rd st (prev_phys (rd st b))) = 0 ->
  in_use (rd st (next_phys (rd st b))) = 0 ->
  coalesce st b = merge_both st b.
Proof.
  intros Hp Hn Hpu Hnu. rewrite coalesce_eq. cbv zeta. rewrite Hpu, Hnu.
  destruct (Z.eqb_spec (prev_phys (rd st b)) NULL) as [|_]; [done|].
  destruct (Z.eqb_spec (next_phys (rd st b)) NULL) as [|_]; [done|].
  reflexivity.
Qed.

(** X21: when a block is released between two free blocks, the three are
    merged into one free block at the address of the predecessor: its size
    is the three sizes plus two headers, it takes over the successor of the
    absorbed successor, which points back to it, and it is the head of the
    bin of the new size.  The break stays and the heap is valid without the
    two absorbed blocks. *)
Theorem my_free_merges_both base st bl fl p :
  wf base st bl fl -> fits base st -> allocated st bl p ->
  prev_phys (rd st (data_to_block p)) <> NULL ->
  next_phys (rd st (data_to_block p)) <> NULL ->
  in_use (rd st (prev_phys (rd st (data_to_block p)))) = 0 ->
  in_use (rd st (next_phys (rd st (data_to_block p)))) = 0 ->
  let b := data_to_block p in
  let pv := prev_phys (rd st b) in
  let nx := next_phys (rd st b) in
  let st' := my_free st p in
  size (rd st' pv)
  = size (rd st pv) + BLOCK_HEADER_SIZE + size (rd st b)
    + BLOCK_HEADER_SIZE + size (rd st nx)
  /\ in_use (rd st' pv) = 0
  /\ next_phys (rd st' pv) = next_phys (rd st nx)
  /\ next_phys (rd st nx) <> NULL
  /\ prev_phys (rd st' (next_phys (rd st nx))) = pv
  /\ bin st' (size_to_bin (size (rd st' pv))) = pv
  /\ brk st' = brk st
  /\ exists fl', wf base st' (bl ∖ {[ b ]} ∖ {[ nx ]}) fl'.
Proof.
  intros Hwf Hf [Hb Hbu] Hpp Hn Hpu Hnu. cbv zeta. pose proof Hwf as [Hp Hl Hm].
  pose proof (block_pos _ _ _ _ Hp Hb) as Hbpos.
  assert (Hpn : p <> NULL) by (rewrite data_to_block_eq in Hbpos; ulia).
  remember (data_to_block p) as b eqn:Ebdef.
  destruct (next_block _ _ _ _ Hp Hb Hn) as (Hnb & Hnp & En).
  destruct (prev_block _ _ _ _ Hp Hb Hpp) as (Hpb & Hpnx & Epv).
  destruct (po_adj _ _ _ Hp _ Hnb Hnu) as (Hnn & Hnnu & _).
  pose proof (block_size _ _ _ _ Hp Hb) as Sb.
  pose proof (block_size _ _ _ _ Hp Hnb) as Sn.
  pose proof (block_size _ _ _ _ Hp Hpb) as Sp.
  pose proof (block_pos _ _ _ _ Hp Hpb) as Hpvpos.
  assert (Hfit : brk st - base <= INT_MAX) by exact Hf.
  destruct (merge_both_wf _ _ _ _ _ Hwf Hf Hb Hbu Hpp Hn Hpu Hnu)
    as (Hd & Hbrk & _).
  cbv zeta in Hd.
  remember (next_phys (rd st b)) as nx eqn:Enx.
  remember (prev_phys (rd st b)) as pv eqn:Epvdef.
  remember (next_phys (rd st nx)) as nn eqn:Enn.
  assert (Hsz1 : size (rd (fst (merge_both st b)) pv)
                 = size (rd st pv) + BLOCK_HEADER_SIZE + size (rd st b)
                   + BLOCK_HEADER_SIZE + size (rd st nx)).
  { unfold merge_both, patch_successor. cbn [fst]. ph_rw.
    rewrite <- Enx, <- Epvdef.
    rewrite to_uint_to_int_id by ulia.
    bool_cases; ph_rw; dec_rw; ulia. }
  assert (Hnx1 : next_phys (rd (fst (merge_both st b)) pv) = nn).
  { unfold merge_both, patch_successor. cbn [fst]. ph_rw.
    rewrite <- Enx, <- Epvdef, <- Enn.
    bool_cases; ph_rw; dec_rw; done. }
  assert (Hpv1 : prev_phys (rd (fst (merge_both st b)) nn) = pv).
  { unfold merge_both, patch_successor. cbn [fst]. ph_rw.
    rewrite <- Enx, <- Epvdef, <- Enn.
    dec_rw. destruct (Z.eqb_spec nn NULL) as [|_]; [done|].
    ph_rw. by dec_rw. }
  assert (Es : snd (merge_both st b) = pv).
  { rewrite snd_merge_both. done. }
  assert (Ef : my_free st p
               = insert_into_bin (store (fst (merge_both st b)) pv Fin_use 0) pv).
  { unfold my_free. destruct (Z.eqb_spec p NULL) as [|_]; [done|].
    rewrite <- Ebdef.
    rewrite coalesce_both by (rewrite <- ?Enx, <- ?Epvdef; done).
    rewrite (surjective_pairing (merge_both st b)).
    rewrite Es, Hnx1.
    destruct (Z.eqb_spec nn NULL) as [|_]; done. }
  pose proof (release_wf _ _ _ _ _ Hd ltac:(rewrite Hnx1; done)) as Hwf'.
  cbv zeta in Hwf'.
  destruct (insert_into_bin_head (store (fst (merge_both st b)) pv Fin_use 0) pv)
    as [Hhead _].
  { rewrite <- (length_bins_insert_into_bin _ pv).
    apply (lo_len _ _ (wf_lists _ _ _ _ Hwf')). }
  rewrite Ef. ph_rw. dec_rw. rewrite Hsz1, Hnx1, Hpv1.
  split; [done|]. split; [done|]. split; [done|]. split; [done|].
  split; [done|]. split.
  - revert Hhead. ph_rw. by rewrite Hsz1.
  - split; [done|]. eexists. exact Hwf'.
Qed.

Lemma my_free_merges_both_five_blocks :
  exists st ps,
    exec (small_chk 4096) 1
         [Malloc 24; Malloc 100; Malloc 40; Malloc 16; Free 4120; Free 4296]
         (init 4096) [] = Some (st, ps)
    /\ size (rd (my_free st 4168) 4096)
       = 24 + BLOCK_HEADER_SIZE + 104 + BLOCK_HEADER_SIZE + 40
    /\ next_phys (rd (my_free st 4168) 4096) = 4336
    /\ prev_phys (rd (my_free st 4168) 4336) = 4096
    /\ bin (my_free st 4168) (size_to_bin 216) = 4096.
Proof.
  eassert (E : exec (small_chk 4096) 1
                 [Malloc 24; Malloc 100; Malloc 40; Malloc 16; Free 4120;
                  Free 4296] (init 4096) [] = Some (_, _))
    by (vm_compute; reflexivity).
  match type of E with _ = Some (?s, _) => set (st := s) in * end.
  destruct (exec_small_inv 4096 1 _ _ _ ltac:(lia) E)
    as (bl & fl & Hwf & Hfits & Hps).
  destruct (my_free_merges_both 4096 st bl fl 4168 Hwf Hfits)
    as (H1 & _ & H3 & _ & H5 & H6 & _).
  - apply Hps. right. left.
  - vm_compute. discriminate.
  - vm_compute. discriminate.
  - vm_compute. reflexivity.
  - vm_compute. reflexivity.
  - eexists st, _. split; [exact E|].
    split; [exact H1|]. split; [exact H3|]. split; [exact H5|].
    rewrite H1 in H6. exact H6.
Defined.

Lemma coalesce_prev st b :
  prev_phys (rd st b) <> NULL -> prev_phys (rd st b) <> b ->
  next_phys (rd st b) <> NULL ->
  in_use (rd st (prev_phys (rd st b))) = 0 ->
  in_use (rd st (next_phys (rd st b))) = 1 ->
  coalesce st b = merge_prev_gen st b.
Proof.
  intros Hp Hpb Hn Hpu Hnu. rewrite coalesce_eq. cbv zeta. rewrite Hpu, Hnu.
  destruct (Z.eqb_spec (prev_phys (rd st b)) NULL) as [|_]; [done|].
  destruct (Z.eqb_spec (next_phys (rd st b)) NULL) as [|_]; [done|].
  cbn [negb andb]. change (1 =? 0) with false. cbn [andb].
  change (1 =? 1) with true. cbv iota. by apply merge_prev_gen_eq.
Qed.

(** X22: when a block is released whose predecessor is free and whose
    successor is in use, the two are merged into one free block at the
    address of the predecessor: its size is the two sizes plus one header,
    the successor of the released block points back to it, and it is the
    head of the bin of the new size.  The break stays and the heap is valid
    without the released block. *)
Theorem my_free_merges_prev base st bl fl p :
  wf base st bl fl -> fits base st -> allocated st bl p ->
  prev_phys (rd st (data_to_block p)) <> NULL ->
  next_phys (rd st (data_to_block p)) <> NULL ->
  in_use (rd st (prev_phys (rd st (data_to_block p)))) = 0 ->
  in_use (rd st (next_phys (rd st (data_to_block p)))) = 1 ->
  let b := data_to_block p in
  let pv := prev_phys (rd st b) in
  let st' := my_free st p in
  size (rd st' pv) = size (rd st pv) + BLOCK_HEADER_SIZE + size (rd st b)
  /\ in_use (rd st' pv) = 0
  /\ next_phys (rd st' pv) = next_phys (rd st b)
  /\ prev_phys (rd st' (next_phys (rd st b))) = pv
  /\ bin st' (size_to_bin (size (rd st' pv))) = pv
  /\ brk st' = brk st
  /\ exists fl', wf base st' (bl ∖ {[ b ]}) fl'.
Proof.
  intros Hwf Hf [Hb Hbu] Hpp Hn Hpu Hnu. cbv zeta. pose proof Hwf as [Hp Hl Hm].
  pose proof (block_pos _ _ _ _ Hp Hb) as Hbpos.
  assert (Hpn : p <> NULL) by (rewrite data_to_block_eq in Hbpos; ulia).
  remember (data_to_block p) as b eqn:Ebdef.
  destruct (next_block _ _ _ _ Hp Hb Hn) as (Hnb & Hnp & En).
  destruct (prev_block _ _ _ _ Hp Hb Hpp) as (Hpb & Hpnx & Epv).
  pose proof (block_size _ _ _ _ Hp Hb) as Sb.
  pose proof (block_size _ _ _ _ Hp Hnb) as Sn.
  pose proof (block_size _ _ _ _ Hp Hpb) as Sp.
  pose proof (block_pos _ _ _ _ Hp Hpb) as Hpvpos.
  assert (Hfit : brk st - base <= INT_MAX) by exact Hf.
  destruct (merge_prev_gen_wf _ _ _ _ _ Hwf Hf Hb Hbu Hpp Hpu (or_intror Hnu))
    as (Hd & Hbrk & _).
  cbv zeta in Hd.
  remember (next_phys (rd st b)) as nx eqn:Enx.
  remember (prev_phys (rd st b)) as pv eqn:Epvdef.
  assert (Hsz1 : size (rd (fst (merge_prev_gen st b)) pv)
                 = size (rd st pv) + BLOCK_HEADER_SIZE + size (rd st b)).
  { unfold merge_prev_gen, patch_successor. cbn [fst]. ph_rw.
    rewrite <- Enx, <- Epvdef.
    rewrite to_uint_to_int_id by ulia.
    bool_cases; ph_rw; dec_rw; ulia. }
  assert (Hnx1 : next_phys (rd (fst (merge_prev_gen st b)) pv) = nx).
  { unfold merge_prev_gen, patch_successor. cbn [fst]. ph_rw.
    rewrite <- Enx, <- Epvdef.
    bool_cases; ph_rw; dec_rw; done. }
  assert (Hpv1 : prev_phys (rd (fst (merge_prev_gen st b)) nx) = pv).
  { unfold merge_prev_gen, patch_successor. cbn [fst]. ph_rw.
    rewrite <- Enx, <- Epvdef.
    dec_rw. destruct (Z.eqb_spec nx NULL) as [|_]; [done|].
    ph_rw. by dec_rw. }
  assert (Es : snd (merge_prev_gen st b) = pv).
  { rewrite snd_merge_prev_gen. done. }
  assert (Ef : my_free st p
               = insert_into_bin (store (fst (merge_prev_gen st b)) pv Fin_use 0) pv).
  { unfold my_free. destruct (Z.eqb_spec p NULL) as [|_]; [done|].
    rewrite <- Ebdef.
    rewrite coalesce_prev by (rewrite <- ?Enx, <- ?Epvdef; first [done|lia]).
    rewrite (surjective_pairing (merge_prev_gen st b)).
    rewrite Es, Hnx1.
    destruct (Z.eqb_spec nx NULL) as [|_]; done. }
  pose proof (release_wf _ _ _ _ _ Hd ltac:(rewrite Hnx1; done)) as Hwf'.
  cbv zeta in Hwf'.
  destruct (insert_into_bin_head
              (store (fst (merge_prev_gen st b)) pv Fin_use 0) pv) as [Hhead _].
  { rewrite <- (length_bins_insert_into_bin _ pv).
    apply (lo_len _ _ (wf_lists _ _ _ _ Hwf')). }
  rewrite Ef. ph_rw. dec_rw. rewrite Hsz1, Hnx1, Hpv1.
  split; [done|]. split; [done|]. split; [done|]. split; [done|].
  split.
  - revert Hhead. ph_rw. by rewrite Hsz1.
  - split; [done|]. eexists. exact Hwf'.
Qed.

Lemma my_free_merges_prev_three_blocks :
  exists st ps,
    exec (small_chk 4096) 1 [Malloc 24; Malloc 100; Malloc 40; Free 4120]
         (init 4096) [] = Some (st, ps)
    /\ size (rd (my_free st 4168) 4096) = 24 + BLOCK_HEADER_SIZE + 104
    /\ next_phys (rd (my_free st 4168) 4096) = 4272
    /\ prev_phys (rd (my_free st 4168) 4272) = 4096
    /\ bin (my_free st 4168) (size_to_bin 152) = 4096.
Proof.
  eassert (E : exec (small_chk 4096) 1 [Malloc 24; Malloc 100; Malloc 40; Free 4120]
                 (init 4096) [] = Some (_, _)) by (vm_compute; reflexivity).
  match type of E with _ = Some (?s, _) => set (st := s) in * end.
  destruct (exec_small_inv 4096 1 _ _ _ ltac:(lia) E)
    as (bl & fl & Hwf & Hfits & Hps).
  destruct (my_free_merges_prev 4096 st bl fl 4168 Hwf Hfits)
    as (H1 & _ & H3 & H5 & H6 & _).
  - apply Hps. right. left.
  - vm_compute. discriminate.
  - vm_compute. discriminate.
  - vm_compute. reflexivity.
  - vm_compute. reflexivity.
  - eexists st, _. split; [exact E|].
    split; [exact H1|]. split; [exact H3|]. split; [exact H5|].
    rewrite H1 in H6. exact H6.
Defined.

(** ** Allocation and splitting while the sizes fit an [int] *)

(** X23: the coalescing invariant.  Starting from the empty heap, after any
    sequence of calls that respects the preconditions, whose requests are at
    most [2 ^ 32 - 8] bytes and during which the heap never spans more than
    [INT_MAX] bytes, no two physically adjacent blocks are both free. *)
Theorem no_adjacent_free_invariant b0 st ps :
  0 < b0 -> run (small_call b0) b0 st ps -> no_adjacent_free st.
Proof.
  intros Hb Hrun. destruct (run_small_inv b0 st ps Hb Hrun) as (bl & fl & Hwf & _).
  exact (wf_no_adjacent_free _ _ _ _ Hwf).
Qed.

Lemma no_adjacent_free_invariant_run :
  exists st ps,
    exec (small_chk 4096) 1 [Malloc 24; Malloc 100; Malloc 24; Free 4168]
         (init 4096) [] = Some (st, ps)
    /\ live st 4144 /\ in_use (rd st 4144) = 0
    /\ no_adjacent_free st.
Proof.
  eexists _, _. split; [vm_compute; reflexivity|].
  split; [apply (walk_tail_live _ 5); vm_compute; reflexivity|].
  split; [vm_compute; reflexivity|].
  apply (no_adjacent_free_invariant 4096 _ [4296; 4120]); [lia|].
  eapply (exec_run (small_call 4096) (small_chk 4096) 4096 1
            [Malloc 24; Malloc 100; Malloc 24; Free 4168] (small_chk_ok 4096));
    [apply run_init|]. vm_compute. reflexivity.
Defined.

(** [split_block] on a free block of a valid heap. *)
Lemma split_block_listed base st bl fl k b want :
  wf base st bl fl -> b ∈ fl k ->
  0 <= want -> want + BLOCK_HEADER_SIZE <= INT_MAX ->
  want + MINIMUM_BLOCK_SIZE <= size (rd st b) ->
  size (rd st b) <= INT_MAX \/ 2 ^ 31 + want <= size (rd st b) ->
  let st' := fst (split_block st b want) in
  let r := b + BLOCK_HEADER_SIZE + want in
  snd (split_block st b want) = b
  /\ size (rd st' b) = want /\ in_use (rd st' b) = 1
  /\ size (rd st' r) = size (rd st b) - want - BLOCK_HEADER_SIZE
  /\ in_use (rd st' r) = 0
  /\ next_phys (rd st' b) = r /\ prev_phys (rd st' r) = b
  /\ next_phys (rd st' r) = next_phys (rd st b)
  /\ next_phys (rd st b) <> NULL
  /\ prev_phys (rd st' (next_phys (rd st b))) = r
  /\ heap_tail st' = heap_tail st
  /\ bin st' (size_to_bin (size (rd st' r))) = r
  /\ prev_free (rd st' r) = NULL
  /\ brk st' = brk st
  /\ (forall c, c ∈ bl -> c <> b ->
        size (rd st' c) = size (rd st c)
        /\ in_use (rd st' c) = in_use (rd st c)).
Proof.
  intros Hwf Hin Hw Hoff Hsz _. cbv zeta.
  pose proof Hwf as [Hp Hl Hm].
  destruct (mo_in _ _ _ Hm _ _ Hin) as [Hb Hu].
  pose proof (block_pos _ _ _ _ Hp Hb) as Hpos.
  destruct (po_block _ _ _ Hp b Hb) as (_ & Sb & _).
  destruct (po_adj _ _ _ Hp b Hb Hu) as (Hn & _).
  destruct (next_block _ _ _ _ Hp Hb Hn) as (Hnb & _ & En).
  destruct (split_block_fields st b want Hpos Hw Hoff)
    as (E1 & E2 & E3 & E4 & E5 & E6 & E7 & E8 & E9 & _ & E10 & E11 & E12).
  - ulia.
  - right. ulia.
  - apply Hl.
  - destruct (E9 Hn) as [E9a E9b].
    repeat (split; [done|]).
    intros c Hc Hcb.
    assert (Hcr : c <> b + BLOCK_HEADER_SIZE + want).
    { intros ->.
      destruct (decide (b < b + BLOCK_HEADER_SIZE + want)) as [Hlt|]; [|ulia].
      pose proof (po_order _ _ _ Hp b _ Hb Hc Hlt). ulia. }
    unfold split_block, ptr_add_bytes. cbn [fst].
    rewrite (to_int_id (want + BLOCK_HEADER_SIZE)) by ulia.
    replace (b + (want + BLOCK_HEADER_SIZE)) with (b + BLOCK_HEADER_SIZE + want)
      by lia.
    destruct (Z.eqb_spec (next_phys (rd (remove_block st b) b)) NULL);
      cbn [negb]; ph_rw; dec_rw; done.
Qed.

(** X24: for a free block [b] of a valid heap and a request [want] such
    that [want] plus the header fits an [int] and [size b - want] is at
    least the minimum block size, [split_block] returns [b] with
    [size = want] and [in_use = 1]; the residual is at [b + header + want]
    with [size = size b - want - header] and [in_use = 0]; it is the
    successor of [b] and the predecessor of the old successor of [b], and
    it is the head of the bin of its size; [heap_tail] and the break stay,
    and no other block of the heap changes its size or its flag.  The last
    hypothesis keeps the subtraction [old_block_size - allocation_size] of
    the source within [int]. *)
Theorem split_block_result base st bl fl k b want :
  wf base st bl fl -> b ∈ fl k ->
  0 <= want -> want + BLOCK_HEADER_SIZE <= INT_MAX ->
  want + MINIMUM_BLOCK_SIZE <= size (rd st b) ->
  size (rd st b) <= INT_MAX \/ 2 ^ 31 + want <= size (rd st b) ->
  let st' := fst (split_block st b want) in
  let r := b + BLOCK_HEADER_SIZE + want in
  snd (split_block st b want) = b
  /\ size (rd st' b) = want /\ in_use (rd st' b) = 1
  /\ size (rd st' r) = size (rd st b) - want - BLOCK_HEADER_SIZE
  /\ in_use (rd st' r) = 0
  /\ next_phys (rd st' b) = r /\ prev_phys (rd st' r) = b
  /\ next_phys (rd st' r) = next_phys (rd st b)
  /\ next_phys (rd st b) <> NULL
  /\ prev_phys (rd st' (next_phys (rd st b))) = r
  /\ heap_tail st' = heap_tail st
  /\ bin st' (size_to_bin (size (rd st' r))) = r
  /\ prev_free (rd st' r) = NULL
  /\ brk st' = brk st
  /\ (forall c, c ∈ bl -> c <> b ->
        size (rd st' c) = size (rd st c)
        /\ in_use (rd st' c) = in_use (rd st c)).
Proof. apply split_block_listed. Qed.

Lemma split_block_result_at_104 :
  exists st ps,
    exec (small_chk 4096) 1 [Malloc 100; Malloc 16; Free 4120] (init 4096) []
    = Some (st, ps)
    /\ size (rd st 4096) = 104 /\ in_use (rd st 4096) = 0
    /\ snd (split_block st 4096 24) = 4096
    /\ size (rd (fst (split_block st 4096 24)) 4096) = 24
    /\ in_use (rd (fst (split_block st 4096 24)) 4096) = 1
    /\ size (rd (fst (split_block st 4096 24)) 4144) = 56
    /\ in_use (rd (fst (split_block st 4096 24)) 4144) = 0
    /\ bin (fst (split_block st 4096 24)) (size_to_bin 56) = 4144.
Proof.
  eassert (E : exec (small_chk 4096) 1 [Malloc 100; Malloc 16; Free 4120]
                 (init 4096) [] = Some (_, _)) by (vm_compute; reflexivity).
  match type of E with _ = Some (?s, _) => set (st := s) in * end.
  destruct (run_small_inv 4096 st [4248]) as (bl & fl & Hwf & _ & _); [lia| |].
  { eapply (exec_run (small_call 4096) (small_chk 4096) 4096 1
              [Malloc 100; Malloc 16; Free 4120] (small_chk_ok 4096));
      [apply run_init|]. vm_compute. reflexivity. }
  destruct (live_listed 4096 st bl fl 5 4096 Hwf) as [_ Hin];
    [vm_compute; reflexivity..|].
  destruct (split_block_result 4096 st bl fl _ 4096 24 Hwf Hin)
    as (E1 & E2 & E3 & E4 & E5 & _ & _ & _ & _ & _ & _ & E6 & _).
  - lia.
  - vm_compute. discriminate.
  - vm_compute. discriminate.
  - left. vm_compute. discriminate.
  - cbv zeta in E6. change (4096 + BLOCK_HEADER_SIZE + 24) with 4144 in *.
    rewrite E4 in E6.
    change (size (rd st 4096) - 24 - BLOCK_HEADER_SIZE) with 56 in *.
    eexists st, _. split; [exact E|].
    split; [vm_compute; reflexivity|]. split; [vm_compute; reflexivity|].
    repeat split; assumption.
Defined.

(** X25: on a valid heap that spans at most [INT_MAX] bytes, for every
    request [0 < n <= 2 ^ 32 - 8], [my_malloc] returns (given fuel for the
    overflow list) a pointer that is not null, whose block is marked in use
    and has a recorded payload size of at least [n], whichever path served
    the request.  When the heap after the call spans at most [INT_MAX]
    bytes too, it is valid again and the block is one of its blocks. *)
Theorem my_malloc_returns_block base st bl fl n fuel :
  wf base st bl fl -> fits base st -> 0 < n <= 2 ^ 32 - 8 ->
  (length (fl OVERFLOW_BIN) < fuel)%nat ->
  exists st' p,
    my_malloc fuel st n = Some (st', p)
    /\ p <> NULL
    /\ in_use (rd st' (data_to_block p)) = 1
    /\ n <= size (rd st' (data_to_block p))
    /\ (fits base st' ->
        exists bl' fl', wf base st' bl' fl' /\ allocated st' bl' p).
Proof.
  intros Hwf _ Hn Hfuel.
  destruct (my_malloc_served base st bl fl n fuel Hwf Hn Hfuel)
    as (st' & b & E & Hpos & Hu & Hsz).
  destruct (my_malloc_wf base st bl fl n fuel Hwf Hn Hfuel)
    as (st'' & p & E' & Hpost).
  rewrite E in E'. injection E' as <- <-.
  exists st', (block_to_data b). rewrite data_to_block_to_data in *.
  split; [done|]. split; [rewrite block_to_data_eq; ulia|].
  split; [done|]. split; [done|]. intros Hfits.
  destruct (Hpost Hfits) as (_ & bl' & fl' & Hwf' & Hb & Hu' & _).
  exists bl', fl'. split; [done|]. split; [by rewrite data_to_block_to_data|].
  by rewrite data_to_block_to_data.
Qed.

Lemma my_malloc_returns_block_on_empty_heap :
  exists st' p,
    my_malloc 1 (init 4096) 24 = Some (st', p)
    /\ p <> NULL
    /\ in_use (rd st' (data_to_block p)) = 1
    /\ 24 <= size (rd st' (data_to_block p)).
Proof.
  destruct (my_malloc_returns_block 4096 (init 4096) ∅ (fun _ => []) 24 1)
    as (st' & p & E & H1 & H2 & H3 & _).
  - apply init_wf. lia.
  - vm_compute. discriminate.
  - lia.
  - cbn [length]. lia.
  - exists st', p. repeat split; assumption.
Defined.

(** X26: on a valid heap that spans at most [INT_MAX] bytes, when the small
    bins give nothing and the overflow bin holds a block large enough,
    [my_malloc] serves the request from the first such block [b] in
    head-to-tail order.  If [size b] minus the rounded request is below the
    minimum block size, [b] is handed over whole: its size and its
    successor are unchanged, it is marked in use and taken off its list,
    and the heap has the same blocks as before.  Otherwise [b] is split: it
    gets the rounded request as its size and is marked in use, and the rest
    becomes a new free block right behind its payload, linked between [b]
    and the old successor of [b] and put at the head of the bin of its
    size; the heap is valid with this one block more.  The break stays
    where it is in both cases. *)
Theorem overflow_first_fit base st bl fl n fuel b :
  wf base st bl fl -> fits base st -> 0 < n <= 2 ^ 32 - 8 ->
  snd (small_bins st (round_up_size n)) = NULL ->
  first_large st (round_up_size n) (fl OVERFLOW_BIN) = Some b ->
  (length (fl OVERFLOW_BIN) < fuel)%nat ->
  let s := round_up_size n in
  let r := b + BLOCK_HEADER_SIZE + s in
  dseg st NULL (bin st OVERFLOW_BIN) (fl OVERFLOW_BIN) NULL
  /\ (exists l1 l2,
        fl OVERFLOW_BIN = l1 ++ b :: l2 /\ s <= size (rd st b)
        /\ forall c, c ∈ l1 -> size (rd st c) < s)
  /\ (size (rd st b) - s < MINIMUM_BLOCK_SIZE ->
      exists st',
        my_malloc fuel st n = Some (st', block_to_data b)
        /\ size (rd st' b) = size (rd st b)
        /\ in_use (rd st' b) = 1
        /\ next_phys (rd st' b) = next_phys (rd st b)
        /\ brk st' = brk st
        /\ wf base st' bl
              (fl_set fl OVERFLOW_BIN (list_del b (fl OVERFLOW_BIN))))
  /\ (MINIMUM_BLOCK_SIZE <= size (rd st b) - s ->
      exists st' fl',
        my_malloc fuel st n = Some (st', block_to_data b)
        /\ size (rd st' b) = s /\ in_use (rd st' b) = 1
        /\ (r ∉ bl)
        /\ size (rd st' r) = size (rd st b) - s - BLOCK_HEADER_SIZE
        /\ in_use (rd st' r) = 0
        /\ next_phys (rd st' b) = r /\ prev_phys (rd st' r) = b
        /\ next_phys (rd st' r) = next_phys (rd st b)
        /\ prev_phys (rd st' (next_phys (rd st b))) = r
        /\ bin st' (size_to_bin (size (rd st' r))) = r
        /\ brk st' = brk st
        /\ wf base st' (bl ∪ {[ r ]}) fl').
Proof.
  intros Hwf Hfits Hn Hsmall Hfirst Hfuel. cbv zeta.
  pose proof Hwf as [Hp Hl Hm].
  assert (Hd : dseg st NULL (bin st OVERFLOW_BIN) (fl OVERFLOW_BIN) NULL).
  { apply (lo_dll _ _ Hl). ulia. }
  destruct (first_large_first _ _ _ _ Hfirst) as (l1 & l2 & El & Hsz & Hl1).
  assert (Hin : b ∈ fl OVERFLOW_BIN).
  { rewrite El. apply elem_of_app. right. left. }
  destruct (mo_in _ _ _ Hm _ _ Hin) as [Hbb Hbu].
  pose proof (block_pos _ _ _ _ Hp Hbb) as Hbpos.
  pose proof (po_block _ _ _ Hp b Hbb) as (_ & Sb & _).
  pose proof (fits_size _ _ _ _ Hp Hfits Hbb) as Hmax.
  assert (Hs : size_ok (round_up_size n)).
  { pose proof (round_up_size_spec n) as H. ulia. }
  assert (Hdiff : to_uint (size (rd st b) - round_up_size n)
                  = size (rd st b) - round_up_size n).
  { apply to_uint_id. ulia. }
  assert (Hint : to_int (round_up_size n) = round_up_size n).
  { apply to_int_id. ulia. }
  assert (E : my_malloc fuel st n
              = if to_uint (size (rd st b) - round_up_size n) >=? MINIMUM_BLOCK_SIZE
                then Some (fst (split_block st b (to_int (round_up_size n))),
                           block_to_data b)
                else Some (remove_block (store st b Fin_use 1) b, block_to_data b)).
  { rewrite my_malloc_eq by lia. rewrite (small_bins_null _ _ Hsmall).
    unfold malloc_tail. change (NULL =? NULL) with true. cbv iota.
    rewrite (first_fit_spec st _ (fl OVERFLOW_BIN) NULL _ fuel Hd Hfuel).
    rewrite Hfirst.
    destruct (to_uint (size (rd st b) - round_up_size n) >=? MINIMUM_BLOCK_SIZE).
    - unfold split_block at 1. cbn [snd fst].
      destruct (Z.eqb_spec b NULL) as [|_]; [ulia|]. reflexivity.
    - destruct (Z.eqb_spec b NULL) as [|_]; [ulia|]. reflexivity. }
  rewrite Hdiff, Hint in E.
  split; [done|]. split; [by exists l1, l2|]. split.
  - intros Hlt.
    destruct (Z.geb_spec (size (rd st b) - round_up_size n) MINIMUM_BLOCK_SIZE);
      [lia|].
    eexists. split; [exact E|]. ph_rw. dec_rw. split; [done|]. split; [done|].
    split; [done|]. split; [done|]. by apply take_wf.
  - intros Hge.
    destruct (Z.geb_spec (size (rd st b) - round_up_size n) MINIMUM_BLOCK_SIZE);
      [|lia].
    destruct (split_block_wf base st bl fl OVERFLOW_BIN b (round_up_size n)
                Hwf Hin Hs ltac:(lia) ltac:(ulia))
      as (Hwf' & _ & Hr & _ & _).
    assert (Hub : size (rd st b) <= INT_MAX
                  \/ 2 ^ 31 + round_up_size n <= size (rd st b)) by (left; ulia).
    destruct (split_block_listed base st bl fl OVERFLOW_BIN b (round_up_size n)
                Hwf Hin ltac:(ulia) ltac:(ulia) ltac:(lia) Hub)
      as (_ & E2 & E3 & E4 & E5 & E6 & E7 & E8 & _ & E9 & _ & E10 & _ & E11 & _).
    cbv zeta in *.
    eexists _, _. split; [exact E|].
    replace (b + 24 + round_up_size n)
      with (b + BLOCK_HEADER_SIZE + round_up_size n) in * by done.
    repeat (split; [done|]). exact Hwf'.
Qed.

Lemma overflow_first_fit_split_1000 :
  exists st ps st',
    exec (small_chk 4096) 1 [Malloc 1000; Malloc 16; Free 4120] (init 4096) []
    = Some (st, ps)
    /\ bin st OVERFLOW_BIN = 4096 /\ size (rd st 4096) = 1000
    /\ round_up_size 100 = 104
    /\ my_malloc 2 st 100 = Some (st', 4120)
    /\ size (rd st' 4096) = 104 /\ in_use (rd st' 4096) = 1
    /\ size (rd st' 4224) = 872 /\ in_use (rd st' 4224) = 0
    /\ next_phys (rd st' 4096) = 4224.
Proof.
  eassert (E : exec (small_chk 4096) 1 [Malloc 1000; Malloc 16; Free 4120]
                 (init 4096) [] = Some (_, _)) by (vm_compute; reflexivity).
  match type of E with _ = Some (?s, _) => set (st := s) in * end.
  destruct (run_small_inv 4096 st [5144]) as (bl & fl & Hwf & Hfits & _);
    [lia| |].
  { eapply (exec_run (small_call 4096) (small_chk 4096) 4096 1
              [Malloc 1000; Malloc 16; Free 4120] (small_chk_ok 4096));
      [apply run_init|]. vm_compute. reflexivity. }
  assert (Hfl : fl OVERFLOW_BIN = [4096]).
  { apply (dseg_singleton st NULL).
    - pose proof (lo_dll _ _ (wf_lists _ _ _ _ Hwf) OVERFLOW_BIN) as Hd.
      change (bin st OVERFLOW_BIN) with 4096 in Hd. apply Hd. vm_compute.
      split; [discriminate|reflexivity].
    - discriminate.
    - vm_compute. reflexivity. }
  destruct (overflow_first_fit 4096 st bl fl 100 2 4096 Hwf Hfits)
    as (_ & _ & _ & Hsplit).
  - vm_compute. split; [reflexivity|discriminate].
  - vm_compute. reflexivity.
  - rewrite Hfl. vm_compute. reflexivity.
  - rewrite Hfl. cbn [length]. lia.
  - destruct Hsplit as (st' & fl' & E1 & E2 & E3 & _ & E4 & E5 & E6 & _);
      [vm_compute; discriminate|].
    change (block_to_data 4096) with 4120 in E1.
    change (round_up_size 100) with 104 in *.
    change (4096 + BLOCK_HEADER_SIZE + 104) with 4224 in *.
    change (size (rd st 4096) - 104 - BLOCK_HEADER_SIZE) with 872 in *.
    exists st, [5144], st'. split; [exact E|].
    split; [vm_compute; reflexivity|]. split; [vm_compute; reflexivity|].
    split; [reflexivity|]. repeat split; assumption.
Defined.
